(** * secret-agent: location tracking, session state recording, command
      dispatch and session admission

    A shallow embedding of
    - [core/lib/LocationTracker.ts]            (module [LocationTracker]),
    - [session-state/index.ts]                 (module [SessionState]),
    - [core/lib/CoreServerConnection.ts]       (module [CoreServerConnection]),
    - the session pool described by the specification (module [GlobalPool]),
    followed by the theorems about them.

    Conventions.  Command ids and timestamps are integers ([Z]); a [Date] is
    its number of milliseconds.  A promise resolver is a natural number, the
    identity of the promise it settles.  JavaScript objects used as
    dictionaries are finite maps or functions with update; arrays are lists.
    Callbacks handed to the code (listeners, resolvers) are identified by
    numbers and every call of one is written to an explicit log. *)

From Stdlib Require Import ZArith String Lia.
From stdpp Require Import base option list gmap strings.

Local Open Scope string_scope.
Local Open Scope Z_scope.
Local Open Scope list_scope.

(** ** Shared interfaces *)

Module Interfaces.

(** [LocationTrigger] of [core-interfaces/Location]. *)
Inductive LocationTrigger : Type := reload | change.

(** Modelled from the spec: the [PipelineStatus] table of
    [core-interfaces/Location], whose declaration is missing.  The six
    statuses of the pipeline, "strictly ordered"
    NavigationRequested, HttpRequested, HttpRedirected, HttpResponded,
    DomContentLoaded, AllContentLoaded. *)
Inductive PipelineStatus : Type :=
  | NavigationRequested
  | HttpRequested
  | HttpRedirected
  | HttpResponded
  | DomContentLoaded
  | AllContentLoaded.

(** [ILocationStatus]: the keys of [LocationStatus], a trigger or a pipeline
    status (the keys of [waitForCbs] in the tracker's constructor). *)
Inductive ILocationStatus : Type :=
  | Trigger (t : LocationTrigger)
  | Pipeline (p : PipelineStatus).

#[export] Instance LocationTrigger_eq_dec : EqDecision LocationTrigger.
Proof. solve_decision. Defined.
#[export] Instance PipelineStatus_eq_dec : EqDecision PipelineStatus.
Proof. solve_decision. Defined.
#[export] Instance ILocationStatus_eq_dec : EqDecision ILocationStatus.
Proof. solve_decision. Defined.

(** Modelled from the spec: the numbering of [PipelineStatus], missing with
    its declaration: the position in the pipeline, from 0, which is what
    [Object.keys(PipelineStatus)[step]] in [onPipelineStatusChange] needs to
    be the inverse of [Number(PipelineStatus[status])]. *)
Definition PipelineStatus_value (p : PipelineStatus) : nat :=
  match p with
  | NavigationRequested => 0
  | HttpRequested => 1
  | HttpRedirected => 2
  | HttpResponded => 3
  | DomContentLoaded => 4
  | AllContentLoaded => 5
  end%nat.

(** [Object.keys(PipelineStatus)]. *)
Definition PipelineStatus_keys : list PipelineStatus :=
  [NavigationRequested; HttpRequested; HttpRedirected; HttpResponded;
   DomContentLoaded; AllContentLoaded].

(** The name of a status, as the string the code passes around. *)
Definition status_name (s : ILocationStatus) : string :=
  match s with
  | Trigger reload => "reload"
  | Trigger change => "change"
  | Pipeline NavigationRequested => "NavigationRequested"
  | Pipeline HttpRequested => "HttpRequested"
  | Pipeline HttpRedirected => "HttpRedirected"
  | Pipeline HttpResponded => "HttpResponded"
  | Pipeline DomContentLoaded => "DomContentLoaded"
  | Pipeline AllContentLoaded => "AllContentLoaded"
  end.

Definition LocationStatus_members : list ILocationStatus :=
  [Trigger reload; Trigger change;
   Pipeline NavigationRequested; Pipeline HttpRequested;
   Pipeline HttpRedirected; Pipeline HttpResponded;
   Pipeline DomContentLoaded; Pipeline AllContentLoaded].

(** What reading [table[name]] gives when the table is an ordinary object,
    as the enumerations of [core-interfaces/Location] are: the member of
    that name; or, when there is none and the name is one of the properties
    every object inherits from [Object.prototype], that property; or
    [undefined]. *)
Inductive Lookup (A : Type) : Type :=
  | Member (a : A)
  | Inherited
  | Undefined.
Arguments Member {A} a.
Arguments Inherited {A}.
Arguments Undefined {A}.

(** The names of the properties of [Object.prototype].  Their values are
    functions, and the prototype itself for ['__proto__']: all truthy. *)
Definition Object_prototype_names : list string :=
  ["constructor"; "__defineGetter__"; "__defineSetter__"; "hasOwnProperty";
   "__lookupGetter__"; "__lookupSetter__"; "isPrototypeOf";
   "propertyIsEnumerable"; "toString"; "valueOf"; "__proto__";
   "toLocaleString"].

(** [LocationStatus[status]]. *)
Definition LocationStatus_lookup (status : string) : Lookup ILocationStatus :=
  match List.find (fun s => String.eqb (status_name s) status) LocationStatus_members with
  | Some s => Member s
  | None =>
      if existsb (String.eqb status) Object_prototype_names then Inherited
      else Undefined
  end.

(** [LocationTrigger[status]], for the name of a member of [LocationStatus]. *)
Definition LocationTrigger_lookup (s : ILocationStatus) : option LocationTrigger :=
  match s with Trigger t => Some t | Pipeline _ => None end.

(** [PipelineStatus[status]], for the name of a member of [LocationStatus]:
    the step number, [None] for [undefined]. *)
Definition PipelineStatus_lookup (s : ILocationStatus) : option nat :=
  match s with Trigger _ => None | Pipeline p => Some (PipelineStatus_value p) end.

(** JavaScript truthiness of a number or [undefined]. *)
Definition truthy_nat (v : option nat) : bool :=
  match v with Some (S _) => true | _ => false end.

(** [ICommandMeta]: the fields the embedded code reads or writes.  [result]
    is the representation of the returned value or of the thrown error. *)
Record ICommandMeta : Type := mkCommand {
  id : Z;
  name : string;
  startDate : option Z;
  endDate : option Z;
  result : option string;
  resultType : option string;
}.

(** [INavigation]: [stateChanges] is a [Map] from pipeline status to date,
    kept as the list of its entries in insertion order. *)
Record INavigation : Type := mkNavigation {
  navigationReason : string;
  startCommandId : Z;
  initiatedTime : Z;
  stateChanges : list (PipelineStatus * Z);
}.

(** [Map.prototype.get], [Map.prototype.set] and [Map.prototype.keys]. *)
Fixpoint Map_get {V : Type} (k : PipelineStatus) (m : list (PipelineStatus * V))
  : option V :=
  match m with
  | [] => None
  | (k', v) :: rest => if decide (k' = k) then Some v else Map_get k rest
  end.

Fixpoint Map_set {V : Type} (k : PipelineStatus) (v : V)
    (m : list (PipelineStatus * V)) : list (PipelineStatus * V) :=
  match m with
  | [] => [(k, v)]
  | (k', v') :: rest =>
      if decide (k' = k) then (k, v) :: rest else (k', v') :: Map_set k v rest
  end.

Definition Map_keys {V : Type} (m : list (PipelineStatus * V)) : list PipelineStatus :=
  m.*1.

(** Modelled from the spec: [TabNavigations] (session-state/lib, missing):
    "the ordered sequence of Navigation Entries" of a tab, whose last entry
    is the current one ([top]). *)
Record TabNavigations : Type := mkNavigations {
  history : list INavigation;
}.

Definition top (n : TabNavigations) : option INavigation := last (history n).

End Interfaces.

(** ** core/lib/LocationTracker.ts *)

Module LocationTracker.
Import Interfaces.

Definition READY : string := "READY".

(** A promise resolver: the identity of the promise it settles. *)
Definition Resolver : Type := nat.

(** The tracker: its fields, and [promises], the number of promises
    [waitFor] has created so far (the identity of the next one). *)
Record LocationTracker : Type := mkTracker {
  defaultWaitForLocationCommandId : Z;
  navigations : TabNavigations;
  waitForCbs : ILocationStatus -> list Resolver;
  promises : nat;
}.

(** The constructor: every list of [waitForCbs] is empty. *)
Definition new (navigations : TabNavigations) : LocationTracker :=
  {| defaultWaitForLocationCommandId := 0;
     navigations := navigations;
     waitForCbs := fun _ => [];
     promises := 0 |}.

Definition set_waitForCbs (t : LocationTracker) (status : ILocationStatus)
    (cbs : list Resolver) : LocationTracker :=
  {| defaultWaitForLocationCommandId := defaultWaitForLocationCommandId t;
     navigations := navigations t;
     waitForCbs := fun s => if decide (s = status) then cbs else waitForCbs t s;
     promises := promises t |}.

Definition getStepByStatus (status : PipelineStatus) : nat :=
  PipelineStatus_value status.

Definition getPipelineStatus (page : INavigation) : nat :=
  fold_left
    (fun maxStep status =>
       let step := getStepByStatus status in
       if (maxStep <? step)%nat then step else maxStep)
    (Map_keys (stateChanges page)) 0%nat.

Definition currentStep (t : LocationTracker) : nat :=
  match top (navigations t) with
  | None => 0%nat
  | Some location => getPipelineStatus location
  end.

Definition getTriggerForNavigationReason (reason : string) : option LocationTrigger :=
  if String.eqb reason "newTab" then None
  else
    let isReload :=
      String.eqb reason "httpHeaderRefresh" || String.eqb reason "metaTagRefresh"
      || String.eqb reason "reload" in
    Some (if isReload then reload else change).

(** The loop of [hasTriggerSinceCommand], with its early [return true]. *)
Fixpoint hasTriggerSinceCommand_loop (hist : list INavigation)
    (trigger : LocationTrigger) (sinceCommandId : Z) (inclusive : bool) : bool :=
  match hist with
  | [] => false
  | nav :: rest =>
      let isMatch := sinceCommandId <? startCommandId nav in
      let isMatch :=
        if inclusive then isMatch || (sinceCommandId <=? startCommandId nav)
        else isMatch in
      if isMatch
         && bool_decide (getTriggerForNavigationReason (navigationReason nav)
                         = Some trigger)
      then true
      else hasTriggerSinceCommand_loop rest trigger sinceCommandId inclusive
  end.

Definition hasTriggerSinceCommand (t : LocationTracker) (trigger : LocationTrigger)
    (sinceCommandId : Z) (inclusive : bool) : bool :=
  hasTriggerSinceCommand_loop (history (navigations t)) trigger sinceCommandId inclusive.

(** [runWaitForCbs]: the [while] loop shifts the first resolver off the list
    and calls it; [called] collects the calls in order. *)
Fixpoint runWaitForCbs_loop (cbs called : list Resolver)
  : list Resolver * list Resolver :=
  match cbs with
  | [] => ([], called)
  | resolve :: rest => runWaitForCbs_loop rest (called ++ [resolve])
  end.

Definition runWaitForCbs (t : LocationTracker) (status : ILocationStatus)
  : LocationTracker * list Resolver :=
  let '(cbs, called) := runWaitForCbs_loop (waitForCbs t status) [] in
  (set_waitForCbs t status cbs, called).

(** [onNavigation], the handler of 'navigation-requested'. *)
Definition onNavigation (t : LocationTracker) (lifecycle : INavigation)
  : LocationTracker * list Resolver :=
  if String.eqb (navigationReason lifecycle) "newTab" then (t, [])
  else
    match getTriggerForNavigationReason (navigationReason lifecycle) with
    | Some trigger => runWaitForCbs t (Trigger trigger)
    | None => (t, [])
    end.

(** One round of the [for] loop of [onPipelineStatusChange]; [None] is the
    [TypeError] of reading [waitForCbs[undefined].length]. *)
Definition onPipelineStatusChange_round (lastStep newStep : nat)
    (acc : option (LocationTracker * list Resolver)) (i : nat)
  : option (LocationTracker * list Resolver) :=
  '(t, called) ← acc;
  let step := (lastStep + i)%nat in
  status ← PipelineStatus_keys !! step;
  if negb (bool_decide (status = HttpRedirected)) || (step =? newStep)%nat
  then
    let '(t', called') := runWaitForCbs t (Pipeline status) in
    Some (t', called ++ called')
  else Some (t, called).

(** [onPipelineStatusChange], the handler of 'status-change'. *)
Definition onPipelineStatusChange (t : LocationTracker) (newStatus : PipelineStatus)
  : option (LocationTracker * list Resolver) :=
  let incomingStep := getStepByStatus newStatus in
  let lastStep := currentStep t in
  let newStep := if (lastStep <? incomingStep)%nat then incomingStep else lastStep in
  let stepsToUpdate := (newStep - lastStep)%nat in
  fold_left (onPipelineStatusChange_round lastStep newStep)
    (seq 1 stepsToUpdate) (Some (t, [])).

(** What a call of [waitFor] gives its caller. *)
Inductive WaitResult : Type :=
  | Returned                    (* [return;]: nothing to wait for *)
  | Threw (message : string)    (* the assertion failed *)
  | Pending (resolve : Resolver) (* a promise, its resolver queued *)
  | Rejected (error : string).  (* a promise whose executor threw *)

Definition waitFor (t : LocationTracker) (status : string)
    (sinceCommandId : option Z) (inclusiveOfCommandId : option bool)
  : LocationTracker * WaitResult :=
  let inclusiveOfCommandId := default true inclusiveOfCommandId in
  let ready := String.eqb status READY in
  if ready && bool_decide (top (navigations t) = None) then (t, Returned)
  else
    let status := if ready then status_name (Pipeline DomContentLoaded) else status in
    match LocationStatus_lookup status with
    | Undefined => (t, Threw ("Invalid navigation status: " +:+ status))
    | Inherited =>
        (* The assertion passes.  [LocationTrigger[status]] is the inherited
           property too, truthy, and the trigger of no navigation:
           [hasTriggerSinceCommand] gives false.  [PipelineStatus[status]] is
           truthy as well and [Number] of it is [NaN]: the step is falsy.
           In the executor of the promise, [waitForCbs[status]] is that
           property again and has no [push]: the call throws a [TypeError],
           which rejects the promise; nothing is queued. *)
        (t, Rejected "TypeError")
    | Member s =>
        let hasPreviousTrigger :=
          match LocationTrigger_lookup s with
          | Some trigger =>
              hasTriggerSinceCommand t trigger
                (default (defaultWaitForLocationCommandId t) sinceCommandId)
                inclusiveOfCommandId
          | None => false
          end in
        if hasPreviousTrigger then (t, Returned)
        else
          let reached :=
            match s with
            | Pipeline p =>
                truthy_nat (PipelineStatus_lookup s)
                && let step := getStepByStatus p in
                   truthy_nat (Some step) && (step <=? currentStep t)%nat
            | Trigger _ => false
            end in
          if reached then (t, Returned)
          else
            let resolve := promises t in
            ({| defaultWaitForLocationCommandId := defaultWaitForLocationCommandId t;
                navigations := navigations t;
                waitForCbs := fun s' =>
                  if decide (s' = s) then waitForCbs t s ++ [resolve]
                  else waitForCbs t s';
                promises := S (promises t) |},
             Pending resolve)
    end.

(** [willRunCommand]: the loop carries the anchor and [last]. *)
Definition startsWith (s prefix : string) : bool := String.prefix prefix s.

Definition willRunCommand_round (acc : Z * option ICommandMeta) (command : ICommandMeta)
  : Z * option ICommandMeta :=
  let '(anchor, last) := acc in
  let anchor :=
    if String.eqb (name command) "goto" then id command else anchor in
  let anchor :=
    if match last with Some l => startsWith (name l) "waitFor" | None => false end
       && negb (startsWith (name command) "waitFor")
    then id command else anchor in
  (anchor, Some command).

Definition willRunCommand (t : LocationTracker) (newCommand : ICommandMeta)
    (previousCommands : list ICommandMeta) : LocationTracker :=
  let '(anchor, last) :=
    fold_left willRunCommand_round previousCommands
      (defaultWaitForLocationCommandId t, None) in
  let anchor :=
    if String.eqb (name newCommand) "waitForLocation"
       && match last with Some l => startsWith (name l) "waitFor" | None => false end
    then id newCommand else anchor in
  {| defaultWaitForLocationCommandId := anchor;
     navigations := navigations t;
     waitForCbs := waitForCbs t;
     promises := promises t |}.

End LocationTracker.

(** ** session-state/index.ts *)

Module SessionState.
Import Interfaces.

(** A registered listener function, by identity. *)
Definition Listener : Type := nat.

(** A command object on the JavaScript heap, by identity: [commands] holds
    references, and [runCommand] writes to the object it was handed, so every
    holder of the reference sees [endDate] and [result]. *)
Definition Ref : Type := nat.

Record IWebsocketResourceMessage : Type := mkMessage {
  resourceId : Z;
  message : string;
  messageId : nat;
  source : string;
}.

Record ILogEntry : Type := mkLogEntry {
  entry_sessionId : option string;
  action : string;
  level : string;
  timestamp : Z;
}.

(** Modelled from the spec: the tables of [SessionDb] (missing) that the
    embedded methods write: "an insert-oriented table API per entity kind".
    The commands table is keyed by command id, a second insert of an id being
    an update ("update-by-reinsert"; in the source: "second insert on purpose
    -- it will do an update"); the other tables are append-only. *)
Record SessionDb : Type := mkDb {
  db_commands : gmap Z ICommandMeta;
  db_websocketMessages : list (option Z * IWebsocketResourceMessage);
  db_sessionLogs : list ILogEntry;
}.

Definition db_commands_insert (db : SessionDb) (row : ICommandMeta) : SessionDb :=
  {| db_commands := <[id row := row]> (db_commands db);
     db_websocketMessages := db_websocketMessages db;
     db_sessionLogs := db_sessionLogs db |}.

Definition db_websocketMessages_insert (db : SessionDb) (commandId : option Z)
    (msg : IWebsocketResourceMessage) : SessionDb :=
  {| db_commands := db_commands db;
     db_websocketMessages := db_websocketMessages db ++ [(commandId, msg)];
     db_sessionLogs := db_sessionLogs db |}.

Definition db_sessionLogs_insert (db : SessionDb) (entry : ILogEntry) : SessionDb :=
  {| db_commands := db_commands db;
     db_websocketMessages := db_websocketMessages db;
     db_sessionLogs := db_sessionLogs db ++ [entry] |}.

(** The fields of [SessionState] the embedded methods use, the heap of
    command objects, and two logs: [delivered], every call of a websocket
    listener with its argument, and [errorsLogged], the calls of
    [logger.error], both in order. *)
Record SessionState : Type := mkState {
  sessionId : string;
  heap : gmap Ref ICommandMeta;
  commands : list Ref;
  createDate : Z;
  navigationsByTabId : list (string * TabNavigations);
  db : SessionDb;
  websocketMessages : list IWebsocketResourceMessage;
  websocketListeners : gmap Z (list Listener);
  browserRequestIdToResources : gmap string (list (Z * string));
  lastErrorTime : option Z;
  closeDate : option Z;
  websocketMessageIdCounter : nat;
  delivered : list (Listener * IWebsocketResourceMessage);
  errorsLogged : list string;
}.

Definition set_heap (s : SessionState) (h : gmap Ref ICommandMeta) : SessionState :=
  {| sessionId := sessionId s; heap := h; commands := commands s;
     createDate := createDate s; navigationsByTabId := navigationsByTabId s;
     db := db s; websocketMessages := websocketMessages s;
     websocketListeners := websocketListeners s;
     browserRequestIdToResources := browserRequestIdToResources s;
     lastErrorTime := lastErrorTime s; closeDate := closeDate s;
     websocketMessageIdCounter := websocketMessageIdCounter s;
     delivered := delivered s; errorsLogged := errorsLogged s |}.

Definition set_commands (s : SessionState) (c : list Ref) : SessionState :=
  {| sessionId := sessionId s; heap := heap s; commands := c;
     createDate := createDate s; navigationsByTabId := navigationsByTabId s;
     db := db s; websocketMessages := websocketMessages s;
     websocketListeners := websocketListeners s;
     browserRequestIdToResources := browserRequestIdToResources s;
     lastErrorTime := lastErrorTime s; closeDate := closeDate s;
     websocketMessageIdCounter := websocketMessageIdCounter s;
     delivered := delivered s; errorsLogged := errorsLogged s |}.

Definition set_db (s : SessionState) (d : SessionDb) : SessionState :=
  {| sessionId := sessionId s; heap := heap s; commands := commands s;
     createDate := createDate s; navigationsByTabId := navigationsByTabId s;
     db := d; websocketMessages := websocketMessages s;
     websocketListeners := websocketListeners s;
     browserRequestIdToResources := browserRequestIdToResources s;
     lastErrorTime := lastErrorTime s; closeDate := closeDate s;
     websocketMessageIdCounter := websocketMessageIdCounter s;
     delivered := delivered s; errorsLogged := errorsLogged s |}.

Definition set_websocketListeners (s : SessionState) (l : gmap Z (list Listener))
  : SessionState :=
  {| sessionId := sessionId s; heap := heap s; commands := commands s;
     createDate := createDate s; navigationsByTabId := navigationsByTabId s;
     db := db s; websocketMessages := websocketMessages s;
     websocketListeners := l;
     browserRequestIdToResources := browserRequestIdToResources s;
     lastErrorTime := lastErrorTime s; closeDate := closeDate s;
     websocketMessageIdCounter := websocketMessageIdCounter s;
     delivered := delivered s; errorsLogged := errorsLogged s |}.

Definition set_delivered (s : SessionState)
    (d : list (Listener * IWebsocketResourceMessage)) : SessionState :=
  {| sessionId := sessionId s; heap := heap s; commands := commands s;
     createDate := createDate s; navigationsByTabId := navigationsByTabId s;
     db := db s; websocketMessages := websocketMessages s;
     websocketListeners := websocketListeners s;
     browserRequestIdToResources := browserRequestIdToResources s;
     lastErrorTime := lastErrorTime s; closeDate := closeDate s;
     websocketMessageIdCounter := websocketMessageIdCounter s;
     delivered := d; errorsLogged := errorsLogged s |}.

Definition set_lastErrorTime (s : SessionState) (t : option Z) : SessionState :=
  {| sessionId := sessionId s; heap := heap s; commands := commands s;
     createDate := createDate s; navigationsByTabId := navigationsByTabId s;
     db := db s; websocketMessages := websocketMessages s;
     websocketListeners := websocketListeners s;
     browserRequestIdToResources := browserRequestIdToResources s;
     lastErrorTime := t; closeDate := closeDate s;
     websocketMessageIdCounter := websocketMessageIdCounter s;
     delivered := delivered s; errorsLogged := errorsLogged s |}.

(** [get lastCommand]. *)
Definition lastCommand (s : SessionState) : option ICommandMeta :=
  r ← last (commands s); heap s !! r.

(** The settled promise of the wrapped function: the representation of the
    value it returned or of the error it threw. *)
Inductive Settled : Type :=
  | Fulfilled (value : string)
  | Rejected (err : string).

Definition set_startDate (c : ICommandMeta) (d : Z) : ICommandMeta :=
  {| id := id c; name := name c; startDate := Some d; endDate := endDate c;
     result := result c; resultType := resultType c |}.

Definition set_endDate_result (c : ICommandMeta) (d : Z) (r : option string)
  : ICommandMeta :=
  {| id := id c; name := name c; startDate := startDate c; endDate := Some d;
     result := r; resultType := resultType c |}.

(** [db.commands.insert(commandMeta)]: the row is the object as it is now. *)
Definition insert_command_object (s : SessionState) (commandMeta : Ref) : SessionState :=
  match heap s !! commandMeta with
  | Some row => set_db s (db_commands_insert (db s) row)
  | None => s
  end.

(** [runCommand], up to the call of [commandFn]: the reference is pushed,
    [startDate] is written to the object, the object is inserted. *)
Definition runCommand_start (s : SessionState) (commandMeta : Ref) (now : Z)
  : SessionState :=
  let s := set_commands s (commands s ++ [commandMeta]) in
  let s := set_heap s (alter (fun c => set_startDate c now) commandMeta (heap s)) in
  insert_command_object s commandMeta.

(** The [finally] block. *)
Definition runCommand_finally (s : SessionState) (commandMeta : Ref) (now : Z)
    (result : option string) : SessionState :=
  let s := set_heap s
             (alter (fun c => set_endDate_result c now result) commandMeta (heap s)) in
  insert_command_object s commandMeta.

(** [runCommand]: [commandFn] runs on the state it finds and settles;
    [startTime] and [endTime] are the two readings of the clock.  The
    promise returned settles as the wrapped one did ([return result] or
    [throw err]). *)
Definition runCommand (s : SessionState)
    (commandFn : SessionState -> SessionState * Settled)
    (commandMeta : Ref) (startTime endTime : Z) : SessionState * Settled :=
  let s1 := runCommand_start s commandMeta startTime in
  let '(s2, settled) := commandFn s1 in
  let result :=
    match settled with Fulfilled value => Some value | Rejected err => Some err end in
  (runCommand_finally s2 commandMeta endTime result, settled).

(** [onWebsocketMessages]. *)
Definition onWebsocketMessages (s : SessionState) (resourceId0 : Z)
    (listenerFn : Listener) : SessionState :=
  let listeners := default [] (websocketListeners s !! resourceId0) in
  let s := set_websocketListeners s
             (<[resourceId0 := listeners ++ [listenerFn]]> (websocketListeners s)) in
  fold_left
    (fun s message0 =>
       if bool_decide (resourceId message0 = resourceId0)
       then set_delivered s (delivered s ++ [(listenerFn, message0)])
       else s)
    (websocketMessages s) s.

(** [stopWebsocketMessages]: [indexOf] and [splice(idx, 1)] remove the first
    occurrence. *)
Fixpoint remove_first (l : Listener) (ls : list Listener) : list Listener :=
  match ls with
  | [] => []
  | x :: rest => if decide (x = l) then rest else x :: remove_first l rest
  end.

Definition stopWebsocketMessages (s : SessionState) (resourceId0 : Z)
    (listenerFn : Listener) : SessionState :=
  match websocketListeners s !! resourceId0 with
  | None => s
  | Some listeners =>
      set_websocketListeners s
        (<[resourceId0 := remove_first listenerFn listeners]> (websocketListeners s))
  end.

(** [onLogEvent]; the rewriting of [entry.data] is left out with the field. *)
Definition onLogEvent (s : SessionState) (entry : ILogEntry) : SessionState :=
  if bool_decide (entry_sessionId entry = Some (sessionId s))
     || bool_decide (entry_sessionId entry = None)
     || bool_decide (entry_sessionId entry = Some "")
  then
    let s := if String.eqb (level entry) "error"
             then set_lastErrorTime s (Some (timestamp entry)) else s in
    set_db s (db_sessionLogs_insert (db s) entry)
  else s.

(** Modelled from the spec: the bound logger of [commons/Logger] (missing)
    and "the global log stream".  A call [this.logger.<level>(action, ...)]
    makes an entry of this session ("every ... log line ... is attributed to
    exactly one session"), dated by the clock, and the stream hands it to its
    subscribers.  The session subscribes its [onLogEvent] in its constructor
    and [close], which is what sets [closeDate], "unsubscribes from the
    global log stream": until then the entries of its own logger reach it. *)
Definition logger_log (s : SessionState) (level0 action0 : string) (now : Z)
  : SessionState :=
  match closeDate s with
  | None =>
      onLogEvent s {| entry_sessionId := Some (sessionId s); action := action0;
                      level := level0; timestamp := now |}
  | Some _ => s
  end.

(** The event of a websocket frame.  [event_time] is no field of the event
    of the source: it is the clock while the frame is captured, which dates
    the log entry the logger makes when the frame is dropped. *)
Record WebsocketEvent : Type := mkEvent {
  browserRequestId : string;
  isFromServer : bool;
  event_message : string;
  event_time : Z;
}.

(** [captureWebsocketMessage]. *)
Definition captureWebsocketMessage (s : SessionState) (event : WebsocketEvent)
  : SessionState * option IWebsocketResourceMessage :=
  match last (default [] (browserRequestIdToResources s !! browserRequestId event)) with
  | None =>
      (logger_log
         {| sessionId := sessionId s; heap := heap s; commands := commands s;
            createDate := createDate s; navigationsByTabId := navigationsByTabId s;
            db := db s; websocketMessages := websocketMessages s;
            websocketListeners := websocketListeners s;
            browserRequestIdToResources := browserRequestIdToResources s;
            lastErrorTime := lastErrorTime s; closeDate := closeDate s;
            websocketMessageIdCounter := websocketMessageIdCounter s;
            delivered := delivered s;
            errorsLogged := errorsLogged s
                            ++ ["CaptureWebsocketMessageError.UnregisteredResource"] |}
         "error" "CaptureWebsocketMessageError.UnregisteredResource"
         (event_time event),
       None)
  | Some finalRedirect =>
      let counter := S (websocketMessageIdCounter s) in
      let resourceMessage :=
        {| resourceId := finalRedirect.1;
           message := event_message event;
           messageId := counter;
           source := if isFromServer event then "server" else "client" |} in
      let listeners := default [] (websocketListeners s !! resourceId resourceMessage) in
      ({| sessionId := sessionId s; heap := heap s; commands := commands s;
          createDate := createDate s; navigationsByTabId := navigationsByTabId s;
          db := db_websocketMessages_insert (db s) (id <$> lastCommand s) resourceMessage;
          websocketMessages := websocketMessages s ++ [resourceMessage];
          websocketListeners := websocketListeners s;
          browserRequestIdToResources := browserRequestIdToResources s;
          lastErrorTime := lastErrorTime s; closeDate := closeDate s;
          websocketMessageIdCounter := counter;
          delivered := delivered s ++ map (fun l => (l, resourceMessage)) listeners;
          errorsLogged := errorsLogged s |},
       Some resourceMessage)
  end.

(** [String.prototype.includes]. *)
Definition includes (s sub : string) : bool :=
  match String.index 0 sub s with Some _ => true | None => false end.

Record Responsive : Type := mkResponsive {
  hasRecentErrors : bool;
  lastActivityDate : Z;
  lastCommandName : option string;
  responsive_closeDate : option Z;
}.

(** The inner loop of [checkForResponsive], over [this.commands]. *)
Definition checkForResponsive_command (allContentLoaded : option Z)
    (lastSuccessDate : Z) (command : ICommandMeta) : Z :=
  match endDate command with
  | None => lastSuccessDate
  | Some endDate0 =>
      if bool_decide (is_Some allContentLoaded)
         && (lastSuccessDate <? endDate0)
         && negb (match resultType command with
                  | Some rt => includes rt "Error"
                  | None => false
                  end)
      then endDate0 else lastSuccessDate
  end.

(** The outer loop, over [Object.values(this.navigationsByTabId)]. *)
Definition checkForResponsive_navigation (cmds : list ICommandMeta)
    (lastSuccessDate : Z) (navigation : TabNavigations) : Z :=
  let allContentLoaded :=
    n ← top navigation; Map_get AllContentLoaded (stateChanges n) in
  let lastPageTime :=
    match allContentLoaded with
    | Some t => Some t
    | None => initiatedTime <$> top navigation
    end in
  let lastSuccessDate :=
    match lastPageTime with
    | Some t => if lastSuccessDate <? t then t else lastSuccessDate
    | None => lastSuccessDate
    end in
  fold_left (checkForResponsive_command allContentLoaded) cmds lastSuccessDate.

Definition command_objects (s : SessionState) : list ICommandMeta :=
  omap (fun r => heap s !! r) (commands s).

Definition lastSuccessDate (s : SessionState) : Z :=
  fold_left (checkForResponsive_navigation (command_objects s))
    (navigationsByTabId s).*2 (createDate s).

(** [checkForResponsive]; [undefined >= date] is [false]. *)
Definition checkForResponsive (s : SessionState) : Responsive :=
  let lastSuccessDate0 := lastSuccessDate s in
  let hasRecentErrors0 :=
    match lastErrorTime s with
    | Some t => lastSuccessDate0 <=? t
    | None => false
    end in
  let lastActivityDate0 :=
    match lastCommand s with
    | Some c =>
        match (match endDate c with Some e => Some e | None => startDate c end) with
        | Some commandDate =>
            if lastSuccessDate0 <? commandDate then commandDate else lastSuccessDate0
        | None => lastSuccessDate0
        end
    | None => lastSuccessDate0
    end in
  {| hasRecentErrors := hasRecentErrors0;
     lastActivityDate := lastActivityDate0;
     lastCommandName := name <$> lastCommand s;
     responsive_closeDate := closeDate s |}.

End SessionState.

(** ** core/lib/CoreServerConnection.ts *)

Module CoreServerConnection.

(** A JavaScript object literal: its own enumerable properties in insertion
    order, values by their representation. *)
Definition Obj : Type := list (string * string).

Fixpoint Obj_set (k v : string) (o : Obj) : Obj :=
  match o with
  | [] => [(k, v)]
  | (k', v') :: rest =>
      if String.eqb k' k then (k, v) :: rest else (k', v') :: Obj_set k v rest
  end.

Fixpoint Obj_get (k : string) (o : Obj) : option string :=
  match o with
  | [] => None
  | (k', v) :: rest => if String.eqb k' k then Some v else Obj_get k rest
  end.

(** [{ ...o, ...more }]. *)
Definition Obj_spread (o more : Obj) : Obj :=
  fold_left (fun acc kv => Obj_set kv.1 kv.2 acc) more o.

(** An [Error] instance: [message] and [stack] (not enumerable) and its own
    enumerable properties. *)
Record Error : Type := mkError {
  error_message : string;
  error_stack : string;
  error_own : Obj;
}.

(** [new Error(message)]; the stack begins with the message, the frames
    that follow are left out. *)
Definition new_Error (message : string) : Error :=
  {| error_message := message;
     error_stack := "Error: " +:+ message;
     error_own := [] |}.

(** What a [throw] carries: an [Error] instance, or any other value. *)
Inductive Thrown : Type :=
  | ThrownError (e : Error)
  | ThrownValue (repr : string).

Inductive Settled : Type :=
  | Fulfilled (data : string)
  | Rejected (thrown : Thrown).

Record ISessionMeta : Type := mkMeta {
  meta_sessionId : option string;
  meta_tabId : option string;
}.

Record ICoreRequestPayload : Type := mkRequest {
  messageId : string;
  command : string;
  meta : option ISessionMeta;
  args : list string;
}.

(** The [data] of a response. *)
Inductive Data : Type :=
  | DataValue (v : string)
  | DataObject (o : Obj)
  | DataError (e : Error).

Record ICoreResponsePayload : Type := mkResponse {
  responseId : string;
  commandId : option Z;
  data : Data;
  isError : bool;
}.

Inductive Emitted : Type :=
  | EmitMessage (response : ICoreResponsePayload)
  | EmitClose.

(** An argument of a call: the session meta or a request argument. *)
Inductive Arg : Type :=
  | ArgMeta (m : ISessionMeta)
  | ArgValue (v : string).

Section Connection.

(** Everything outside the connection that a command can read or change
    (the session registry, the sessions, their tabs). *)
Variable World : Type.

(** The connection: its fields, the events it has emitted, in order, and
    the world around it. *)
Record Connection : Type := mkConnection {
  isClosing : bool;
  isPersistent : bool;
  sessionIds : list string;
  emitted : list Emitted;
  world : World;
}.

(** The value of a property: a function, or something else with its
    [typeof]. *)
Inductive Property : Type :=
  | Function (f : Connection -> list Arg -> Connection * Settled)
  | NotFunction (typeof : string).

(** [command in this] and [this[command]]: the properties of the connection
    object, own or inherited; [None] when [command in this] is false. *)
Variable this_property : string -> option Property.

(** [Session.getTab(meta)] (missing): it throws, or returns [undefined]
    ([None]), or returns the tab, given by its properties ([None] for an
    absent one). *)
Inductive GetTab : Type :=
  | GetTabThrew (thrown : Thrown)
  | GetTabReturned (tab : option (string -> option Property)).

Variable Session_getTab : Connection -> option ISessionMeta -> GetTab.

(** [Session.get(sessionId)?.sessionState?.lastCommand?.id] (missing). *)
Variable Session_lastCommandId : Connection -> string -> option Z.

Definition typeof (p : option Property) : string :=
  match p with
  | None => "undefined"
  | Some (Function _) => "function"
  | Some (NotFunction t) => t
  end.

(** Calling a property: a [TypeError] when it is not a function. *)
Definition call (c : Connection) (p : option Property) (label : string)
    (arguments : list Arg) : Connection * Settled :=
  match p with
  | Some (Function f) => f c arguments
  | _ => (c, Rejected (ThrownError (new_Error (label +:+ " is not a function"))))
  end.

(** The [try] block of [handleRequest]: the state after it, and either the
    pair [(data, isError)] it assigned or what it threw. *)
Definition handleRequest_try (c : Connection) (payload : ICoreRequestPayload)
  : Connection * (Data * bool + Thrown) :=
  let settle (r : Connection * Settled) : Connection * (Data * bool + Thrown) :=
    match r.2 with
    | Fulfilled d => (r.1, inl (DataValue d, false))
    | Rejected thrown => (r.1, inr thrown)
    end in
  match this_property (command payload) with
  | Some p =>
      match meta payload with
      | Some m =>
          settle (call c (Some p) ("this[command]")
                    (ArgMeta m :: map ArgValue (args payload)))
      | None =>
          settle (call c (Some p) ("this[command]") (map ArgValue (args payload)))
      end
  | None =>
      match Session_getTab c (meta payload) with
      | GetTabThrew thrown => (c, inr thrown)
      | GetTabReturned None =>
          (c, inr (ThrownError
                     (new_Error "Cannot read properties of undefined")))
      | GetTabReturned (Some tab) =>
          match tab (command payload) with
          | Some (Function f) => settle (f c (map ArgValue (args payload)))
          | other =>
              (c, inl (DataError
                         (new_Error ("Command not available on tab ("
                                     +:+ command payload +:+ " - "
                                     +:+ typeof other +:+ ")")),
                       true))
          end
      end
  end.

(** The [catch] block. *)
Definition handleRequest_catch (thrown : Thrown) : Data * bool :=
  match thrown with
  | ThrownError e =>
      (DataObject
         (Obj_spread [("message", error_message e); ("stack", error_stack e)]
                     (error_own e)),
       true)
  | ThrownValue repr =>
      (DataError (new_Error ("Unknown error occurred " +:+ repr)), true)
  end.

(** [handleRequest]. *)
Definition handleRequest (c : Connection) (payload : ICoreRequestPayload)
  : Connection :=
  let '(c1, outcome) := handleRequest_try c payload in
  let '(data0, isError0) :=
    match outcome with
    | inl assigned => assigned
    | inr thrown => handleRequest_catch thrown
    end in
  let commandId0 :=
    m ← meta payload; sid ← meta_sessionId m;
    if String.eqb sid "" then None else Session_lastCommandId c1 sid in
  let response :=
    {| responseId := messageId payload;
       commandId := commandId0;
       data := data0;
       isError := isError0 |} in
  {| isClosing := isClosing c1;
     isPersistent := isPersistent c1;
     sessionIds := sessionIds c1;
     emitted := emitted c1 ++ [EmitMessage response];
     world := world c1 |}.

End Connection.

End CoreServerConnection.

(** ** The session pool *)

Module GlobalPool.

(** Modelled from the spec: [GlobalPool] (core/lib, missing; only its caller
    [CoreServerConnection.createSession] is present).  "The pool holds at
    most [maxConcurrentAgentsCount] concurrently active sessions";
    "[createSession]: if the pool is at capacity, the call suspends (does not
    fail) until a slot frees; on slot availability, constructs a new Session,
    registers it under a unique id, and returns a handle"; "[closeSession] /
    session self-close: releases the slot, allowing the next queued creation
    to proceed".  A call of [createSession] is identified by a number; the
    session it is given carries the next value of a counter. *)
Record Pool : Type := mkPool {
  maxConcurrentAgentsCount : nat;
  activeSessions : list nat;           (* the ids of the open sessions *)
  waitingForAvailability : list nat;   (* the suspended calls, oldest first *)
  completed : list (nat * nat);        (* (call, session) for every call resolved *)
  sessionCounter : nat;
}.

Definition new (k : nat) : Pool :=
  {| maxConcurrentAgentsCount := k; activeSessions := [];
     waitingForAvailability := []; completed := []; sessionCounter := 0 |}.

(** Modelled from the spec: a slot is taken: the session is constructed,
    registered under a fresh id, and the call resolves with it. *)
Definition createSessionNow (p : Pool) (call : nat) : Pool :=
  let sid := S (sessionCounter p) in
  {| maxConcurrentAgentsCount := maxConcurrentAgentsCount p;
     activeSessions := activeSessions p ++ [sid];
     waitingForAvailability := waitingForAvailability p;
     completed := completed p ++ [(call, sid)];
     sessionCounter := sid |}.

(** Modelled from the spec: [createSession]: at capacity the call is queued,
    otherwise it takes a slot at once. *)
Definition createSession (p : Pool) (call : nat) : Pool :=
  if (maxConcurrentAgentsCount p <=? length (activeSessions p))%nat
  then
    {| maxConcurrentAgentsCount := maxConcurrentAgentsCount p;
       activeSessions := activeSessions p;
       waitingForAvailability := waitingForAvailability p ++ [call];
       completed := completed p;
       sessionCounter := sessionCounter p |}
  else createSessionNow p call.

(** Modelled from the spec: closing an open session releases its slot and
    lets the oldest suspended call proceed; closing a session that is not
    open does nothing. *)
Definition closeSession (p : Pool) (sid : nat) : Pool :=
  if bool_decide (sid ∈ activeSessions p)
  then
    let p' :=
      {| maxConcurrentAgentsCount := maxConcurrentAgentsCount p;
         activeSessions := filter (fun x => x ≠ sid) (activeSessions p);
         waitingForAvailability := waitingForAvailability p;
         completed := completed p;
         sessionCounter := sessionCounter p |} in
    match waitingForAvailability p' with
    | [] => p'
    | call :: rest =>
        createSessionNow
          {| maxConcurrentAgentsCount := maxConcurrentAgentsCount p';
             activeSessions := activeSessions p';
             waitingForAvailability := rest;
             completed := completed p';
             sessionCounter := sessionCounter p' |}
          call
    end
  else p.

Inductive Event : Type :=
  | CreateSession (call : nat)
  | CloseSession (sid : nat).

Definition step (p : Pool) (e : Event) : Pool :=
  match e with
  | CreateSession call => createSession p call
  | CloseSession sid => closeSession p sid
  end.

(** Any interleaving of calls and closes, from the empty pool. *)
Definition run (k : nat) (events : list Event) : Pool :=
  fold_left step events (new k).

End GlobalPool.

(** ** Statements of the specification, as definitions *)

Module TrackerSpec.
Import Interfaces LocationTracker.

(** Whether one 'status-change' event that finds the navigation at
    [lastStep] and takes it to [newStep] notifies the waiters of [p]: every
    status passed, a redirect only when it is where the event ends. *)
Definition notifies (lastStep newStep : nat) (p : PipelineStatus) : bool :=
  (lastStep <? getStepByStatus p)%nat
  && (getStepByStatus p <=? newStep)%nat
  && (negb (bool_decide (p = HttpRedirected))
      || (getStepByStatus p =? newStep)%nat).

Definition notified (lastStep newStep : nat) : list PipelineStatus :=
  List.filter (notifies lastStep newStep) PipelineStatus_keys.

(** The anchor of [willRunCommand] as the specification words it: a command
    marks the anchor when it is a 'goto', or when it is not a waitFor* command
    and the command before it is; the marker found last in the scan counts. *)
Definition is_marker (previous : option ICommandMeta) (command : ICommandMeta) : bool :=
  String.eqb (name command) "goto"
  || (match previous with Some l => startsWith (name l) "waitFor" | None => false end
      && negb (startsWith (name command) "waitFor")).

Fixpoint last_marker (previous : option ICommandMeta) (cmds : list ICommandMeta)
  : option Z :=
  match cmds with
  | [] => None
  | command :: rest =>
      match last_marker (Some command) rest with
      | Some anchor => Some anchor
      | None => if is_marker previous command then Some (id command) else None
      end
  end.

Definition anchor_spec (old : Z) (newCommand : ICommandMeta)
    (previousCommands : list ICommandMeta) : Z :=
  if String.eqb (name newCommand) "waitForLocation"
     && match last previousCommands with
        | Some l => startsWith (name l) "waitFor"
        | None => false
        end
  then id newCommand
  else default old (last_marker None previousCommands).

(** Modelled from the spec: [recordLifecycleEvent] of [TabNavigations]
    (missing): it "advances the [stateChanges] mapping of the top entry". *)
Definition recordStatus (n : TabNavigations) (status : PipelineStatus) (date : Z)
  : TabNavigations :=
  match last (history n) with
  | None => n
  | Some nav =>
      {| history :=
           removelast (history n)
           ++ [ {| navigationReason := navigationReason nav;
                   startCommandId := startCommandId nav;
                   initiatedTime := initiatedTime nav;
                   stateChanges := Map_set status date (stateChanges nav) |} ] |}
  end.



(** Modelled from the spec: one update batch of [TabNavigations] (missing):
    several lifecycle events of the current navigation that are announced by
    one 'status-change' notification, the one of the last status of the
    batch ("only the final status in a contiguous update is announced, but
    all are recorded"; "all intervening steps are still recorded in state").
    As in [deliver], the handler runs while the entry still holds the step
    reached before the batch, and every status of the batch is recorded with
    its date, a status met twice keeping the later one. *)
Definition record_all (n : TabNavigations) (batch : list (PipelineStatus * Z))
  : TabNavigations :=
  fold_left (fun n ev => recordStatus n ev.1 ev.2) batch n.

Definition deliver_batch (t : LocationTracker) (batch : list (PipelineStatus * Z))
  : option (LocationTracker * list Resolver) :=
  match last batch with
  | None => Some (t, [])
  | Some final =>
      '(t', called) ← onPipelineStatusChange t final.1;
      Some ({| defaultWaitForLocationCommandId := defaultWaitForLocationCommandId t';
               navigations := record_all (navigations t') batch;
               waitForCbs := waitForCbs t';
               promises := promises t' |},
            called)
  end.

(** The number of calls of resolver [r] in a log of calls. *)
Definition calls (r : Resolver) (called : list Resolver) : nat :=
  length (filter (fun x => x = r) called).

(** The example of the specification: HttpRequested, HttpRedirected (twice)
    and HttpResponded reach the tracker as one event, with one waiter queued
    for each of the three statuses: the waiters of HttpRequested and
    HttpResponded are called, the one of HttpRedirected is not. *)
Definition tracker_before_redirects : LocationTracker :=
  {| defaultWaitForLocationCommandId := 0;
     navigations :=
       {| history := [ {| navigationReason := "goto"; startCommandId := 1;
                          initiatedTime := 10;
                          stateChanges := [(NavigationRequested, 10)] |} ] |};
     waitForCbs := fun s =>
       match s with
       | Pipeline HttpRequested => [0%nat]
       | Pipeline HttpRedirected => [1%nat]
       | Pipeline HttpResponded => [2%nat]
       | _ => []
       end;
     promises := 3 |}.

(** The reload family of navigation reasons. *)
Definition reload_reason (reason : string) : Prop :=
  reason = "httpHeaderRefresh" \/ reason = "metaTagRefresh" \/ reason = "reload".

(** A tracker whose only navigation is a reload started by command 3, with
    one waiter queued for each trigger. *)
Definition tracker_after_reload : LocationTracker :=
  {| defaultWaitForLocationCommandId := 2;
     navigations :=
       {| history := [ {| navigationReason := "reload"; startCommandId := 3;
                          initiatedTime := 30; stateChanges := [] |} ] |};
     waitForCbs := fun s =>
       match s with
       | Trigger reload => [0%nat]
       | Trigger change => [1%nat]
       | _ => []
       end;
     promises := 2 |}.

(** A navigation that has reached HttpRequested, and nobody waiting. *)
Definition tracker_at_HttpRequested : LocationTracker :=
  LocationTracker.new
    {| history := [ {| navigationReason := "goto"; startCommandId := 1;
                       initiatedTime := 10;
                       stateChanges := [(NavigationRequested, 10);
                                        (HttpRequested, 11)] |} ] |}.

End TrackerSpec.

Module SessionSpec.
Import Interfaces SessionState.

(** A session with one command object, not yet run, and a wrapped function
    that throws. *)
Definition session_with_command : SessionState :=
  {| sessionId := "s1";
     heap := {[ 0%nat := {| id := 7; name := "goto"; startDate := None;
                             endDate := None; result := None;
                             resultType := None |} ]};
     commands := [];
     createDate := 0;
     navigationsByTabId := [];
     db := {| db_commands := ∅; db_websocketMessages := [];
              db_sessionLogs := [] |};
     websocketMessages := [];
     websocketListeners := ∅;
     browserRequestIdToResources := ∅;
     lastErrorTime := None;
     closeDate := None;
     websocketMessageIdCounter := 0;
     delivered := [];
     errorsLogged := [] |}.

Definition throwing_command (s : SessionState) : SessionState * Settled :=
  (s, Rejected "Error: net::ERR_FAILED").

(** The captured messages of a resource, in capture order. *)
Definition messages_of (r : Z) (msgs : list IWebsocketResourceMessage)
  : list IWebsocketResourceMessage :=
  filter (fun m => resourceId m = r) msgs.

(** The calls of listener [l] in a log of deliveries, in order. *)
Definition delivered_to (l : Listener)
    (log : list (Listener * IWebsocketResourceMessage))
  : list IWebsocketResourceMessage :=
  (filter (fun d => d.1 = l) log).*2.

(** The listeners a new message is handed to, in order. *)
Definition fan_out (listeners : gmap Z (list Listener)) (m : IWebsocketResourceMessage)
  : list (Listener * IWebsocketResourceMessage) :=
  map (fun l => (l, m)) (default [] (listeners !! resourceId m)).

(** A sequence of websocket frames captured one after the other. *)
Definition capture_all (s : SessionState) (events : list WebsocketEvent) : SessionState :=
  fold_left (fun s e => (captureWebsocketMessage s e).1) events s.

(** A session in which two frames of resource 5 and one of resource 6 have
    been captured, nobody listening. *)
Definition session_with_frames : SessionState :=
  {| sessionId := "s1"; heap := ∅; commands := []; createDate := 0;
     navigationsByTabId := [];
     db := {| db_commands := ∅; db_websocketMessages := [];
              db_sessionLogs := [] |};
     websocketMessages :=
       [ {| resourceId := 5; message := "a"; messageId := 1; source := "server" |};
         {| resourceId := 6; message := "b"; messageId := 2; source := "server" |};
         {| resourceId := 5; message := "c"; messageId := 3; source := "client" |} ];
     websocketListeners := ∅;
     browserRequestIdToResources := {[ "req-5" := [(5, "ws://host/")] ]};
     lastErrorTime := None; closeDate := None;
     websocketMessageIdCounter := 3;
     delivered := []; errorsLogged := [] |}.

(** A command that has ended and whose result type does not mention an
    error. *)
Definition completed_without_error (c : ICommandMeta) (ended : Z) : Prop :=
  endDate c = Some ended
  /\ forall rt, resultType c = Some rt -> includes rt "Error" = false.

(** The time of a tab's current navigation that [checkForResponsive] counts
    as a success: AllContentLoaded when recorded, else the time the
    navigation was initiated. *)
Definition lastPageTime (nav : INavigation) : Z :=
  match Map_get AllContentLoaded (stateChanges nav) with
  | Some t => t
  | None => initiatedTime nav
  end.

(** Tab "1" loaded a page at 10; an error was logged at 20; at 30 the tab
    started a navigation that has not loaded yet.  No command has run. *)
Definition session_navigating_after_error : SessionState :=
  {| sessionId := "s1"; heap := ∅; commands := []; createDate := 0;
     navigationsByTabId :=
       [("1",
         {| history :=
              [ {| navigationReason := "goto"; startCommandId := 1;
                   initiatedTime := 5;
                   stateChanges := [(HttpResponded, 8); (DomContentLoaded, 9);
                                    (AllContentLoaded, 10)] |};
                {| navigationReason := "goto"; startCommandId := 2;
                   initiatedTime := 30;
                   stateChanges := [] |} ] |})];
     db := {| db_commands := ∅; db_websocketMessages := [];
              db_sessionLogs := [] |};
     websocketMessages := [];
     websocketListeners := ∅;
     browserRequestIdToResources := ∅;
     lastErrorTime := Some 20;
     closeDate := None;
     websocketMessageIdCounter := 0;
     delivered := [];
     errorsLogged := [] |}.

(** The session of the specification's example: a page loaded at 10, a
    command that completed at 12, an error at 20, nothing since. *)
Definition session_stuck_after_error : SessionState :=
  {| sessionId := "s1";
     heap := {[ 0%nat := {| id := 1; name := "goto"; startDate := Some 4;
                             endDate := Some 12; result := Some "ok";
                             resultType := Some "Object" |} ]};
     commands := [0%nat];
     createDate := 0;
     navigationsByTabId :=
       [("1",
         {| history :=
              [ {| navigationReason := "goto"; startCommandId := 1;
                   initiatedTime := 5;
                   stateChanges := [(HttpResponded, 8); (DomContentLoaded, 9);
                                    (AllContentLoaded, 10)] |} ] |})];
     db := {| db_commands := ∅; db_websocketMessages := [];
              db_sessionLogs := [] |};
     websocketMessages := [];
     websocketListeners := ∅;
     browserRequestIdToResources := ∅;
     lastErrorTime := Some 20;
     closeDate := None;
     websocketMessageIdCounter := 0;
     delivered := [];
     errorsLogged := [] |}.

End SessionSpec.

Module DispatchSpec.
Import CoreServerConnection.

Section Spec.

Variable World : Type.
Variable this_property : string -> option (Property World).
Variable Session_getTab : Connection World -> option ISessionMeta -> GetTab World.

(** The connection after it has emitted one more 'message'. *)
Definition emit_message (c : Connection World) (response : ICoreResponsePayload)
  : Connection World :=
  {| isClosing := isClosing World c;
     isPersistent := isPersistent World c;
     sessionIds := sessionIds World c;
     emitted := emitted World c ++ [EmitMessage response];
     world := world World c |}.

(** The arguments a connection-level method is called with. *)
Definition method_arguments (payload : ICoreRequestPayload) : list Arg :=
  match meta payload with
  | Some m => ArgMeta m :: map ArgValue (args payload)
  | None => map ArgValue (args payload)
  end.

(** The command of a request is found and is a function: a method of the
    connection, called with the meta first when there is one, or else a
    function of the addressed tab. *)
Definition dispatched (c : Connection World) (payload : ICoreRequestPayload)
    (f : Connection World -> list Arg -> Connection World * Settled)
    (arguments : list Arg) : Prop :=
  (this_property (command payload) = Some (Function World f)
   /\ arguments = method_arguments payload)
  \/ (this_property (command payload) = None
      /\ exists tab,
           Session_getTab c (meta payload) = GetTabReturned World (Some tab)
           /\ tab (command payload) = Some (Function World f)
           /\ arguments = map ArgValue (args payload)).

(** The payload the specification describes for a thrown [Error]: its
    message, its stack and its own fields, a field of the error named like
    one of the two taking its place. *)
Definition structured_payload (e : Error) (o : Obj) : Prop :=
  forall k,
    Obj_get k o
    = match Obj_get k (error_own e) with
      | Some v => Some v
      | None =>
          Obj_get k [("message", error_message e); ("stack", error_stack e)]
      end.

End Spec.

(** A connection whose only method, 'configure', throws an error with one
    own field, and whose tabs have no function at all. *)
Definition failing_error : Error :=
  {| error_message := "Session not found";
     error_stack := "Error: Session not found";
     error_own := [("code", "ERR_NO_SESSION")] |}.

Definition example_property (command0 : string) : option (Property unit) :=
  if String.eqb command0 "configure"
  then Some (Function unit (fun c _ => (c, Rejected (ThrownError failing_error))))
  else None.

Definition example_getTab (c : Connection unit) (m : option ISessionMeta)
  : GetTab unit :=
  GetTabReturned unit (Some (fun _ => None)).

Definition example_lastCommandId (c : Connection unit) (sid : string) : option Z :=
  Some 4.

Definition open_connection : Connection unit :=
  {| isClosing := false; isPersistent := false; sessionIds := ["s1"];
     emitted := []; world := tt |}.

Definition unknown_request : ICoreRequestPayload :=
  {| messageId := "m1"; command := "fly";
     meta := Some {| meta_sessionId := Some "s1"; meta_tabId := Some "1" |};
     args := [] |}.

Definition throwing_request : ICoreRequestPayload :=
  {| messageId := "m2"; command := "configure";
     meta := Some {| meta_sessionId := Some "s1"; meta_tabId := Some "1" |};
     args := ["{}"] |}.

End DispatchSpec.

Module PoolSpec.
Import GlobalPool.

(** What every pool reached from the empty one satisfies: no more open
    sessions than slots, distinct session ids, none above the counter, and
    nobody waiting while a slot is free. *)
Definition pool_ok (p : Pool) : Prop :=
  (length (activeSessions p) <= maxConcurrentAgentsCount p)%nat
  /\ NoDup (activeSessions p)
  /\ (forall sid, sid ∈ activeSessions p -> (sid <= sessionCounter p)%nat)
  /\ (waitingForAvailability p ≠ [] ->
      length (activeSessions p) = maxConcurrentAgentsCount p).

(** A call has been given a session. *)
Definition resolved (p : Pool) (call : nat) : Prop :=
  exists sid, (call, sid) ∈ completed p.

End PoolSpec.

(** ** Runs of the location tracker *)

Module TrackerRun.
Import Interfaces LocationTracker.

(** What happens to a tracker in its life: a call of one of its public
    methods, one of the two events of its navigations, or a change that the
    owner of the navigations makes to them. *)
Inductive Op : Type :=
  | OpWaitFor (status : string) (sinceCommandId : option Z)
              (inclusiveOfCommandId : option bool)
  | OpWillRunCommand (newCommand : ICommandMeta) (previousCommands : list ICommandMeta)
  | OpNavigationRequested (lifecycle : INavigation)
  | OpStatusChange (newStatus : PipelineStatus)
  | OpNavigations (navigations : TabNavigations).

(** One operation: the tracker after it and the resolvers it called, in
    order; [None] when a handler throws. *)
Definition step (t : LocationTracker) (op : Op)
  : option (LocationTracker * list Resolver) :=
  match op with
  | OpWaitFor status sinceCommandId inclusiveOfCommandId =>
      Some ((waitFor t status sinceCommandId inclusiveOfCommandId).1, [])
  | OpWillRunCommand newCommand previousCommands =>
      Some (willRunCommand t newCommand previousCommands, [])
  | OpNavigationRequested lifecycle => Some (onNavigation t lifecycle)
  | OpStatusChange newStatus => onPipelineStatusChange t newStatus
  | OpNavigations n =>
      Some ({| defaultWaitForLocationCommandId := defaultWaitForLocationCommandId t;
               navigations := n;
               waitForCbs := waitForCbs t;
               promises := promises t |}, [])
  end.

Fixpoint run (t : LocationTracker) (ops : list Op)
  : option (LocationTracker * list Resolver) :=
  match ops with
  | [] => Some (t, [])
  | op :: rest =>
      '(t1, called1) ← step t op;
      '(t2, called2) ← run t1 rest;
      Some (t2, called1 ++ called2)
  end.

(** A sequence of 'navigation-requested' events. *)
Fixpoint navigate_all (t : LocationTracker) (requests : list INavigation)
  : LocationTracker * list Resolver :=
  match requests with
  | [] => (t, [])
  | lifecycle :: rest =>
      let '(t1, called1) := onNavigation t lifecycle in
      let '(t2, called2) := navigate_all t1 rest in
      (t2, called1 ++ called2)
  end.

(** Every resolver waiting in the tracker, queue by queue. *)
Definition all_waiting (t : LocationTracker) : list Resolver :=
  concat (map (waitForCbs t) LocationStatus_members).

(** Whether a navigation is one of trigger [g]. *)
Definition has_trigger (g : LocationTrigger) (nav : INavigation) : bool :=
  bool_decide (getTriggerForNavigationReason (navigationReason nav) = Some g).

(** Whether a navigation started at or after an anchor (after it, when the
    anchor is not included). *)
Definition since_command (anchor : Z) (inclusive : bool) (nav : INavigation) : Prop :=
  if inclusive then anchor <= startCommandId nav else anchor < startCommandId nav.

(** What holds of a tracker and of the resolvers called so far, from its
    construction on: no resolver is both called and waiting or is there
    twice, and all of them are promises already created. *)
Definition tracker_ok (t : LocationTracker) (called : list Resolver) : Prop :=
  NoDup (called ++ all_waiting t)
  /\ forall r, r ∈ called ++ all_waiting t -> (r < promises t)%nat.

End TrackerRun.

(** ** Runs of the session state recorder *)

Module SessionRun.
Import Interfaces SessionState SessionSpec.

(** Whether [onLogEvent] takes an entry: it is of this session or of none. *)
Definition taken (s : SessionState) (entry : ILogEntry) : bool :=
  bool_decide (entry_sessionId entry = Some (sessionId s))
  || bool_decide (entry_sessionId entry = None)
  || bool_decide (entry_sessionId entry = Some "").

(** A sequence of log events. *)
Definition log_all (s : SessionState) (entries : list ILogEntry) : SessionState :=
  fold_left onLogEvent entries s.

(** The current navigation of a tab has reached AllContentLoaded. *)
Definition tab_loaded (navigation : TabNavigations) : Prop :=
  exists nav t,
    top navigation = Some nav
    /\ Map_get AllContentLoaded (stateChanges nav) = Some t.

(** Some tab of the session is loaded. *)
Definition some_tab_loaded (s : SessionState) : Prop :=
  exists tab navigation,
    (tab, navigation) ∈ navigationsByTabId s /\ tab_loaded navigation.

(** The times [checkForResponsive] chooses the last success among: the
    creation of the session, the last page time of a tab, and, when some tab
    is loaded, the end of a command completed without error. *)
Definition success_time (s : SessionState) (x : Z) : Prop :=
  x = createDate s
  \/ (exists tab navigation nav,
        (tab, navigation) ∈ navigationsByTabId s
        /\ top navigation = Some nav /\ x = lastPageTime nav)
  \/ (some_tab_loaded s
      /\ exists c, c ∈ command_objects s /\ completed_without_error c x).

(** The resources a websocket frame of a browser request can belong to. *)
Definition chain (s : SessionState) (browserRequestId0 : string) : list (Z * string) :=
  default [] (browserRequestIdToResources s !! browserRequestId0).

(** The frames of a sequence that are captured: those of a browser request
    with a resource. *)
Definition registered_events (s : SessionState) (events : list WebsocketEvent)
  : list WebsocketEvent :=
  List.filter
    (fun e => match last (chain s (browserRequestId e)) with
              | Some _ => true | None => false end)
    events.

(** The messages captured so far are numbered in increasing order, none
    above the counter, and the table of messages holds them in that order. *)
Definition messages_ok (s : SessionState) : Prop :=
  (forall m, m ∈ websocketMessages s -> (messageId m <= websocketMessageIdCounter s)%nat)
  /\ (forall i j mi mj,
        websocketMessages s !! i = Some mi -> websocketMessages s !! j = Some mj ->
        (i < j)%nat -> (messageId mi < messageId mj)%nat)
  /\ (db_websocketMessages (db s)).*2 = websocketMessages s.

(** A new session: one command object, not yet run, one websocket resource
    known, nothing captured. *)
Definition session_new : SessionState :=
  {| sessionId := "s1";
     heap := {[ 0%nat := {| id := 7; name := "goto"; startDate := None;
                             endDate := None; result := None;
                             resultType := None |} ]};
     commands := [];
     createDate := 0;
     navigationsByTabId := [];
     db := {| db_commands := ∅; db_websocketMessages := [];
              db_sessionLogs := [] |};
     websocketMessages := [];
     websocketListeners := ∅;
     browserRequestIdToResources := {[ "req-5" := [(4, "http://host/"); (5, "ws://host/")] ]};
     lastErrorTime := None;
     closeDate := None;
     websocketMessageIdCounter := 0;
     delivered := [];
     errorsLogged := [] |}.

End SessionRun.

(** ** session-state/index.ts: resources and page events *)

Module Recorder.
Import Interfaces SessionState.

(** The fields of a request and of a response that the recorder reads. *)
Record IRequest : Type := mkHttpRequest {
  request_url : string;
  method : string;
  postData : option string;
}.

Record IResponse : Type := mkHttpResponse {
  response_url : option string;
  statusCode : option Z;
}.


Record IResourceMeta : Type := mkResource {
  res_id : Z;
  res_tabId : string;
  res_url : string;
  receivedAtCommandId : option Z;
  res_type : string;
  isRedirect : bool;
  res_request : IRequest;
  res_response : option IResponse;
}.



(** A page event as [onPageEvents] sees it: the command id in its first
    cell, [-1] standing for a command not known yet, and the other cells. *)
Definition PageEvent : Type := (Z * string)%type.

(** Modelled from the spec: the rows of the tables of [SessionDb] (missing)
    for resources and page events, "an insert-oriented table API per entity
    kind": each table is the list of the rows inserted, oldest first. *)
Record ResourceRow : Type := mkResourceRow {
  row_tabId : string;
  row_resource : IResourceMeta;
  row_body : option string;
  row_error : option string;
}.

(** The session state with the fields and tables that the capture of
    resources and of page events uses. *)
Record Recorder : Type := mkRecorder {
  session : SessionState;
  resources : list IResourceMeta;
  db_resources : list ResourceRow;
  db_domChanges : list (string * string * PageEvent);
  db_mouseEvents : list (string * PageEvent);
  db_focusEvents : list (string * PageEvent);
  db_scrollEvents : list (string * PageEvent);
}.



(** [this.navigationsByTabId[tabId]], read and written. *)
Fixpoint tab_lookup (tabs : list (string * TabNavigations)) (tabId : string)
  : option TabNavigations :=
  match tabs with
  | [] => None
  | (k, n) :: rest => if String.eqb k tabId then Some n else tab_lookup rest tabId
  end.



Section Navigations.

(** [TabNavigations.currentUrl] and [TabNavigations.resourceLoadedForLocation]
    (session-state/lib, missing): the url of the current navigation, and the
    navigations after they were told that the resource of the current
    location has loaded, with its status code or the error. *)
Variable currentUrl : TabNavigations -> string.
Variable resourceLoadedForLocation :
  TabNavigations -> Z -> option Z -> option string -> TabNavigations.




End Navigations.



(** [page.stateChanges.has(LocationStatus.HttpResponded)]. *)
Definition has_HttpResponded (page : INavigation) : bool :=
  match Map_get HttpResponded (stateChanges page) with
  | Some _ => true
  | None => false
  end.

(** [if (event[0] === -1) event[0] = startCommandId]. *)
Definition fill_command (startCommandId0 : Z) (event : PageEvent) : PageEvent :=
  if event.1 =? -1 then (startCommandId0, event.2) else event.

(** The command that the page events without one are given: the greatest
    command id of the dom changes, from [-1], unless a page of the history
    has responded: then the start command of the last such page. *)
Definition page_events_command (navigations0 : TabNavigations)
    (domChanges : list PageEvent) : Z :=
  let startCommandId0 :=
    fold_left (fun max change => if change.1 <? max then max else change.1)
      domChanges (-1) in
  match List.find has_HttpResponded (rev (history navigations0)) with
  | Some page => startCommandId page
  | None => startCommandId0
  end.

(** How a call ends: it returns, or it throws a [TypeError]. *)
Inductive Completion : Type :=
  | Returns
  | ThrowsTypeError.

(** [onPageEvents]; [now] is the clock, which dates the entry the logger
    makes first.  The [TypeError] is the one of reading the history of a tab
    that is not registered. *)
Definition onPageEvents (r : Recorder) (tabId frameId : string)
    (domChanges mouseEvents focusEvents scrollEvents : list PageEvent) (now : Z)
  : Recorder * Completion :=
  let s := logger_log (session r) "stats" "State.onPageEvents" now in
  match tab_lookup (navigationsByTabId s) tabId with
  | None =>
      ({| session := s;
          resources := resources r;
          db_resources := db_resources r;
          db_domChanges := db_domChanges r;
          db_mouseEvents := db_mouseEvents r;
          db_focusEvents := db_focusEvents r;
          db_scrollEvents := db_scrollEvents r |},
       ThrowsTypeError)
  | Some navigations0 =>
      let startCommandId0 := page_events_command navigations0 domChanges in
      ({| session := s;
          resources := resources r;
          db_resources := db_resources r;
          db_domChanges :=
            db_domChanges r
            ++ map (fun e => (tabId, frameId, fill_command startCommandId0 e))
                 domChanges;
          db_mouseEvents :=
            db_mouseEvents r
            ++ map (fun e => (tabId, fill_command startCommandId0 e)) mouseEvents;
          db_focusEvents :=
            db_focusEvents r
            ++ map (fun e => (tabId, fill_command startCommandId0 e)) focusEvents;
          db_scrollEvents :=
            db_scrollEvents r
            ++ map (fun e => (tabId, fill_command startCommandId0 e)) scrollEvents |},
       Returns)
  end.



End Recorder.

(** ** Theorems: the location tracker *)

Import Interfaces.

Section TrackerFacts.
Import LocationTracker TrackerSpec.

Lemma runWaitForCbs_loop_spec (cbs called : list Resolver) :
  runWaitForCbs_loop cbs called = ([], called ++ cbs).
Proof.
  revert called; induction cbs as [|r cbs IH]; intros called; simpl.
  - by rewrite app_nil_r.
  - by rewrite IH, <- app_assoc.
Qed.

Lemma runWaitForCbs_spec (t : LocationTracker) (status : ILocationStatus) :
  runWaitForCbs t status = (set_waitForCbs t status [], waitForCbs t status).
Proof. unfold runWaitForCbs. by rewrite runWaitForCbs_loop_spec. Qed.

(** The step of a navigation is the largest step among its recorded keys. *)
Lemma getPipelineStatus_fold (keys : list PipelineStatus) (m : nat) :
  fold_left
    (fun maxStep status =>
       let step := getStepByStatus status in
       if (maxStep <? step)%nat then step else maxStep) keys m
  = foldr (fun status acc => Nat.max (getStepByStatus status) acc) m keys.
Proof.
  revert m; induction keys as [|k keys IH]; intros m; simpl; [done|].
  rewrite IH. clear IH.
  assert (Hmax : forall a b, foldr (fun status acc => Nat.max (getStepByStatus status) acc)
                        (Nat.max a b) keys
                 = Nat.max a (foldr (fun status acc => Nat.max (getStepByStatus status) acc)
                                b keys)).
  { induction keys as [|k' keys IH]; intros a b; simpl; [done|]. rewrite IH. lia. }
  destruct (Nat.ltb_spec m (getStepByStatus k)).
  - replace (getStepByStatus k) with (Nat.max (getStepByStatus k) m) at 1 by lia.
    apply Hmax.
  - replace m with (Nat.max (getStepByStatus k) m) at 1 by lia.
    apply Hmax.
Qed.

Lemma getStepByStatus_le_5 (p : PipelineStatus) : (getStepByStatus p <= 5)%nat.
Proof. destruct p; simpl; lia. Qed.

Lemma getPipelineStatus_le_5 (page : INavigation) : (getPipelineStatus page <= 5)%nat.
Proof.
  unfold getPipelineStatus. rewrite getPipelineStatus_fold.
  induction (Map_keys (stateChanges page)) as [|k keys IH]; simpl; [lia|].
  pose proof (getStepByStatus_le_5 k). lia.
Qed.

Lemma currentStep_le_5 (t : LocationTracker) : (currentStep t <= 5)%nat.
Proof.
  unfold currentStep. destruct (top (navigations t)); [|lia].
  apply getPipelineStatus_le_5.
Qed.

Lemma max_step_Map_set (k : PipelineStatus) (v : Z) (m : list (PipelineStatus * Z)) :
  foldr (fun status acc => Nat.max (getStepByStatus status) acc) 0%nat
    (Map_keys (Map_set k v m))
  = Nat.max (getStepByStatus k)
      (foldr (fun status acc => Nat.max (getStepByStatus status) acc) 0%nat (Map_keys m)).
Proof.
  unfold Map_keys. induction m as [|[k' v'] m IH]; [done|].
  cbn [Map_set]. destruct (decide (k' = k)) as [->|Hne].
  - rewrite !fmap_cons. cbn [foldr fst]. lia.
  - rewrite !fmap_cons. cbn [foldr fst]. rewrite IH. lia.
Qed.

(** Recording a status takes a navigation to the larger of the step it had
    and the step of the status. *)
Lemma getPipelineStatus_recorded (nav : INavigation) (k : PipelineStatus) (v : Z) :
  getPipelineStatus
    {| navigationReason := navigationReason nav;
       startCommandId := startCommandId nav;
       initiatedTime := initiatedTime nav;
       stateChanges := Map_set k v (stateChanges nav) |}
  = Nat.max (getPipelineStatus nav) (getStepByStatus k).
Proof.
  unfold getPipelineStatus. rewrite !getPipelineStatus_fold. cbn [stateChanges].
  rewrite max_step_Map_set. lia.
Qed.

(** Reading a status back after [Map.prototype.set]. *)
Lemma Map_get_set (k p : PipelineStatus) (v : Z) (m : list (PipelineStatus * Z)) :
  Map_get p (Map_set k v m) = if decide (k = p) then Some v else Map_get p m.
Proof.
  induction m as [|[k' v'] m IH]; cbn.
  - done.
  - destruct (decide (k' = k)) as [->|Hne]; cbn.
    + by destruct (decide (k = p)).
    + destruct (decide (k' = p)) as [->|Hne'].
      * by rewrite decide_False.
      * done.
Qed.

End TrackerFacts.

Section StatusChange.
Import LocationTracker TrackerSpec.

(** What one 'status-change' event does, for every tracker and status: the
    handler ends normally; it calls the queued resolvers of the notified
    statuses, status by status in pipeline order and each queue from its
    head; it empties those queues and touches nothing else. *)
Lemma onPipelineStatusChange_spec (t : LocationTracker) (newStatus : PipelineStatus) :
  let s := currentStep t in
  let n := Nat.max s (getStepByStatus newStatus) in
  exists t',
    onPipelineStatusChange t newStatus
    = Some (t', concat (map (fun p => waitForCbs t (Pipeline p)) (notified s n)))
    /\ navigations t' = navigations t
    /\ defaultWaitForLocationCommandId t' = defaultWaitForLocationCommandId t
    /\ promises t' = promises t
    /\ forall st,
         waitForCbs t' st
         = match st with
           | Pipeline p => if notifies s n p then [] else waitForCbs t st
           | Trigger _ => waitForCbs t st
           end.
Proof.
  unfold onPipelineStatusChange.
  generalize (currentStep_le_5 t). generalize (currentStep t). intros s Hs.
  assert (Hcases : (s = 0 \/ s = 1 \/ s = 2 \/ s = 3 \/ s = 4 \/ s = 5)%nat) by lia.
  clear Hs. destruct_or!; subst s;
    destruct newStatus; cbn -[runWaitForCbs];
    repeat (rewrite ?runWaitForCbs_spec; cbn;
            repeat (case_bool_decide; try congruence);
            repeat (case_decide; try congruence); cbn -[runWaitForCbs]);
    rewrite <- ?app_assoc, ?app_nil_r;
    (eexists; split; [reflexivity|];
     repeat split; intros [[]|[]]; cbn;
     repeat (case_bool_decide; try congruence);
     repeat (case_decide; try congruence); reflexivity).
Qed.

End StatusChange.

Section Coalescing.
Import LocationTracker TrackerSpec.

Lemma calls_app (r : Resolver) (l1 l2 : list Resolver) :
  calls r (l1 ++ l2) = (calls r l1 + calls r l2)%nat.
Proof. unfold calls. by rewrite filter_app, length_app. Qed.

Lemma calls_not_elem (r : Resolver) (l : list Resolver) : r ∉ l -> calls r l = 0%nat.
Proof.
  unfold calls. induction l as [|x l IH]; intros Hr; [done|].
  rewrite not_elem_of_cons in Hr. destruct Hr as [Hx Hl].
  rewrite filter_cons_False by congruence. by apply IH.
Qed.

(** A resolver queued for one status only is called as often as it is
    queued there, when that status is notified, and not at all otherwise. *)
Lemma calls_concat (r : Resolver) (cbs : PipelineStatus -> list Resolver)
    (p0 : PipelineStatus) (l : list PipelineStatus) :
  (forall p, p ≠ p0 -> r ∉ cbs p) ->
  NoDup l ->
  calls r (concat (map cbs l)) = if bool_decide (p0 ∈ l) then calls r (cbs p0) else 0%nat.
Proof.
  intros Hother. induction l as [|p l IH]; intros Hnd; [done|].
  apply NoDup_cons in Hnd as [Hp Hnd]. simpl. rewrite calls_app, IH by done.
  destruct (decide (p = p0)) as [->|Hne].
  - rewrite (bool_decide_eq_true_2 (p0 ∈ p0 :: l)) by left.
    rewrite (bool_decide_eq_false_2 (p0 ∈ l)) by done. lia.
  - rewrite calls_not_elem by auto. simpl.
    destruct (decide (p0 ∈ l)).
    + rewrite (bool_decide_eq_true_2 (p0 ∈ l)) by done.
      by rewrite (bool_decide_eq_true_2 (p0 ∈ p :: l)) by (by right).
    + rewrite (bool_decide_eq_false_2 (p0 ∈ l)) by done.
      by rewrite (bool_decide_eq_false_2 (p0 ∈ p :: l))
        by (apply not_elem_of_cons; split; congruence).
Qed.

Lemma elem_of_PipelineStatus_keys (p : PipelineStatus) : p ∈ PipelineStatus_keys.
Proof. destruct p; unfold PipelineStatus_keys; repeat constructor. Qed.

Lemma elem_of_notified (s n : nat) (p : PipelineStatus) :
  p ∈ notified s n
  <-> (s < getStepByStatus p <= n)%nat
      /\ (p = HttpRedirected -> getStepByStatus p = n).
Proof.
  unfold notified. rewrite list_elem_of_In, List.filter_In, <- list_elem_of_In.
  unfold notifies. rewrite !andb_true_iff, orb_true_iff, negb_true_iff.
  rewrite Nat.ltb_lt, Nat.leb_le, Nat.eqb_eq, bool_decide_eq_false.
  split.
  - intros (_ & (Hlt & Hle) & Hred). split; [lia|]. intros ->. by destruct Hred.
  - intros ((Hlt & Hle) & Hred). split; [apply elem_of_PipelineStatus_keys|].
    split; [done|]. destruct (decide (p = HttpRedirected)); auto.
Qed.

Lemma NoDup_notified (s n : nat) : NoDup (notified s n).
Proof.
  unfold notified. apply NoDup_ListNoDup, List.NoDup_filter, NoDup_ListNoDup.
  unfold PipelineStatus_keys.
  repeat (apply NoDup_cons; split;
          [rewrite ?not_elem_of_cons; repeat split;
           (congruence || apply not_elem_of_nil)|]).
  apply NoDup_nil_2.
Qed.

(** The statuses of a batch, recorded one after the other in the current
    navigation: each is there afterwards with the date of its last update,
    what was recorded before and is not in the batch is kept, and the step
    is the largest of the step before and the steps of the batch. *)
Lemma record_all_top (batch : list (PipelineStatus * Z)) (n : TabNavigations)
    (nav : INavigation) :
  top n = Some nav ->
  exists nav2,
    top (record_all n batch) = Some nav2
    /\ (forall p,
          Map_get p (stateChanges nav2)
          = match last (List.filter (fun ev => bool_decide (ev.1 = p)) batch) with
            | Some ev => Some ev.2
            | None => Map_get p (stateChanges nav)
            end)
    /\ getPipelineStatus nav2
       = fold_left (fun m ev => Nat.max m (getStepByStatus ev.1)) batch
           (getPipelineStatus nav).
Proof.
  revert n nav. induction batch as [|ev batch IH]; intros n nav Htop.
  - exists nav. by split.
  - cbn [record_all fold_left].
    assert (Htop1 : top (recordStatus n ev.1 ev.2)
                    = Some {| navigationReason := navigationReason nav;
                              startCommandId := startCommandId nav;
                              initiatedTime := initiatedTime nav;
                              stateChanges := Map_set ev.1 ev.2 (stateChanges nav) |}).
    { unfold top, recordStatus in *. rewrite Htop. cbn. by rewrite last_snoc. }
    destruct (IH _ _ Htop1) as (nav2 & Htop2 & Hget & Hstep).
    exists nav2. split; [exact Htop2|]. split.
    + intros p. rewrite Hget. cbn [stateChanges List.filter].
      rewrite Map_get_set. case_bool_decide as Hp.
      * rewrite decide_True by done.
        generalize (List.filter (fun ev0 : PipelineStatus * Z =>
                                   bool_decide (ev0.1 = p)) batch).
        intros l. rewrite last_cons. by destruct (last l).
      * by rewrite decide_False.
    + by rewrite Hstep, getPipelineStatus_recorded.
Qed.

Lemma fold_max_step (batch : list (PipelineStatus * Z)) (m n : nat) :
  (m <= n)%nat ->
  (forall ev, ev ∈ batch -> (getStepByStatus ev.1 <= n)%nat) ->
  (exists d ev, last batch = Some ev /\ getStepByStatus ev.1 = n /\ ev.2 = d) ->
  fold_left (fun m ev => Nat.max m (getStepByStatus ev.1)) batch m = n.
Proof.
  revert m. induction batch as [|ev batch IH]; intros m Hm Hall Hlast.
  - by destruct Hlast as (? & ? & [=] & _).
  - cbn [fold_left]. destruct batch as [|ev' batch].
    + destruct Hlast as (d & ev0 & [= <-] & Hn & _). cbn. lia.
    + apply IH.
      * specialize (Hall ev (list_elem_of_here _ _)). lia.
      * intros e He. apply Hall. by apply list_elem_of_further.
      * destruct Hlast as (d & ev0 & Hl & Hn & Hd). exists d, ev0.
        split; [|done]. by rewrite last_cons_cons in Hl.
Qed.

(** C2.  One 'status-change' event that takes the current navigation from
    step [s] to the step [n > s] of [newStatus] ends normally and calls
    exactly the resolvers queued for the statuses of steps [s+1 .. n], in
    pipeline order and each queue from its head, leaving out HttpRedirected
    unless it is [newStatus] itself; those queues are emptied, every other
    queue is kept; a resolver queued once, for [newStatus] only, is called
    exactly once; the navigations, with every recorded state change, are not
    touched.  And for every batch of updates that ends with [newStatus] and
    is announced by that one event: the calls and the queues are those of
    the event, and afterwards every status of the batch, the redirects that
    woke nobody among them, is recorded in the current navigation with the
    date of its last update, every status recorded before is still recorded,
    and the navigation is at step [n] when no status of the batch is past
    [newStatus]. *)
Theorem status_change_coalesces_redirects
    (t : LocationTracker) (newStatus : PipelineStatus) :
  (currentStep t < getStepByStatus newStatus)%nat ->
  let s := currentStep t in
  let n := getStepByStatus newStatus in
  exists t' called,
    onPipelineStatusChange t newStatus = Some (t', called)
    /\ called = concat (map (fun p => waitForCbs t (Pipeline p)) (notified s n))
    /\ (forall p, p ∈ notified s n
                  <-> (s < getStepByStatus p <= n)%nat
                      /\ (p = HttpRedirected -> newStatus = HttpRedirected))
    /\ (forall p, waitForCbs t' (Pipeline p)
                  = if bool_decide (p ∈ notified s n) then []
                    else waitForCbs t (Pipeline p))
    /\ (forall g, waitForCbs t' (Trigger g) = waitForCbs t (Trigger g))
    /\ (forall r, calls r (waitForCbs t (Pipeline newStatus)) = 1%nat ->
                  (forall p, p ≠ newStatus -> r ∉ waitForCbs t (Pipeline p)) ->
                  calls r called = 1%nat)
    /\ navigations t' = navigations t
    /\ (forall batch date,
          last batch = Some (newStatus, date) ->
          exists t2,
            deliver_batch t batch = Some (t2, called)
            /\ waitForCbs t2 = waitForCbs t'
            /\ forall nav,
                 top (navigations t) = Some nav ->
                 exists nav2,
                   top (navigations t2) = Some nav2
                   /\ (forall ev, ev ∈ batch ->
                                  is_Some (Map_get ev.1 (stateChanges nav2)))
                   /\ (forall p,
                         Map_get p (stateChanges nav2)
                         = match last (List.filter
                                         (fun ev => bool_decide (ev.1 = p)) batch) with
                           | Some ev => Some ev.2
                           | None => Map_get p (stateChanges nav)
                           end)
                   /\ ((forall ev, ev ∈ batch -> (getStepByStatus ev.1 <= n)%nat) ->
                       currentStep t2 = n)).
Proof.
  intros Hlt s n.
  destruct (onPipelineStatusChange_spec t newStatus)
    as (t' & Hrun & Hnav & _ & _ & Hcbs).
  replace (Nat.max (currentStep t) (getStepByStatus newStatus)) with n in * by lia.
  fold s in Hrun, Hcbs.
  assert (Hmem : forall p, p ∈ notified s n
                  <-> (s < getStepByStatus p <= n)%nat
                      /\ (p = HttpRedirected -> newStatus = HttpRedirected)).
  { intros p. rewrite elem_of_notified. split; intros [Hr Hred]; (split; [done|]).
    - intros ->. specialize (Hred eq_refl). subst n.
      destruct newStatus; simpl in Hred; congruence.
    - intros ->. subst n. by rewrite (Hred eq_refl). }
  exists t', (concat (map (fun p => waitForCbs t (Pipeline p)) (notified s n))).
  split; [done|]. split; [done|]. split; [exact Hmem|].
  split.
  { intros p. rewrite (Hcbs (Pipeline p)).
    destruct (notifies s n p) eqn:Hn.
    - rewrite bool_decide_eq_true_2; [done|].
      unfold notified. rewrite list_elem_of_In, List.filter_In, <- list_elem_of_In.
      split; [apply elem_of_PipelineStatus_keys | done].
    - rewrite bool_decide_eq_false_2; [done|].
      unfold notified. rewrite list_elem_of_In, List.filter_In. intros [_ ?]. congruence. }
  split; [intros g; apply (Hcbs (Trigger g))|].
  split.
  { intros r Hone Hother.
    rewrite (calls_concat r (fun p => waitForCbs t (Pipeline p)) newStatus)
      by (done || apply NoDup_notified).
    rewrite bool_decide_eq_true_2; [done|].
    apply Hmem. split; [subst s n; lia | done]. }
  split; [done|].
  intros batch date Hlast. unfold deliver_batch. rewrite Hlast. cbn [fst].
  rewrite Hrun. cbn. eexists. split; [reflexivity|]. cbn. split; [done|].
  intros nav Htop. rewrite Hnav.
  destruct (record_all_top batch (navigations t) nav Htop)
    as (nav2 & Htop2 & Hget & Hstep).
  exists nav2. split; [exact Htop2|]. split; [|split; [exact Hget|]].
  - intros ev Hev. rewrite Hget.
    assert (Hin : ev ∈ List.filter (fun ev0 => bool_decide (ev0.1 = ev.1)) batch).
    { apply list_elem_of_In, List.filter_In. split; [by apply list_elem_of_In|].
      by apply bool_decide_eq_true_2. }
    destruct (last (List.filter (fun ev0 => bool_decide (ev0.1 = ev.1)) batch))
      as [x|] eqn:Hl; [by eexists|].
    apply last_None in Hl. rewrite Hl in Hin. by apply elem_of_nil in Hin.
  - intros Hall. unfold currentStep. cbn [navigations]. rewrite Htop2, Hstep.
    apply fold_max_step.
    + subst s n. unfold currentStep in Hlt. rewrite Htop in Hlt. lia.
    + exact Hall.
    + by exists date, (newStatus, date).
Qed.

Lemma status_change_coalesces_redirects_witness :
  exists t' t2 nav2,
    onPipelineStatusChange tracker_before_redirects HttpResponded
    = Some (t', [0%nat; 2%nat])
    /\ waitForCbs t' (Pipeline HttpRedirected) = [1%nat]
    /\ waitForCbs t' (Pipeline HttpResponded) = []
    /\ navigations t' = navigations tracker_before_redirects
    /\ deliver_batch tracker_before_redirects
         [(HttpRequested, 11); (HttpRedirected, 12); (HttpRedirected, 13);
          (HttpResponded, 14)]
       = Some (t2, [0%nat; 2%nat])
    /\ top (navigations t2) = Some nav2
    /\ Map_get NavigationRequested (stateChanges nav2) = Some 10
    /\ Map_get HttpRequested (stateChanges nav2) = Some 11
    /\ Map_get HttpRedirected (stateChanges nav2) = Some 13
    /\ Map_get HttpResponded (stateChanges nav2) = Some 14
    /\ currentStep t2 = 3%nat.
Proof.
  destruct (status_change_coalesces_redirects tracker_before_redirects HttpResponded)
    as (t' & called & Hrun & Hcalled & _ & Hcbs & _ & _ & Hnav & Hbatch).
  { vm_compute. lia. }
  destruct (Hbatch [(HttpRequested, 11); (HttpRedirected, 12); (HttpRedirected, 13);
                    (HttpResponded, 14)] 14 eq_refl)
    as (t2 & Hrun2 & _ & Hrec).
  destruct (Hrec _ eq_refl) as (nav2 & Htop2 & _ & Hget & Hstep).
  exists t', t2, nav2. subst called. split; [exact Hrun|].
  split; [exact (Hcbs HttpRedirected)|].
  split; [exact (Hcbs HttpResponded)|]. split; [exact Hnav|].
  split; [exact Hrun2|]. split; [exact Htop2|].
  split; [exact (Hget NavigationRequested)|].
  split; [exact (Hget HttpRequested)|].
  split; [exact (Hget HttpRedirected)|].
  split; [exact (Hget HttpResponded)|].
  apply Hstep. intros ev Hev.
  repeat (apply elem_of_cons in Hev as [->|Hev]; [vm_compute; lia|]).
  by apply elem_of_nil in Hev.
Defined.

End Coalescing.

Section Anchor.
Import LocationTracker TrackerSpec.

Lemma willRunCommand_round_marker (anchor : Z) (l : option ICommandMeta)
    (command : ICommandMeta) :
  willRunCommand_round (anchor, l) command
  = (if is_marker l command then id command else anchor, Some command).
Proof.
  unfold willRunCommand_round, is_marker.
  destruct (String.eqb (name command) "goto"); simpl;
    by destruct (match l with Some l0 => startsWith (name l0) "waitFor" | None => false end
                 && negb (startsWith (name command) "waitFor")).
Qed.

Lemma willRunCommand_loop (cmds : list ICommandMeta) (anchor : Z)
    (l : option ICommandMeta) :
  fold_left willRunCommand_round cmds (anchor, l)
  = (default anchor (last_marker l cmds),
     match last cmds with Some c => Some c | None => l end).
Proof.
  revert anchor l. induction cmds as [|c cmds IH]; intros anchor l; [done|].
  cbn [fold_left]. rewrite willRunCommand_round_marker, IH. f_equal.
  - cbn [last_marker]. destruct (last_marker (Some c) cmds); [done|].
    by destruct (is_marker l c).
  - destruct cmds as [|c' cmds]; [done|].
    change (last (c :: c' :: cmds)) with (last (c' :: cmds)).
    destruct (last (c' :: cmds)) eqn:Hlast; [done|].
    by apply last_None in Hlast.
Qed.

(** C9.  [willRunCommand] leaves the anchor on the id of the marker found
    last in the scan of the previous commands, a marker being a 'goto' or a
    command that is not a waitFor* and comes right after one, and keeps the
    old anchor when there is no marker; when the new command is
    'waitForLocation' and the last previous command is a waitFor*, the anchor is
    the new command's id.  Nothing else in the tracker changes. *)
Theorem willRunCommand_sets_anchor
    (t : LocationTracker) (newCommand : ICommandMeta)
    (previousCommands : list ICommandMeta) :
  let t' := willRunCommand t newCommand previousCommands in
  defaultWaitForLocationCommandId t'
  = anchor_spec (defaultWaitForLocationCommandId t) newCommand previousCommands
  /\ navigations t' = navigations t
  /\ waitForCbs t' = waitForCbs t
  /\ promises t' = promises t.
Proof.
  unfold willRunCommand, anchor_spec. rewrite willRunCommand_loop. cbn.
  repeat split. by destruct (last previousCommands).
Qed.

End Anchor.

Section InvalidStatus.
Import LocationTracker.







End InvalidStatus.

Section Triggers.
Import LocationTracker TrackerSpec.

Lemma getTrigger_reload (reason : string) :
  reload_reason reason -> getTriggerForNavigationReason reason = Some reload.
Proof. by intros [->|[->| ->]]. Qed.

Lemma getTrigger_change (reason : string) :
  reason ≠ "newTab" -> ¬ reload_reason reason ->
  getTriggerForNavigationReason reason = Some change.
Proof.
  intros Hnew Hnot. unfold getTriggerForNavigationReason, reload_reason in *.
  destruct (String.eqb_spec reason "newTab"); [done|].
  destruct (String.eqb_spec reason "httpHeaderRefresh"); [tauto|].
  destruct (String.eqb_spec reason "metaTagRefresh"); [tauto|].
  destruct (String.eqb_spec reason "reload"); [tauto|]. done.
Qed.

(** The scan of the history finds a trigger exactly when some entry starts
    at or after the anchor (after it, when not inclusive) and has a reason of
    that trigger. *)
Lemma hasTriggerSinceCommand_loop_true (hist : list INavigation)
    (trigger : LocationTrigger) (since : Z) (inclusive : bool) :
  hasTriggerSinceCommand_loop hist trigger since inclusive = true
  <-> exists nav, nav ∈ hist
        /\ (if inclusive then since <= startCommandId nav
            else since < startCommandId nav)
        /\ getTriggerForNavigationReason (navigationReason nav) = Some trigger.
Proof.
  induction hist as [|nav hist IH]; simpl.
  - split; [done|]. intros (nav & Hin & _). by apply elem_of_nil in Hin.
  - destruct (_ && _) eqn:Hmatch.
    + split; [|done]. intros _. exists nav. split; [left|].
      apply andb_true_iff in Hmatch as [Hm Ht]. apply bool_decide_eq_true in Ht.
      split; [|done]. destruct inclusive.
      * apply orb_true_iff in Hm as [?%Z.ltb_lt|?%Z.leb_le]; lia.
      * by apply Z.ltb_lt.
    + rewrite IH. split.
      * intros (nav' & Hin & H). exists nav'. split; [by right|done].
      * intros (nav' & Hin & Hs & Ht). apply elem_of_cons in Hin as [->|Hin].
        -- exfalso. apply andb_false_iff in Hmatch as [Hm|Hf].
           ++ destruct inclusive.
              ** apply orb_false_iff in Hm as [_ ?%Z.leb_gt]. lia.
              ** apply Z.ltb_ge in Hm. lia.
           ++ by apply bool_decide_eq_false in Hf.
        -- by exists nav'.
Qed.

(** [waitFor] of a trigger: it returns at once when the scan finds the
    trigger, and queues a fresh resolver otherwise. *)
Lemma waitFor_trigger (t : LocationTracker) (g : LocationTrigger)
    (since : option Z) (inclusive : option bool) :
  waitFor t (status_name (Trigger g)) since inclusive
  = if hasTriggerSinceCommand t g
         (default (defaultWaitForLocationCommandId t) since)
         (default true inclusive)
    then (t, Returned)
    else ({| defaultWaitForLocationCommandId := defaultWaitForLocationCommandId t;
             navigations := navigations t;
             waitForCbs := fun s' =>
               if decide (s' = Trigger g) then waitForCbs t (Trigger g) ++ [promises t]
               else waitForCbs t s';
             promises := S (promises t) |},
          Pending (promises t)).
Proof. by destruct g. Qed.

(** C5.  The reason of a navigation puts it in at most one trigger class.
    A reload-family reason (httpHeaderRefresh, metaTagRefresh, reload):
    [waitFor('reload')] anchored at or before the navigation's start command
    returns at once, [waitFor('change')] is left pending when that navigation
    is the whole history, and the navigation's request calls the resolvers
    queued for 'reload' and only them.  Any other reason but newTab: the
    same with 'change' for 'reload'.  newTab: neither wait returns when that
    navigation is the whole history, and its request calls no resolver. *)
Theorem navigation_reason_decides_trigger
    (t : LocationTracker) (nav : INavigation) (since : option Z) :
  let anchor := default (defaultWaitForLocationCommandId t) since in
  let reason := navigationReason nav in
  (reload_reason reason ->
     (nav ∈ history (navigations t) -> anchor <= startCommandId nav ->
      waitFor t "reload" since None = (t, Returned))
     /\ (history (navigations t) = [nav] ->
         forall inclusive,
           (waitFor t "change" since inclusive).2 = Pending (promises t))
     /\ onNavigation t nav
        = (set_waitForCbs t (Trigger reload) [], waitForCbs t (Trigger reload)))
  /\ (reason ≠ "newTab" -> ¬ reload_reason reason ->
        (nav ∈ history (navigations t) -> anchor <= startCommandId nav ->
         waitFor t "change" since None = (t, Returned))
        /\ (history (navigations t) = [nav] ->
            forall inclusive,
              (waitFor t "reload" since inclusive).2 = Pending (promises t))
        /\ onNavigation t nav
           = (set_waitForCbs t (Trigger change) [], waitForCbs t (Trigger change)))
  /\ (reason = "newTab" ->
        (history (navigations t) = [nav] ->
         forall inclusive,
           (waitFor t "reload" since inclusive).2 = Pending (promises t)
           /\ (waitFor t "change" since inclusive).2 = Pending (promises t))
        /\ onNavigation t nav = (t, [])).
Proof.
  intros anchor reason.
  assert (Hfound : forall g, nav ∈ history (navigations t) ->
            anchor <= startCommandId nav ->
            getTriggerForNavigationReason reason = Some g ->
            waitFor t (status_name (Trigger g)) since None = (t, Returned)).
  { intros g Hin Hle Hg. rewrite waitFor_trigger.
    replace (hasTriggerSinceCommand _ _ _ _) with true; [done|].
    symmetry. apply hasTriggerSinceCommand_loop_true. by exists nav. }
  assert (Hnone : forall g inclusive, history (navigations t) = [nav] ->
            getTriggerForNavigationReason reason ≠ Some g ->
            (waitFor t (status_name (Trigger g)) since inclusive).2
            = Pending (promises t)).
  { intros g inclusive Hhist Hg. rewrite waitFor_trigger.
    destruct (hasTriggerSinceCommand _ _ _ _) eqn:Hscan; [|done].
    apply hasTriggerSinceCommand_loop_true in Hscan as (nav' & Hin & _ & Hg').
    rewrite Hhist in Hin. apply list_elem_of_singleton in Hin as ->. done. }
  assert (Hreq : forall g, getTriggerForNavigationReason reason = Some g ->
            onNavigation t nav
            = (set_waitForCbs t (Trigger g) [], waitForCbs t (Trigger g))).
  { intros g Hg. unfold onNavigation. fold reason. rewrite Hg.
    destruct (String.eqb_spec reason "newTab") as [Heq|_].
    - by rewrite Heq in Hg.
    - apply runWaitForCbs_spec. }
  split; [|split].
  - intros Hreload. pose proof (getTrigger_reload _ Hreload) as Hg.
    split; [intros; by apply (Hfound reload)|].
    split; [|by apply Hreq].
    intros Hhist inclusive. apply (Hnone change); [done|]. by rewrite Hg.
  - intros Hnew Hnot. pose proof (getTrigger_change _ Hnew Hnot) as Hg.
    split; [intros; by apply (Hfound change)|].
    split; [|by apply Hreq].
    intros Hhist inclusive. apply (Hnone reload); [done|]. by rewrite Hg.
  - intros Hnew. split.
    + intros Hhist inclusive.
      split; [apply (Hnone reload)|apply (Hnone change)]; try done;
        by rewrite Hnew.
    + unfold onNavigation. fold reason. by rewrite Hnew.
Qed.

Lemma navigation_reason_decides_trigger_witness :
  waitFor tracker_after_reload "reload" (Some 3) None
  = (tracker_after_reload, Returned)
  /\ (waitFor tracker_after_reload "change" (Some 3) None).2 = Pending 2%nat
  /\ (onNavigation tracker_after_reload
        {| navigationReason := "reload"; startCommandId := 3;
           initiatedTime := 30; stateChanges := [] |}).2 = [0%nat].
Proof.
  destruct (navigation_reason_decides_trigger tracker_after_reload
              {| navigationReason := "reload"; startCommandId := 3;
                 initiatedTime := 30; stateChanges := [] |} (Some 3))
    as [Hreload _].
  destruct Hreload as (Hnow & Hpending & Hrequest).
  { right. right. reflexivity. }
  split; [apply Hnow; [left | simpl; lia]|].
  split; [exact (Hpending eq_refl None)|].
  by rewrite Hrequest.
Defined.

End Triggers.

Section Waiting.
Import LocationTracker TrackerSpec.



Lemma elem_of_concat_map (r : Resolver) (cbs : PipelineStatus -> list Resolver)
    (l : list PipelineStatus) :
  r ∈ concat (map cbs l) -> exists p, p ∈ l /\ r ∈ cbs p.
Proof.
  induction l as [|p l IH]; simpl; [by intros ?%elem_of_nil|].
  intros [Hin|Hin]%elem_of_app.
  - exists p. split; [left|done].
  - destruct (IH Hin) as (q & Hq & Hr). exists q. split; [by right|done].
Qed.



(** [waitFor] of a pipeline status, for every tracker: it returns at once
    when the step of the status is not 0 and the navigation is at or past it,
    and queues a fresh resolver behind the others otherwise. *)
Lemma waitFor_pipeline (t : LocationTracker) (p : PipelineStatus)
    (since : option Z) (inclusive : option bool) :
  waitFor t (status_name (Pipeline p)) since inclusive
  = if (1 <=? getStepByStatus p)%nat && (getStepByStatus p <=? currentStep t)%nat
    then (t, Returned)
    else ({| defaultWaitForLocationCommandId := defaultWaitForLocationCommandId t;
             navigations := navigations t;
             waitForCbs := fun s' =>
               if decide (s' = Pipeline p) then waitForCbs t (Pipeline p) ++ [promises t]
               else waitForCbs t s';
             promises := S (promises t) |},
          Pending (promises t)).
Proof.
  unfold waitFor. destruct p; cbn; try done; by destruct (_ <=? _)%nat.
Qed.

End Waiting.

Section WaitForStatus.
Import LocationTracker TrackerSpec.







End WaitForStatus.

(** ** Theorems: the session state recorder *)

Section CommandDurability.
Import SessionState SessionSpec.

(** In a list of rows with distinct keys, the rows of a key that is present
    are that one row. *)
Lemma filter_key_singleton (rows : list (Z * ICommandMeta)) (k : Z) (row : ICommandMeta) :
  NoDup rows.*1 -> (k, row) ∈ rows ->
  filter (fun kv => kv.1 = k) rows = [(k, row)].
Proof.
  induction rows as [|[k' row'] rows IH]; intros Hnd Hin.
  - by apply elem_of_nil in Hin.
  - rewrite fmap_cons in Hnd. apply NoDup_cons in Hnd as [Hk Hnd].
    assert (Hrest : forall r, (k', r) ∉ rows).
    { intros r Hr. apply Hk. apply list_elem_of_fmap. by exists (k', r). }
    apply elem_of_cons in Hin as [[= <- <-]|Hin].
    + rewrite filter_cons_True by done. f_equal.
      clear IH Hnd Hk. induction rows as [|[k2 r2] rows IH]; [done|].
      rewrite filter_cons_False.
      * apply IH. intros r Hr. apply (Hrest r). by right.
      * cbn. intros ->. apply (Hrest r2). left.
    + rewrite filter_cons_False; [by apply IH|].
      cbn. intros ->. by apply (Hrest row).
Qed.

Lemma runCommand_start_spec (s : SessionState) (commandMeta : Ref)
    (meta0 : ICommandMeta) (now : Z) :
  heap s !! commandMeta = Some meta0 ->
  let s1 := runCommand_start s commandMeta now in
  commands s1 = commands s ++ [commandMeta]
  /\ heap s1 !! commandMeta = Some (set_startDate meta0 now)
  /\ db_commands (db s1)
     = <[id meta0 := set_startDate meta0 now]> (db_commands (db s)).
Proof.
  intros Hobj. unfold runCommand_start, insert_command_object. cbn.
  rewrite lookup_alter_eq, Hobj. cbn. by rewrite lookup_alter_eq, Hobj.
Qed.

Lemma runCommand_finally_spec (s : SessionState) (commandMeta : Ref)
    (m : ICommandMeta) (now : Z) (result0 : option string) :
  heap s !! commandMeta = Some m ->
  let s3 := runCommand_finally s commandMeta now result0 in
  heap s3 !! commandMeta = Some (set_endDate_result m now result0)
  /\ db_commands (db s3)
     = <[id m := set_endDate_result m now result0]> (db_commands (db s)).
Proof.
  intros Hobj. unfold runCommand_finally, insert_command_object. cbn.
  rewrite lookup_alter_eq, Hobj. cbn. by rewrite lookup_alter_eq, Hobj.
Qed.

(** C4.  [runCommand] on a command object [meta0], with a wrapped function
    that leaves the id of that object alone:
    - the function starts on a state in which the command is listed and its
      row, with [startDate] the first reading of the clock, is in the table;
    - the promise returned settles as the wrapped function did, a thrown
      error being thrown again as it is;
    - in the final state the table holds one row with the command's id, and
      only one, with [endDate] the second reading of the clock and [result]
      the returned value or the thrown error; the command object holds the
      same values. *)
Theorem runCommand_always_records_the_end
    (s : SessionState) (commandFn : SessionState -> SessionState * Settled)
    (commandMeta : Ref) (meta0 : ICommandMeta) (startTime endTime : Z) :
  heap s !! commandMeta = Some meta0 ->
  let s1 := runCommand_start s commandMeta startTime in
  (exists m, heap (commandFn s1).1 !! commandMeta = Some m /\ id m = id meta0) ->
  (commands s1 = commands s ++ [commandMeta]
   /\ db_commands (db s1) !! id meta0 = Some (set_startDate meta0 startTime))
  /\ exists s3 row,
       runCommand s commandFn commandMeta startTime endTime
       = (s3, (commandFn s1).2)
       /\ id row = id meta0
       /\ endDate row = Some endTime
       /\ result row
          = Some (match (commandFn s1).2 with
                  | Fulfilled value => value
                  | Rejected err => err
                  end)
       /\ filter (fun kv => kv.1 = id meta0) (map_to_list (db_commands (db s3)))
          = [(id meta0, row)]
       /\ heap s3 !! commandMeta = Some row.
Proof.
  intros Hobj s1 (m & Hm & Hid).
  destruct (runCommand_start_spec s commandMeta meta0 startTime Hobj)
    as (Hcmds & _ & Hdb1).
  fold s1 in Hcmds, Hdb1.
  split.
  { split; [done|]. rewrite Hdb1. apply lookup_insert_eq. }
  unfold runCommand. fold s1.
  destruct (commandFn s1) as [s2 settled] eqn:Hfn. cbn in Hm |- *.
  set (result0 := match settled with
                  | Fulfilled value => Some value
                  | Rejected err => Some err
                  end).
  destruct (runCommand_finally_spec s2 commandMeta m endTime result0 Hm)
    as (Hheap3 & Hdb3).
  eexists _, (set_endDate_result m endTime result0).
  split; [reflexivity|]. split; [done|]. split; [done|].
  split; [by destruct settled|]. split; [|done].
  apply filter_key_singleton.
  - apply NoDup_fst_map_to_list.
  - apply elem_of_map_to_list. rewrite Hdb3, Hid. apply lookup_insert_eq.
Qed.

Lemma runCommand_always_records_the_end_witness :
  exists s3 row,
    runCommand session_with_command throwing_command 0%nat 100 200
    = (s3, Rejected "Error: net::ERR_FAILED")
    /\ endDate row = Some 200
    /\ result row = Some "Error: net::ERR_FAILED"
    /\ filter (fun kv => kv.1 = 7) (map_to_list (db_commands (db s3))) = [(7, row)].
Proof.
  destruct (runCommand_always_records_the_end session_with_command throwing_command
              0%nat
              {| id := 7; name := "goto"; startDate := None; endDate := None;
                 result := None; resultType := None |} 100 200)
    as (_ & s3 & row & Hrun & _ & Hend & Hresult & Hrows & _).
  - reflexivity.
  - eexists. split; [reflexivity|reflexivity].
  - exists s3, row. split; [exact Hrun|]. split; [exact Hend|].
    split; [exact Hresult|exact Hrows].
Defined.

End CommandDurability.

Section Logging.
Import SessionState.

(** Logging touches the table of session logs and the time of the last
    error, and nothing else. *)
Lemma logger_log_keeps (s : SessionState) (level0 action0 : string) (now : Z) :
  let s' := logger_log s level0 action0 now in
  sessionId s' = sessionId s
  /\ heap s' = heap s
  /\ commands s' = commands s
  /\ createDate s' = createDate s
  /\ navigationsByTabId s' = navigationsByTabId s
  /\ websocketMessages s' = websocketMessages s
  /\ websocketListeners s' = websocketListeners s
  /\ browserRequestIdToResources s' = browserRequestIdToResources s
  /\ closeDate s' = closeDate s
  /\ websocketMessageIdCounter s' = websocketMessageIdCounter s
  /\ delivered s' = delivered s
  /\ errorsLogged s' = errorsLogged s
  /\ db_commands (db s') = db_commands (db s)
  /\ db_websocketMessages (db s') = db_websocketMessages (db s).
Proof.
  cbn zeta. unfold logger_log, onLogEvent. destruct (closeDate s) eqn:Hclose.
  - by rewrite Hclose.
  - cbn. rewrite bool_decide_eq_true_2 by done. cbn.
    by destruct (String.eqb level0 "error").
Qed.

End Logging.

(** In a goal about the state after a call of the logger: what the call
    kept, rewritten. *)
Ltac logger_keeps :=
  match goal with
  | |- context [SessionState.logger_log ?x ?a ?b ?c] =>
      let H := fresh "Hlog" in
      pose proof (logger_log_keeps x a b c) as H; cbn zeta in H;
      destruct H as (?Hl & ?Hl & ?Hl & ?Hl & ?Hl & ?Hl & ?Hl & ?Hl & ?Hl & ?Hl
                     & ?Hl & ?Hl & ?Hl & ?Hl);
      repeat match goal with
             | Heq : _ (SessionState.logger_log x a b c) = _ |- _ => rewrite ?Heq; clear Heq
             | Heq : _ (SessionState.db (SessionState.logger_log x a b c)) = _ |- _ => rewrite ?Heq; clear Heq
             end
  end.

Section WebsocketReplay.
Import SessionState SessionSpec.

Lemma replay_loop (msgs : list IWebsocketResourceMessage) (s : SessionState)
    (r : Z) (l : Listener) :
  let s' :=
    fold_left
      (fun s message0 =>
         if bool_decide (resourceId message0 = r)
         then set_delivered s (delivered s ++ [(l, message0)])
         else s) msgs s in
  delivered s' = delivered s ++ map (fun m => (l, m)) (messages_of r msgs)
  /\ websocketMessages s' = websocketMessages s
  /\ websocketListeners s' = websocketListeners s
  /\ websocketMessageIdCounter s' = websocketMessageIdCounter s.
Proof.
  revert s. induction msgs as [|m msgs IH]; intros s; cbn [fold_left].
  - cbn. by rewrite app_nil_r.
  - unfold messages_of. case_bool_decide as Hr.
    + rewrite filter_cons_True by done.
      destruct (IH (set_delivered s (delivered s ++ [(l, m)]))) as (-> & -> & -> & ->).
      cbn. by rewrite <- app_assoc.
    + rewrite filter_cons_False by done. apply IH.
Qed.

Lemma onWebsocketMessages_spec (s : SessionState) (r : Z) (l : Listener) :
  let s1 := onWebsocketMessages s r l in
  delivered s1
  = delivered s ++ map (fun m => (l, m)) (messages_of r (websocketMessages s))
  /\ websocketMessages s1 = websocketMessages s
  /\ websocketListeners s1
     = <[r := default [] (websocketListeners s !! r) ++ [l]]> (websocketListeners s).
Proof.
  unfold onWebsocketMessages.
  destruct (replay_loop (websocketMessages s)
              (set_websocketListeners s
                 (<[r := default [] (websocketListeners s !! r) ++ [l]]>
                    (websocketListeners s))) r l) as (H1 & H2 & H3 & _).
  cbn in *. by rewrite H1, H2, H3.
Qed.

(** Captures only add: the messages captured are appended to the list, the
    listeners stay as they are, and the log grows by the fan-out of each new
    message, in capture order. *)
Lemma capture_all_spec (events : list WebsocketEvent) (s : SessionState) :
  exists new,
    websocketMessages (capture_all s events) = websocketMessages s ++ new
    /\ websocketListeners (capture_all s events) = websocketListeners s
    /\ delivered (capture_all s events)
       = delivered s ++ concat (map (fan_out (websocketListeners s)) new).
Proof.
  revert s. induction events as [|e events IH]; intros s.
  - exists []. cbn. by rewrite !app_nil_r.
  - cbn. destruct (IH (captureWebsocketMessage s e).1) as (new & Hm & Hl & Hd).
    unfold capture_all in *. rewrite Hm, Hl, Hd. clear Hm Hl Hd.
    unfold captureWebsocketMessage.
    destruct (last _) as [finalRedirect|]; cbn [fst].
    + cbn. eexists (_ :: new). rewrite <- !app_assoc. cbn. done.
    + logger_keeps. by exists new.
Qed.

Lemma delivered_to_fan_out (listeners : gmap Z (list Listener)) (r : Z)
    (old : list Listener) (l : Listener) (new : list IWebsocketResourceMessage) :
  l ∉ old ->
  (forall r' ls, r' ≠ r -> listeners !! r' = Some ls -> l ∉ ls) ->
  delivered_to l (concat (map (fan_out (<[r := old ++ [l]]> listeners)) new))
  = messages_of r new.
Proof.
  intros Hold Hothers. unfold delivered_to, messages_of.
  assert (Hnone : forall (m : IWebsocketResourceMessage) (ls : list Listener),
             l ∉ ls -> filter (fun d => d.1 = l) (map (fun l' => (l', m)) ls) = []).
  { intros m ls. induction ls as [|x ls IH]; intros Hl; [done|].
    apply not_elem_of_cons in Hl as [Hx Hl]. cbn [map].
    rewrite filter_cons_False by (cbn; congruence). by apply IH. }
  induction new as [|m new IH]; [done|].
  cbn [map concat]. rewrite filter_app, fmap_app, IH. clear IH.
  unfold fan_out. destruct (decide (resourceId m = r)) as [Hr|Hr].
  - rewrite (filter_cons_True (fun m => resourceId m = r)) by done.
    rewrite Hr, lookup_insert_eq. cbn [from_option]. unfold Datatypes.id.
    rewrite map_app, filter_app, Hnone by done. cbn [map app].
    by rewrite filter_cons_True.
  - rewrite (filter_cons_False (fun m => resourceId m = r)) by done.
    rewrite lookup_insert_ne by done.
    destruct (listeners !! resourceId m) as [ls|] eqn:Hls;
      cbn [from_option map]; unfold Datatypes.id.
    + rewrite Hnone; [done|]. by eapply Hothers.
    + done.
Qed.

(** C6.  Registering listener [l] for resource [r] calls it, during the
    registration, with the messages captured for [r] so far, in capture
    order, and with nothing else; the frames captured afterwards only extend
    the log of calls, with messages captured afterwards; and when [l] was not
    registered before, all its calls from the registration on are the
    messages of [r] captured before followed by those captured after, each
    once and in capture order. *)
Theorem onWebsocketMessages_replays_history
    (s : SessionState) (r : Z) (l : Listener) (events : list WebsocketEvent) :
  let s1 := onWebsocketMessages s r l in
  let s2 := capture_all s1 events in
  delivered s1
  = delivered s ++ map (fun m => (l, m)) (messages_of r (websocketMessages s))
  /\ websocketMessages s1 = websocketMessages s
  /\ exists new later,
       websocketMessages s2 = websocketMessages s ++ new
       /\ delivered s2 = delivered s1 ++ later
       /\ (forall d, d ∈ later -> d.2 ∈ new)
       /\ ((forall r' ls, websocketListeners s !! r' = Some ls -> l ∉ ls) ->
           delivered_to l (drop (length (delivered s)) (delivered s2))
           = messages_of r (websocketMessages s) ++ messages_of r new).
Proof.
  intros s1 s2.
  destruct (onWebsocketMessages_spec s r l) as (Hd1 & Hm1 & Hl1).
  fold s1 in Hd1, Hm1, Hl1.
  destruct (capture_all_spec events s1) as (new & Hm2 & Hl2 & Hd2).
  fold s2 in Hm2, Hl2, Hd2.
  split; [done|]. split; [done|].
  exists new, (concat (map (fan_out (websocketListeners s1)) new)).
  split; [by rewrite Hm2, Hm1|]. split; [done|]. split.
  - intros d Hd. clear -Hd. induction new as [|m new IH]; [by apply elem_of_nil in Hd|].
    cbn in Hd. apply elem_of_app in Hd as [Hd|Hd].
    + unfold fan_out in Hd. apply list_elem_of_fmap in Hd as (l' & -> & _). left.
    + right. by apply IH.
  - intros Hfresh. rewrite Hd2, Hd1, <- app_assoc, drop_app_length.
    unfold delivered_to at 1. rewrite filter_app, fmap_app. f_equal.
    + clear. induction (messages_of r (websocketMessages s)) as [|m ms IH]; [done|].
      cbn [map]. rewrite filter_cons_True by done. rewrite fmap_cons. by f_equal.
    + rewrite Hl1. apply delivered_to_fan_out.
      * destruct (websocketListeners s !! r) as [ls|] eqn:Hls; cbn.
        -- by eapply Hfresh.
        -- apply not_elem_of_nil.
      * intros r' ls _ Hls. by eapply Hfresh.
Qed.

Lemma onWebsocketMessages_replays_history_witness :
  delivered_to 1%nat
    (delivered
       (capture_all (onWebsocketMessages session_with_frames 5 1%nat)
          [ {| browserRequestId := "req-5"; isFromServer := true;
               event_message := "d"; event_time := 40 |} ]))
  = [ {| resourceId := 5; message := "a"; messageId := 1; source := "server" |};
      {| resourceId := 5; message := "c"; messageId := 3; source := "client" |};
      {| resourceId := 5; message := "d"; messageId := 4; source := "server" |} ].
Proof.
  destruct (onWebsocketMessages_replays_history session_with_frames 5 1%nat
              [ {| browserRequestId := "req-5"; isFromServer := true;
                   event_message := "d"; event_time := 40 |} ])
    as (_ & _ & new & later & Hm & _ & _ & Hall).
  change (delivered _) with
    (drop (length (delivered session_with_frames))
       (delivered
          (capture_all (onWebsocketMessages session_with_frames 5 1%nat)
             [ {| browserRequestId := "req-5"; isFromServer := true;
                  event_message := "d"; event_time := 40 |} ]))).
  rewrite Hall.
  - vm_compute in Hm. injection Hm as <-. reflexivity.
  - intros r' ls Hls. exfalso. exact (lookup_empty_Some _ _ Hls).
Defined.

End WebsocketReplay.

Section Responsiveness.
Import SessionState SessionSpec.

Lemma checkForResponsive_commands_le (allContentLoaded : option Z)
    (cmds : list ICommandMeta) (x bound : Z) :
  x <= bound ->
  (forall c ended, c ∈ cmds -> completed_without_error c ended -> ended <= bound) ->
  fold_left (checkForResponsive_command allContentLoaded) cmds x <= bound.
Proof.
  revert x. induction cmds as [|c cmds IH]; intros x Hx Hcmds; cbn; [done|].
  apply IH; [|intros c' e Hin; apply Hcmds; by right].
  unfold checkForResponsive_command.
  destruct (endDate c) as [e|] eqn:Hend; [|done].
  destruct (_ && _) eqn:Hcond; [|done].
  apply andb_true_iff in Hcond as [_ Hok]. apply negb_true_iff in Hok.
  apply (Hcmds c e); [left|]. split; [done|].
  intros rt Hrt. by rewrite Hrt in Hok.
Qed.

Lemma checkForResponsive_navigation_le (cmds : list ICommandMeta)
    (navigation : TabNavigations) (x bound : Z) :
  x <= bound ->
  (forall nav, top navigation = Some nav -> lastPageTime nav <= bound) ->
  (forall c ended, c ∈ cmds -> completed_without_error c ended -> ended <= bound) ->
  checkForResponsive_navigation cmds x navigation <= bound.
Proof.
  intros Hx Hnav Hcmds. unfold checkForResponsive_navigation.
  apply checkForResponsive_commands_le; [|done].
  destruct (top navigation) as [nav|]; cbn; [|done].
  specialize (Hnav nav eq_refl). unfold lastPageTime in Hnav.
  destruct (Map_get AllContentLoaded (stateChanges nav)); cbn;
    by destruct (_ <? _).
Qed.

Lemma lastSuccessDate_le (s : SessionState) (bound : Z) :
  createDate s <= bound ->
  (forall tab navigation nav,
      (tab, navigation) ∈ navigationsByTabId s -> top navigation = Some nav ->
      lastPageTime nav <= bound) ->
  (forall c ended, c ∈ command_objects s -> completed_without_error c ended ->
                   ended <= bound) ->
  lastSuccessDate s <= bound.
Proof.
  unfold lastSuccessDate. generalize (createDate s) as x.
  generalize (command_objects s) as cmds. intros cmds.
  induction (navigationsByTabId s) as [|[tab navigation] tabs IH];
    intros x Hx Hnav Hcmds; cbn; [done|].
  apply IH.
  - apply checkForResponsive_navigation_le; [done| |done].
    intros nav. apply (Hnav tab). left.
  - intros tab' navigation' nav Hin. apply (Hnav tab'). by right.
  - done.
Qed.

(** C7, as stated, fails: a navigation of the session reached
    AllContentLoaded at 10, the last error is at 20, no navigation has an
    AllContentLoaded after 20 and no command has completed, yet
    [hasRecentErrors] is false, because the navigation initiated at 30
    counts as the last success. *)
Lemma hasRecentErrors_counterexample :
  (exists tab navigation nav,
      (tab, navigation) ∈ navigationsByTabId session_navigating_after_error
      /\ nav ∈ history navigation
      /\ Map_get AllContentLoaded (stateChanges nav) = Some 10)
  /\ lastErrorTime session_navigating_after_error = Some 20
  /\ 10 < 20
  /\ (forall tab navigation nav t,
        (tab, navigation) ∈ navigationsByTabId session_navigating_after_error ->
        nav ∈ history navigation ->
        Map_get AllContentLoaded (stateChanges nav) = Some t -> t <= 10)
  /\ command_objects session_navigating_after_error = []
  /\ hasRecentErrors (checkForResponsive session_navigating_after_error) = false.
Proof.
  split.
  { eexists _, _, _. split; [left|]. split; [left|]. reflexivity. }
  split; [reflexivity|]. split; [lia|]. split; [|split; reflexivity].
  intros tab navigation nav t Htab Hnav Hget.
  apply list_elem_of_singleton in Htab. injection Htab as -> ->.
  cbn in Hnav. apply elem_of_cons in Hnav as [->|Hnav].
  - cbn in Hget. injection Hget as <-. lia.
  - apply list_elem_of_singleton in Hnav as ->. discriminate Hget.
Qed.

(** C7, amended.  [hasRecentErrors] is true exactly when an error has been
    captured and its time is at or after the computed last success.  It is
    true, in particular, when the last error is at [T2], the session was
    created by then, every tab's current navigation reached AllContentLoaded
    by then or, not having reached it, was initiated by then, and every
    command completed without error had ended by then.  The last error is
    the time of the last log entry of level 'error' of this session (or of
    no session); logging one does not move the last success. *)
Theorem hasRecentErrors_after_last_success (s : SessionState) (T2 : Z) :
  lastErrorTime s = Some T2 ->
  createDate s <= T2 ->
  (forall tab navigation nav,
      (tab, navigation) ∈ navigationsByTabId s -> top navigation = Some nav ->
      match Map_get AllContentLoaded (stateChanges nav) with
      | Some T1 => T1 <= T2
      | None => initiatedTime nav <= T2
      end) ->
  (forall c ended, c ∈ command_objects s -> completed_without_error c ended ->
                   ended <= T2) ->
  hasRecentErrors (checkForResponsive s) = true
  /\ (forall s' : SessionState,
        hasRecentErrors (checkForResponsive s') = true
        <-> exists t, lastErrorTime s' = Some t /\ lastSuccessDate s' <= t)
  /\ (forall entry,
        level entry = "error" ->
        entry_sessionId entry = Some (sessionId s) \/ entry_sessionId entry = None ->
        lastErrorTime (onLogEvent s entry) = Some (timestamp entry)
        /\ lastSuccessDate (onLogEvent s entry) = lastSuccessDate s).
Proof.
  intros Herr Hcreate Hnav Hcmds. split; [|split].
  - unfold checkForResponsive. cbn. rewrite Herr. apply Z.leb_le.
    apply lastSuccessDate_le; [done| |done].
    intros tab navigation nav Hin Htop. specialize (Hnav tab navigation nav Hin Htop).
    unfold lastPageTime. by destruct (Map_get _ _).
  - intros s'. unfold checkForResponsive. cbn.
    destruct (lastErrorTime s') as [t|].
    + rewrite Z.leb_le. split; [by exists t|]. by intros (t' & [= <-] & ?).
    + split; [done|]. by intros (t' & ? & _).
  - intros entry Hlevel Hsession. unfold onLogEvent. rewrite Hlevel. cbn.
    by destruct Hsession as [-> | ->];
      rewrite ?bool_decide_eq_true_2 by done; cbn; rewrite ?orb_true_r.
Qed.

Lemma hasRecentErrors_after_last_success_witness :
  hasRecentErrors (checkForResponsive session_stuck_after_error) = true.
Proof.
  refine (proj1 (hasRecentErrors_after_last_success session_stuck_after_error 20
                   _ _ _ _)).
  - reflexivity.
  - cbn. lia.
  - intros tab navigation nav Htab Htop.
    apply list_elem_of_singleton in Htab. injection Htab as -> ->.
    vm_compute in Htop. injection Htop as <-. vm_compute. discriminate.
  - intros c ended Hc [Hend _]. vm_compute in Hc.
    apply elem_of_cons in Hc as [->|Hc].
    + injection Hend as <-. lia.
    + by apply elem_of_nil in Hc.
Defined.

End Responsiveness.

(** ** Theorems: command dispatch *)

Section Dispatch.
Import CoreServerConnection DispatchSpec.

Variable World : Type.
Variable this_property : string -> option (Property World).
Variable Session_getTab : Connection World -> option ISessionMeta -> GetTab World.
Variable Session_lastCommandId : Connection World -> string -> option Z.

Local Abbreviation handle :=
  (handleRequest World this_property Session_getTab Session_lastCommandId).

Lemma Obj_get_set (k k' v : string) (o : Obj) :
  Obj_get k (Obj_set k' v o) = if String.eqb k' k then Some v else Obj_get k o.
Proof.
  induction o as [|[k0 v0] o IH]; cbn.
  - done.
  - destruct (String.eqb_spec k0 k') as [->|Hne]; cbn.
    + by destruct (String.eqb k' k).
    + destruct (String.eqb_spec k0 k) as [->|Hne'].
      * destruct (String.eqb_spec k' k) as [->|]; [done|done].
      * done.
Qed.

Lemma Obj_spread_structured (e : Error) :
  NoDup (error_own e).*1 ->
  structured_payload e
    (Obj_spread [("message", error_message e); ("stack", error_stack e)] (error_own e)).
Proof.
  intros Hnd k. unfold Obj_spread.
  generalize [("message", error_message e); ("stack", error_stack e)] as base.
  induction (error_own e) as [|[k0 v0] own IH]; intros base; cbn; [done|].
  rewrite fmap_cons in Hnd. apply NoDup_cons in Hnd as [Hk0 Hnd].
  rewrite IH by done. destruct (String.eqb_spec k0 k) as [->|Hne].
  - assert (Hnone : Obj_get k own = None).
    { clear -Hk0. induction own as [|[k1 v1] own IH]; [done|]. cbn.
      rewrite fmap_cons, not_elem_of_cons in Hk0. destruct Hk0 as [Hne Hk0].
      destruct (String.eqb_spec k1 k) as [->|_]; [done|]. by apply IH. }
    rewrite Hnone, Obj_get_set. by rewrite String.eqb_refl.
  - destruct (Obj_get k own); [done|]. rewrite Obj_get_set.
    by destruct (String.eqb_spec k0 k).
Qed.

(** The [try] block assigns [isError = false] only after a function that
    was found has returned. *)
Lemma handleRequest_try_returned (c : Connection World) (payload : ICoreRequestPayload)
    (c1 : Connection World) (d0 : Data) :
  handleRequest_try World this_property Session_getTab c payload
  = (c1, inl (d0, false)) ->
  exists f arguments d,
    dispatched World this_property Session_getTab c payload f arguments
    /\ f c arguments = (c1, Fulfilled d)
    /\ d0 = DataValue d.
Proof.
  unfold handleRequest_try, dispatched, method_arguments.
  destruct (this_property (command payload)) as [[f|ty]|] eqn:Hthis.
  - destruct (meta payload) as [m|]; cbn;
      (destruct (f c _) as [c' [d|thrown]] eqn:Hf; cbn; intros [= <- <-];
       eexists f, _, d; split; [by left|done]).
  - by destruct (meta payload).
  - destruct (Session_getTab c (meta payload)) as [thrown|[tab|]] eqn:Htab;
      [done| |done].
    destruct (tab (command payload)) as [[f|ty]|] eqn:Hprop; [|done|done].
    destruct (f c _) as [c' [d|thrown]] eqn:Hf; cbn; intros [= <- <-].
    exists f, (map ArgValue (args payload)), d.
    split; [|done]. right. split; [done|]. by exists tab.
Qed.

(** [handleRequest] always ends by emitting one 'message' that answers the
    request, and does nothing else to the state the [try] block left. *)
Lemma handleRequest_responds (c : Connection World) (payload : ICoreRequestPayload) :
  exists response,
    handle c payload
    = emit_message World
        (handleRequest_try World this_property Session_getTab c payload).1 response
    /\ responseId response = messageId payload
    /\ (data response, isError response)
       = match (handleRequest_try World this_property Session_getTab c payload).2 with
         | inl assigned => assigned
         | inr thrown => handleRequest_catch thrown
         end.
Proof.
  unfold handleRequest.
  destruct (handleRequest_try _ _ _ c payload) as [c1 outcome]. cbn.
  destruct (match outcome with inl a => a | inr t => handleRequest_catch t end)
    as [data0 isError0].
  by eexists.
Qed.

(** C8.  A request never makes [handleRequest] fail: it ends with one
    'message', the answer to that request, emitted on the connection.
    (1) When the command is no property of the connection and no function of
    the addressed tab, the connection is otherwise untouched (open if it was
    open) and the answer has [isError] true and carries an error naming the
    command and the type found on the tab.
    (2), (3) When the command, a method of the connection or a function of
    the tab, throws, the answer has [isError] true and carries the message,
    the stack and the own fields of the thrown error, or, for a thrown value
    that is no error, an error quoting it; the connection is as the command
    left it.
    (4) Whatever the request, the next request is answered too; and an
    answer has [isError] false only when the command was found, was a
    function and returned, the answer carrying what it returned. *)
Theorem handleRequest_answers_failures
    (c : Connection World) (payload next : ICoreRequestPayload) :
  (forall tab,
      this_property (command payload) = None ->
      Session_getTab c (meta payload) = GetTabReturned World (Some tab) ->
      (forall f, tab (command payload) ≠ Some (Function World f)) ->
      exists response,
        handle c payload = emit_message World c response
        /\ responseId response = messageId payload
        /\ isError response = true
        /\ data response
           = DataError
               (new_Error ("Command not available on tab (" +:+ command payload
                           +:+ " - " +:+ typeof World (tab (command payload))
                           +:+ ")")))
  /\ (forall f c1 thrown,
        this_property (command payload) = Some (Function World f) ->
        f c (method_arguments payload) = (c1, Rejected thrown) ->
        exists response,
          handle c payload = emit_message World c1 response
          /\ responseId response = messageId payload
          /\ isError response = true
          /\ match thrown with
             | ThrownError e =>
                 exists o, data response = DataObject o
                           /\ (NoDup (error_own e).*1 -> structured_payload e o)
             | ThrownValue repr =>
                 data response
                 = DataError (new_Error ("Unknown error occurred " +:+ repr))
             end)
  /\ (forall tab f c1 thrown,
        this_property (command payload) = None ->
        Session_getTab c (meta payload) = GetTabReturned World (Some tab) ->
        tab (command payload) = Some (Function World f) ->
        f c (map ArgValue (args payload)) = (c1, Rejected thrown) ->
        exists response,
          handle c payload = emit_message World c1 response
          /\ responseId response = messageId payload
          /\ isError response = true
          /\ match thrown with
             | ThrownError e =>
                 exists o, data response = DataObject o
                           /\ (NoDup (error_own e).*1 -> structured_payload e o)
             | ThrownValue repr =>
                 data response
                 = DataError (new_Error ("Unknown error occurred " +:+ repr))
             end)
  /\ (exists c1 response1 c2 response2,
        handle c payload = emit_message World c1 response1
        /\ responseId response1 = messageId payload
        /\ handle (handle c payload) next = emit_message World c2 response2
        /\ responseId response2 = messageId next
        /\ (isError response1 = false ->
            exists f arguments d,
              dispatched World this_property Session_getTab c payload f arguments
              /\ f c arguments = (c1, Fulfilled d)
              /\ data response1 = DataValue d)).
Proof.
  assert (Hcatch : forall thrown response,
             (data response, isError response) = handleRequest_catch thrown ->
             isError response = true
             /\ match thrown with
                | ThrownError e =>
                    exists o, data response = DataObject o
                              /\ (NoDup (error_own e).*1 -> structured_payload e o)
                | ThrownValue repr =>
                    data response
                    = DataError (new_Error ("Unknown error occurred " +:+ repr))
                end).
  { intros [e|repr] response [= Hd He]; (split; [done|]).
    - eexists. split; [done|]. apply Obj_spread_structured.
    - done. }
  split; [|split; [|split]].
  - intros tab Hthis Htab Hnot.
    destruct (handleRequest_responds c payload) as (response & Hrun & Hid & Hdata).
    unfold handleRequest_try in Hrun, Hdata. rewrite Hthis, Htab in Hrun, Hdata.
    exists response.
    destruct (tab (command payload)) as [[f|ty]|] eqn:Hprop;
      [by destruct (Hnot f) | |];
      cbn in Hrun, Hdata; injection Hdata as Hd He; by rewrite Hrun.
  - intros f c1 thrown Hthis Hf.
    destruct (handleRequest_responds c payload) as (response & Hrun & Hid & Hdata).
    unfold handleRequest_try, method_arguments in *. rewrite Hthis in Hrun, Hdata.
    exists response.
    destruct (meta payload); cbn in Hrun, Hdata; rewrite Hf in Hrun, Hdata;
      cbn in Hrun, Hdata; destruct (Hcatch _ _ Hdata); by rewrite Hrun.
  - intros tab f c1 thrown Hthis Htab Hprop Hf.
    destruct (handleRequest_responds c payload) as (response & Hrun & Hid & Hdata).
    unfold handleRequest_try in Hrun, Hdata.
    rewrite Hthis, Htab, Hprop, Hf in Hrun, Hdata. cbn in Hrun, Hdata.
    exists response. destruct (Hcatch _ _ Hdata). by rewrite Hrun.
  - destruct (handleRequest_responds c payload) as (response1 & Hrun1 & Hid1 & Hdata1).
    destruct (handleRequest_responds (handle c payload) next)
      as (response2 & Hrun2 & Hid2 & _).
    eexists _, response1, _, response2.
    split; [exact Hrun1|]. split; [done|]. split; [exact Hrun2|]. split; [done|].
    clear Hrun1 Hrun2 Hid1 Hid2. intros Hok. rewrite Hok in Hdata1.
    destruct (handleRequest_try _ _ _ c payload) as [c1 [[d0 b]|thrown]] eqn:Htry;
      cbn in Hdata1 |- *.
    + injection Hdata1 as -> <-.
      destruct (handleRequest_try_returned c payload c1 d0 Htry)
        as (f & arguments & d & Hfound & Hf & ->).
      by exists f, arguments, d.
    + by destruct thrown.
Qed.

End Dispatch.

Section DispatchExample.
Import CoreServerConnection DispatchSpec.

Lemma handleRequest_answers_failures_witness :
  (exists response,
      handleRequest unit example_property example_getTab example_lastCommandId
        open_connection unknown_request
      = emit_message unit open_connection response
      /\ isError response = true
      /\ data response
         = DataError (new_Error "Command not available on tab (fly - undefined)"))
  /\ (exists response o,
        handleRequest unit example_property example_getTab example_lastCommandId
          open_connection throwing_request
        = emit_message unit open_connection response
        /\ isError response = true
        /\ data response = DataObject o
        /\ Obj_get "message" o = Some "Session not found"
        /\ Obj_get "code" o = Some "ERR_NO_SESSION").
Proof.
  destruct (handleRequest_answers_failures unit example_property example_getTab
              example_lastCommandId open_connection unknown_request throwing_request)
    as (Hunknown & _).
  destruct (handleRequest_answers_failures unit example_property example_getTab
              example_lastCommandId open_connection throwing_request unknown_request)
    as (_ & Hthrows & _).
  split.
  - destruct (Hunknown (fun _ => None)) as (response & Hrun & _ & Herr & Hdata);
      [reflexivity | reflexivity | discriminate |].
    exists response. split; [exact Hrun|]. split; [exact Herr|exact Hdata].
  - destruct (Hthrows (fun c _ => (c, Rejected (ThrownError failing_error)))
                open_connection (ThrownError failing_error))
      as (response & Hrun & _ & Herr & o & Hdata & Hpayload);
      [reflexivity | reflexivity |].
    exists response, o. split; [exact Hrun|]. split; [exact Herr|].
    split; [exact Hdata|].
    assert (Hnd : NoDup (error_own failing_error).*1).
    { cbn. apply NoDup_singleton. }
    split; [exact (Hpayload Hnd "message") | exact (Hpayload Hnd "code")].
Defined.

End DispatchExample.

(** ** Theorems: the session pool *)

Section Capacity.
Import GlobalPool PoolSpec.

Lemma length_filter_remove (sid : nat) (l : list nat) :
  NoDup l -> sid ∈ l -> S (length (filter (fun x => x ≠ sid) l)) = length l.
Proof.
  induction l as [|x l IH]; intros Hnd Hin; [by apply elem_of_nil in Hin|].
  apply NoDup_cons in Hnd as [Hx Hnd].
  destruct (decide (x = sid)) as [->|Hne].
  - rewrite filter_cons_False by (intros H; by apply H). cbn. f_equal.
    clear -Hx. induction l as [|y l IH]; [done|].
    apply not_elem_of_cons in Hx as [Hy Hx].
    rewrite filter_cons_True by done. cbn. f_equal. by apply IH.
  - rewrite filter_cons_True by done. cbn. f_equal. apply IH; [done|].
    apply elem_of_cons in Hin as [->|Hin]; [done|done].
Qed.

Lemma createSessionNow_ok (p : Pool) (call : nat) :
  (length (activeSessions p) < maxConcurrentAgentsCount p)%nat ->
  NoDup (activeSessions p) ->
  (forall sid, sid ∈ activeSessions p -> (sid <= sessionCounter p)%nat) ->
  (waitingForAvailability p ≠ [] ->
   S (length (activeSessions p)) = maxConcurrentAgentsCount p) ->
  pool_ok (createSessionNow p call).
Proof.
  intros Hfree Hnd Hids Hfull. unfold pool_ok. cbn.
  rewrite length_app. cbn. split; [lia|]. split; [|split].
  - apply NoDup_app. split; [done|]. split; [|apply NoDup_singleton].
    intros sid Hin Hnew. apply list_elem_of_singleton in Hnew as ->.
    apply Hids in Hin. lia.
  - intros sid [Hin| ->%list_elem_of_singleton]%elem_of_app; [|lia].
    apply Hids in Hin. lia.
  - intros Hne. specialize (Hfull Hne). lia.
Qed.

Lemma step_ok (p : Pool) (e : Event) :
  pool_ok p ->
  pool_ok (step p e)
  /\ maxConcurrentAgentsCount (step p e) = maxConcurrentAgentsCount p.
Proof.
  intros Hok. pose proof Hok as (Hle & Hnd & Hids & Hwait).
  destruct e as [call|sid]; cbn.
  - unfold createSession. destruct (Nat.leb_spec (maxConcurrentAgentsCount p)
                                      (length (activeSessions p))) as [Hfull|Hfree].
    + split; [|done]. unfold pool_ok. cbn.
      split; [done|]. split; [done|]. split; [done|]. intros _. lia.
    + split; [|done]. apply createSessionNow_ok; [done|done|done|].
      intros Hne. specialize (Hwait Hne). lia.
  - unfold closeSession. case_bool_decide as Hin; [|done].
    pose proof (length_filter_remove sid _ Hnd Hin) as Hlen.
    assert (Hnd' : NoDup (filter (fun x => x ≠ sid) (activeSessions p)))
      by by apply NoDup_filter.
    assert (Hids' : forall x, x ∈ filter (fun x => x ≠ sid) (activeSessions p) ->
                              (x <= sessionCounter p)%nat).
    { intros x [_ Hx]%list_elem_of_filter. by apply Hids. }
    cbn [waitingForAvailability]. destruct (waitingForAvailability p) as [|call rest] eqn:Hq.
    + split; [|done]. unfold pool_ok. cbn.
      split; [lia|]. split; [done|]. split; [done|]. done.
    + split; [|done]. apply createSessionNow_ok; cbn.
      * lia.
      * done.
      * done.
      * intros _. specialize (Hwait ltac:(done)). lia.
Qed.

Lemma run_ok (k : nat) (events : list Event) :
  pool_ok (run k events) /\ maxConcurrentAgentsCount (run k events) = k.
Proof.
  unfold run.
  assert (Hgen : forall p, pool_ok p ->
             pool_ok (fold_left step events p)
             /\ maxConcurrentAgentsCount (fold_left step events p)
                = maxConcurrentAgentsCount p).
  { induction events as [|e events IH]; intros p Hok; [done|]. cbn.
    destruct (step_ok p e Hok) as [Hok' Hmax].
    destruct (IH _ Hok') as [Hok'' Hmax']. split; [done|]. congruence. }
  apply Hgen. unfold pool_ok, GlobalPool.new. cbn.
  split; [lia|]. split; [apply NoDup_nil_2|]. split; [|done].
  intros sid Hin. by apply elem_of_nil in Hin.
Qed.

End Capacity.

Section Admission.
Import GlobalPool PoolSpec.

(** C1.  For a pool of capacity [k] and any interleaving of [createSession]
    calls and session closes, in the state reached:
    - at most [k] sessions are open;
    - a [createSession] that finds [k] sessions open is queued: no session
      is opened and no call resolves;
    - a queued call that resolves in the next step resolves at the close of
      an open session;
    - the close of an open session hands its slot to the oldest queued call:
      that call resolves with a session that is then open, [k] sessions being
      open again. *)
Theorem pool_never_exceeds_capacity (k : nat) (events : list Event) :
  let p := run k events in
  (length (activeSessions p) <= k)%nat
  /\ (forall call,
        length (activeSessions p) = k ->
        let p' := createSession p call in
        waitingForAvailability p' = waitingForAvailability p ++ [call]
        /\ activeSessions p' = activeSessions p
        /\ completed p' = completed p)
  /\ (forall call e,
        call ∈ waitingForAvailability p ->
        ¬ resolved p call ->
        e ≠ CreateSession call ->
        resolved (step p e) call ->
        exists closed, e = CloseSession closed /\ closed ∈ activeSessions p)
  /\ (forall closed call rest,
        closed ∈ activeSessions p ->
        waitingForAvailability p = call :: rest ->
        let p' := closeSession p closed in
        exists sid,
          completed p' = completed p ++ [(call, sid)]
          /\ sid ∈ activeSessions p'
          /\ (closed ∉ activeSessions p')
          /\ waitingForAvailability p' = rest
          /\ length (activeSessions p') = k).
Proof.
  intros p. destruct (run_ok k events) as [Hok Hmax]. fold p in Hok, Hmax.
  destruct Hok as (Hle & Hnd & Hids & Hwait).
  split; [lia|]. split; [|split].
  - intros call Hfull. unfold createSession.
    by rewrite (proj2 (Nat.leb_le _ _)) by lia.
  - intros call e Hin Hnot Hne [sid Hdone].
    destruct e as [call'|closed]; cbn in Hdone.
    + exfalso. unfold createSession in Hdone.
      destruct (_ <=? _)%nat; cbn in Hdone.
      * apply Hnot. by exists sid.
      * apply elem_of_app in Hdone as [Hdone|Hdone]; [apply Hnot; by exists sid|].
        apply list_elem_of_singleton in Hdone. congruence.
    + exists closed. split; [done|]. unfold closeSession in Hdone.
      case_bool_decide; [done|]. exfalso. apply Hnot. by exists sid.
  - intros closed call rest Hin Hq. unfold closeSession.
    rewrite bool_decide_eq_true_2 by done. cbn [waitingForAvailability]. rewrite Hq.
    pose proof (length_filter_remove closed _ Hnd Hin) as Hlen.
    exists (S (sessionCounter p)). cbn.
    split; [done|]. split; [apply elem_of_app; right; left|]. split; [|split; [done|]].
    + intros [Hold|Hnew]%elem_of_app.
      * by apply list_elem_of_filter in Hold as [? _].
      * apply list_elem_of_singleton in Hnew. apply Hids in Hin. lia.
    + rewrite length_app. cbn. rewrite Hq in Hwait. specialize (Hwait ltac:(done)). lia.
Qed.

(** Capacity 2 and three calls: the third waits until session 1 closes. *)
Lemma pool_never_exceeds_capacity_witness :
  let p := run 2 [CreateSession 10; CreateSession 11; CreateSession 12] in
  activeSessions p = [1; 2]%nat
  /\ waitingForAvailability p = [12%nat]
  /\ completed p = [(10, 1); (11, 2)]%nat
  /\ exists sid,
       completed (closeSession p 1%nat) = completed p ++ [(12%nat, sid)]
       /\ length (activeSessions (closeSession p 1%nat)) = 2%nat.
Proof.
  cbv zeta.
  destruct (pool_never_exceeds_capacity 2
              [CreateSession 10; CreateSession 11; CreateSession 12]%nat)
    as (_ & _ & _ & Hclose).
  split; [reflexivity|]. split; [reflexivity|]. split; [reflexivity|].
  destruct (Hclose 1%nat 12%nat []) as (sid & Hdone & _ & _ & _ & Hlen).
  - vm_compute. left.
  - reflexivity.
  - exists sid. split; [exact Hdone|exact Hlen].
Defined.

End Admission.

(** ** More theorems: the location tracker *)

Section StatusChangeEdges.
Import LocationTracker TrackerSpec TrackerRun.

(** X1.  The handler of 'status-change' never throws, whatever the tracker
    and the status: it leaves the navigations, the anchor and the trigger
    waiters alone, and every pipeline queue is afterwards either as it was or
    empty.  An event whose status is not past the current step calls nobody
    and changes nothing. *)
Theorem status_change_never_throws (t : LocationTracker) (newStatus : PipelineStatus) :
  (exists t' called,
      onPipelineStatusChange t newStatus = Some (t', called)
      /\ navigations t' = navigations t
      /\ defaultWaitForLocationCommandId t' = defaultWaitForLocationCommandId t
      /\ promises t' = promises t
      /\ (forall g, waitForCbs t' (Trigger g) = waitForCbs t (Trigger g))
      /\ (forall p, waitForCbs t' (Pipeline p) = waitForCbs t (Pipeline p)
                    \/ waitForCbs t' (Pipeline p) = [])
      /\ (forall r, r ∈ called -> exists p, r ∈ waitForCbs t (Pipeline p)))
  /\ ((getStepByStatus newStatus <= currentStep t)%nat ->
      onPipelineStatusChange t newStatus = Some (t, [])).
Proof.
  split.
  - destruct (onPipelineStatusChange_spec t newStatus)
      as (t' & Hrun & Hnav & Hanchor & Hprom & Hcbs).
    eexists _, _. split; [exact Hrun|]. split; [done|]. split; [done|].
    split; [done|]. split; [intros g; apply (Hcbs (Trigger g))|]. split.
    + intros p. rewrite (Hcbs (Pipeline p)). destruct (notifies _ _ p); auto.
    + intros r Hr. apply elem_of_concat_map in Hr as (p & _ & Hr). by exists p.
  - intros Hle. unfold onPipelineStatusChange.
    rewrite (proj2 (Nat.ltb_ge _ _) Hle). by rewrite Nat.sub_diag.
Qed.

Lemma status_change_never_throws_witness :
  onPipelineStatusChange tracker_at_HttpRequested NavigationRequested
  = Some (tracker_at_HttpRequested, []).
Proof.
  destruct (status_change_never_throws tracker_at_HttpRequested NavigationRequested)
    as [_ Hstale].
  apply Hstale. vm_compute. lia.
Defined.

(** X2.  [waitFor('READY')]: on a tab without navigation it returns at once,
    where [waitFor('DomContentLoaded')] would wait; on a tab with a
    navigation it is [waitFor('DomContentLoaded')]: it returns at once when
    the navigation is at DomContentLoaded or past it, and otherwise queues a
    resolver that the first status change to DomContentLoaded or
    AllContentLoaded calls. *)
Theorem waitFor_READY_is_DomContentLoaded
    (t : LocationTracker) (since : option Z) (inclusive : option bool) :
  (top (navigations t) = None ->
   waitFor t "READY" since inclusive = (t, Returned)
   /\ (waitFor t "DomContentLoaded" since inclusive).2 = Pending (promises t))
  /\ (top (navigations t) ≠ None ->
      waitFor t "READY" since inclusive
      = waitFor t "DomContentLoaded" since inclusive
      /\ ((getStepByStatus DomContentLoaded <= currentStep t)%nat ->
          waitFor t "READY" since inclusive = (t, Returned))
      /\ ((currentStep t < getStepByStatus DomContentLoaded)%nat ->
          exists t1,
            waitFor t "READY" since inclusive = (t1, Pending (promises t))
            /\ waitForCbs t1 (Pipeline DomContentLoaded)
               = waitForCbs t (Pipeline DomContentLoaded) ++ [promises t]
            /\ forall newStatus,
                 (getStepByStatus DomContentLoaded <= getStepByStatus newStatus)%nat ->
                 exists t2 called,
                   onPipelineStatusChange t1 newStatus = Some (t2, called)
                   /\ promises t ∈ called
                   /\ waitForCbs t2 (Pipeline DomContentLoaded) = [])).
Proof.
  split.
  - intros Htop. split.
    + unfold waitFor. cbn. by rewrite bool_decide_eq_true_2.
    + rewrite (waitFor_pipeline t DomContentLoaded).
      unfold currentStep. rewrite Htop. done.
  - intros Htop.
    assert (Heq : waitFor t "READY" since inclusive
                  = waitFor t "DomContentLoaded" since inclusive).
    { unfold waitFor. cbn. by rewrite bool_decide_eq_false_2. }
    split; [done|]. rewrite Heq. rewrite (waitFor_pipeline t DomContentLoaded).
    split.
    + intros Hle. by rewrite (proj2 (Nat.leb_le _ _) Hle).
    + intros Hlt. rewrite (proj2 (Nat.leb_gt _ _) Hlt). cbn [andb].
      eexists. split; [reflexivity|]. cbn [waitForCbs].
      split; [by rewrite decide_True|].
      intros newStatus Hnew.
      match goal with |- context [onPipelineStatusChange ?x _] => set (t1 := x) end.
      destruct (onPipelineStatusChange_spec t1 newStatus)
        as (t2 & Hrun & _ & _ & _ & Hcbs).
      assert (Hstep : currentStep t1 = currentStep t) by done.
      rewrite Hstep in Hrun, Hcbs.
      assert (Hn : notifies (currentStep t)
                     (Nat.max (currentStep t) (getStepByStatus newStatus))
                     DomContentLoaded = true).
      { unfold notifies. rewrite (proj2 (Nat.ltb_lt _ _) Hlt).
        rewrite (proj2 (Nat.leb_le _ _)) by lia. done. }
      eexists _, _. split; [exact Hrun|]. split.
      * assert (Hin : DomContentLoaded
                      ∈ notified (currentStep t)
                          (Nat.max (currentStep t) (getStepByStatus newStatus))).
        { unfold notified. rewrite list_elem_of_In, List.filter_In, <- list_elem_of_In.
          split; [apply elem_of_PipelineStatus_keys | done]. }
        revert Hin. generalize (notified (currentStep t)
                          (Nat.max (currentStep t) (getStepByStatus newStatus))).
        intros l Hin. induction l as [|p l IH]; [by apply elem_of_nil in Hin|].
        cbn [map concat]. apply elem_of_app.
        apply elem_of_cons in Hin as [<-|Hin].
        -- left. subst t1. cbn [waitForCbs]. rewrite decide_True by done.
           apply elem_of_app. right. left.
        -- right. by apply IH.
      * by rewrite (Hcbs (Pipeline DomContentLoaded)), Hn.
Qed.

Lemma waitFor_READY_is_DomContentLoaded_witness :
  waitFor (LocationTracker.new {| history := [] |}) "READY" None None
  = (LocationTracker.new {| history := [] |}, Returned)
  /\ (waitFor tracker_at_HttpRequested "READY" None None).2 = Pending 0%nat.
Proof.
  destruct (waitFor_READY_is_DomContentLoaded
              (LocationTracker.new {| history := [] |}) None None) as [Hnone _].
  destruct (waitFor_READY_is_DomContentLoaded tracker_at_HttpRequested None None)
    as [_ Hsome].
  split.
  - by apply Hnone.
  - destruct Hsome as (_ & _ & Hlater); [done|].
    destruct Hlater as (t1 & -> & _); [vm_compute; lia | done].
Defined.

End StatusChangeEdges.

Section TriggerWaits.
Import LocationTracker TrackerSpec TrackerRun.

(** X3.  [waitFor] of a trigger returns at once, leaving the tracker as it
    is, exactly when the history holds a navigation of that trigger that
    started at or after the anchor (after it, when the anchor is not
    included), the anchor being [sinceCommandId] or, without one, the default
    the tracker keeps.  In every other case it queues one new resolver behind
    those waiting for the trigger and changes nothing else. *)
Theorem waitFor_trigger_returns_iff
    (t : LocationTracker) (g : LocationTrigger)
    (since : option Z) (inclusive : option bool) :
  let anchor := default (defaultWaitForLocationCommandId t) since in
  let found :=
    exists nav, nav ∈ history (navigations t)
                /\ since_command anchor (default true inclusive) nav
                /\ has_trigger g nav = true in
  (found -> waitFor t (status_name (Trigger g)) since inclusive = (t, Returned))
  /\ (¬ found ->
      exists t1,
        waitFor t (status_name (Trigger g)) since inclusive
        = (t1, Pending (promises t))
        /\ waitForCbs t1 (Trigger g) = waitForCbs t (Trigger g) ++ [promises t]
        /\ (forall st, st ≠ Trigger g -> waitForCbs t1 st = waitForCbs t st)
        /\ navigations t1 = navigations t
        /\ defaultWaitForLocationCommandId t1 = defaultWaitForLocationCommandId t).
Proof.
  intros anchor found. rewrite waitFor_trigger. fold anchor.
  assert (Hiff : hasTriggerSinceCommand t g anchor (default true inclusive) = true
                 <-> found).
  { unfold hasTriggerSinceCommand. rewrite hasTriggerSinceCommand_loop_true.
    unfold found, since_command, has_trigger.
    split; intros (nav & Hin & Hs & Hg); exists nav; (split; [done|]); (split; [done|]).
    - by apply bool_decide_eq_true.
    - by apply bool_decide_eq_true in Hg. }
  split.
  - intros Hfound. by rewrite (proj2 Hiff Hfound).
  - intros Hnot. destruct (hasTriggerSinceCommand _ _ _ _); [by destruct Hnot; apply Hiff|].
    eexists. split; [reflexivity|]. cbn.
    split; [by rewrite decide_True|].
    split; [intros st Hst; by rewrite decide_False|done].
Qed.

Lemma waitFor_trigger_returns_iff_witness :
  waitFor tracker_after_reload "reload" None None = (tracker_after_reload, Returned)
  /\ exists t1, waitFor tracker_after_reload "reload" (Some 4) None
                = (t1, Pending 2%nat).
Proof.
  destruct (waitFor_trigger_returns_iff tracker_after_reload reload None None)
    as [Hfound _].
  destruct (waitFor_trigger_returns_iff tracker_after_reload reload (Some 4) None)
    as [_ Hnone].
  split.
  - apply Hfound. eexists. split; [left|]. split; [cbn; lia | reflexivity].
  - destruct Hnone as (t1 & Hwait & _).
    + intros (nav & Hin & Hs & _). apply list_elem_of_singleton in Hin as ->.
      cbn in Hs. lia.
    + by exists t1.
Defined.

(** X4.  A trigger wait that returns at once keeps doing so: with an earlier
    anchor, with the anchor included where it was excluded, and after any
    navigations have been appended to the history. *)
Theorem trigger_wait_stays_satisfied
    (t t' : LocationTracker) (g : LocationTrigger) (anchor anchor' : Z)
    (inclusive inclusive' : bool) (more : list INavigation) :
  waitFor t (status_name (Trigger g)) (Some anchor) (Some inclusive) = (t, Returned) ->
  anchor' <= anchor ->
  (inclusive = true -> inclusive' = true) ->
  history (navigations t') = history (navigations t) ++ more ->
  waitFor t' (status_name (Trigger g)) (Some anchor') (Some inclusive')
  = (t', Returned).
Proof.
  intros Hwait Hle Hincl Hhist. rewrite waitFor_trigger in Hwait |- *. cbn in *.
  destruct (hasTriggerSinceCommand t g anchor inclusive) eqn:Hfound;
    [|by injection Hwait].
  replace (hasTriggerSinceCommand t' g anchor' inclusive') with true; [done|].
  symmetry. unfold hasTriggerSinceCommand in *.
  apply hasTriggerSinceCommand_loop_true in Hfound as (nav & Hin & Hs & Hg).
  apply hasTriggerSinceCommand_loop_true. exists nav.
  split; [rewrite Hhist; apply elem_of_app; by left|]. split; [|done].
  destruct inclusive, inclusive'; try lia; by specialize (Hincl eq_refl).
Qed.

Lemma trigger_wait_stays_satisfied_witness :
  waitFor
    {| defaultWaitForLocationCommandId := 0;
       navigations :=
         {| history := history (navigations tracker_after_reload)
                       ++ [ {| navigationReason := "goto"; startCommandId := 9;
                               initiatedTime := 90; stateChanges := [] |} ] |};
       waitForCbs := fun _ => [];
       promises := 0 |}
    "reload" (Some 1) (Some true)
  = ({| defaultWaitForLocationCommandId := 0;
        navigations :=
          {| history := history (navigations tracker_after_reload)
                        ++ [ {| navigationReason := "goto"; startCommandId := 9;
                                initiatedTime := 90; stateChanges := [] |} ] |};
        waitForCbs := fun _ => [];
        promises := 0 |}, Returned).
Proof.
  apply (trigger_wait_stays_satisfied tracker_after_reload _ reload 2 1 false true
           [ {| navigationReason := "goto"; startCommandId := 9;
                initiatedTime := 90; stateChanges := [] |} ]).
  - reflexivity.
  - lia.
  - done.
  - reflexivity.
Defined.

Lemma navigate_all_not_queued (requests : list INavigation) (t : LocationTracker)
    (r : Resolver) :
  (forall st, r ∉ waitForCbs t st) ->
  calls r (navigate_all t requests).2 = 0%nat.
Proof.
  revert t. induction requests as [|nav requests IH]; intros t Hno; [done|].
  cbn [navigate_all]. unfold onNavigation.
  destruct (String.eqb (navigationReason nav) "newTab").
  - specialize (IH t Hno). destruct (navigate_all t requests). cbn [fst snd] in *. done.
  - destruct (getTriggerForNavigationReason (navigationReason nav)) as [g'|].
    + rewrite runWaitForCbs_spec.
      specialize (IH (set_waitForCbs t (Trigger g') [])).
      destruct (navigate_all _ requests) as [t2 called2]. cbn [fst snd] in *.
      rewrite calls_app, IH, calls_not_elem; [done|apply Hno|].
      intros st. cbn. case_decide; [apply not_elem_of_nil|apply Hno].
    + specialize (IH t Hno). destruct (navigate_all t requests). cbn [fst snd] in *. done.
Qed.

(** X5.  A resolver queued once, for trigger [g] only: over any sequence of
    navigation requests it is called exactly once when one of them is a
    navigation of trigger [g] (httpHeaderRefresh, metaTagRefresh or reload
    for 'reload'; any other reason but newTab for 'change'), and it is not
    called, and still waits, when none is. *)
Theorem trigger_waiter_released_once
    (t : LocationTracker) (g : LocationTrigger) (r : Resolver)
    (requests : list INavigation) :
  calls r (waitForCbs t (Trigger g)) = 1%nat ->
  (forall st, st ≠ Trigger g -> r ∉ waitForCbs t st) ->
  calls r (navigate_all t requests).2
  = (if existsb (has_trigger g) requests then 1 else 0)%nat
  /\ (existsb (has_trigger g) requests = false ->
      waitForCbs (navigate_all t requests).1 (Trigger g) = waitForCbs t (Trigger g)).
Proof.
  revert t. induction requests as [|nav requests IH]; intros t Hone Hother; [done|].
  cbn [navigate_all existsb]. unfold onNavigation, has_trigger at 1 3.
  destruct (String.eqb_spec (navigationReason nav) "newTab") as [Hnew|Hnew].
  { assert (Hg : getTriggerForNavigationReason (navigationReason nav) = None)
      by by rewrite Hnew.
    rewrite Hg, bool_decide_eq_false_2 by done. cbn [orb].
    specialize (IH t Hone Hother). by destruct (navigate_all t requests). }
  destruct (getTriggerForNavigationReason (navigationReason nav)) as [g'|] eqn:Hg.
  2:{ rewrite bool_decide_eq_false_2 by done. cbn [orb].
      specialize (IH t Hone Hother). by destruct (navigate_all t requests). }
  rewrite runWaitForCbs_spec. destruct (decide (g' = g)) as [->|Hne].
  - rewrite bool_decide_eq_true_2 by done. cbn [orb].
    pose proof (navigate_all_not_queued requests (set_waitForCbs t (Trigger g) []) r)
      as Hzero.
    destruct (navigate_all _ requests) as [t2 called2]. cbn [fst snd] in *.
    split; [|done]. rewrite calls_app, Hone, Hzero; [done|].
    intros st. cbn. case_decide as Hst; [apply not_elem_of_nil|by apply Hother].
  - rewrite bool_decide_eq_false_2 by congruence. cbn [orb].
    destruct (IH (set_waitForCbs t (Trigger g') [])) as [Hcount Hstill].
    + cbn. by rewrite decide_False by congruence.
    + intros st Hst. cbn. case_decide; [apply not_elem_of_nil|by apply Hother].
    + destruct (navigate_all _ requests) as [t2 called2]. cbn [fst snd] in *.
      rewrite calls_app, Hcount, calls_not_elem by (apply Hother; congruence).
      split; [done|]. intros Hnone. rewrite (Hstill Hnone).
      cbn. by rewrite decide_False by congruence.
Qed.

Lemma trigger_waiter_released_once_witness :
  calls 1%nat
    (navigate_all tracker_after_reload
       [ {| navigationReason := "newTab"; startCommandId := 4;
            initiatedTime := 40; stateChanges := [] |};
         {| navigationReason := "reload"; startCommandId := 5;
            initiatedTime := 50; stateChanges := [] |};
         {| navigationReason := "userGesture"; startCommandId := 6;
            initiatedTime := 60; stateChanges := [] |};
         {| navigationReason := "goto"; startCommandId := 7;
            initiatedTime := 70; stateChanges := [] |} ]).2
  = 1%nat.
Proof.
  refine (proj1 (trigger_waiter_released_once tracker_after_reload change 1%nat
                   _ _ _)).
  - reflexivity.
  - intros [[]|[]] Hst; cbn; try apply not_elem_of_nil; try done.
    apply not_elem_of_cons. split; [done|apply not_elem_of_nil].
Defined.

End TriggerWaits.

Section NoDoubleCall.
Import LocationTracker TrackerSpec TrackerRun.

Lemma NoDup_LocationStatus_members : NoDup LocationStatus_members.
Proof.
  unfold LocationStatus_members.
  repeat (apply NoDup_cons; split;
          [rewrite ?not_elem_of_cons; repeat split;
           (congruence || apply not_elem_of_nil)|]).
  apply NoDup_nil_2.
Qed.

Lemma elem_of_LocationStatus_members (s : ILocationStatus) : s ∈ LocationStatus_members.
Proof. destruct s as [[]|[]]; unfold LocationStatus_members; repeat constructor. Qed.

Lemma concat_map_same (f f' : ILocationStatus -> list Resolver) (l : list ILocationStatus) :
  (forall s, s ∈ l -> f' s = f s) -> concat (map f' l) = concat (map f l).
Proof.
  induction l as [|a l IH]; intros Hsame; [done|]. cbn.
  rewrite (Hsame a) by left. f_equal. apply IH. intros s Hs. apply Hsame. by right.
Qed.

(** One more resolver in the queue of [s]. *)
Lemma concat_map_push (f : ILocationStatus -> list Resolver) (l : list ILocationStatus)
    (s : ILocationStatus) (x : Resolver) :
  NoDup l -> s ∈ l ->
  concat (map (fun s' => if decide (s' = s) then f s ++ [x] else f s') l)
  ≡ₚ x :: concat (map f l).
Proof.
  induction l as [|a l IH]; intros Hnd Hin; [by apply elem_of_nil in Hin|].
  apply NoDup_cons in Hnd as [Ha Hnd]. cbn [map concat].
  destruct (decide (a = s)) as [->|Hne].
  - rewrite (concat_map_same f); [|intros s' Hs'; rewrite decide_False; [done|congruence]].
    rewrite <- app_assoc. cbn. symmetry. apply Permutation_middle.
  - apply elem_of_cons in Hin as [->|Hin]; [done|].
    rewrite (IH Hnd Hin). symmetry. apply Permutation_middle.
Qed.

(** The queue of [s] taken out. *)
Lemma concat_map_clear (f : ILocationStatus -> list Resolver) (l : list ILocationStatus)
    (s : ILocationStatus) :
  NoDup l -> s ∈ l ->
  concat (map f l)
  ≡ₚ f s ++ concat (map (fun s' => if decide (s' = s) then [] else f s') l).
Proof.
  induction l as [|a l IH]; intros Hnd Hin; [by apply elem_of_nil in Hin|].
  apply NoDup_cons in Hnd as [Ha Hnd]. cbn [map concat].
  destruct (decide (a = s)) as [->|Hne].
  - cbn [app]. f_equiv.
    rewrite (concat_map_same f (fun s' => if decide (s' = s) then [] else f s'));
      [done|].
    intros s' Hs'. rewrite decide_False; [done|congruence].
  - apply elem_of_cons in Hin as [->|Hin]; [done|].
    rewrite (IH Hnd Hin). apply Permutation_app_swap_app.
Qed.

(** The queues of the statuses chosen by [b] taken out. *)
Lemma concat_map_split (f : PipelineStatus -> list Resolver) (b : PipelineStatus -> bool)
    (l : list PipelineStatus) :
  concat (map f l)
  ≡ₚ concat (map f (List.filter b l))
     ++ concat (map (fun p => if b p then [] else f p) l).
Proof.
  induction l as [|a l IH]; [done|]. cbn [map concat List.filter].
  destruct (b a); cbn [map concat app].
  - rewrite <- app_assoc. by f_equiv.
  - rewrite IH at 1. apply Permutation_app_swap_app.
Qed.

(** What [waitFor] can do, for every tracker and argument: return, throw,
    or queue the next promise's resolver for one status. *)
Lemma waitFor_cases (t : LocationTracker) (status : string)
    (since : option Z) (inclusive : option bool) :
  (waitFor t status since inclusive).1 = t
  \/ exists s,
       waitFor t status since inclusive
       = ({| defaultWaitForLocationCommandId := defaultWaitForLocationCommandId t;
             navigations := navigations t;
             waitForCbs := fun s' =>
               if decide (s' = s) then waitForCbs t s ++ [promises t]
               else waitForCbs t s';
             promises := S (promises t) |},
          Pending (promises t)).
Proof.
  unfold waitFor.
  destruct (_ && bool_decide _); [by left|].
  destruct (LocationStatus_lookup _) as [s| |]; [|by left|by left].
  destruct (match LocationTrigger_lookup s with Some _ => _ | None => _ end); [by left|].
  destruct (match s with Pipeline _ => _ | Trigger _ => _ end); [by left|].
  right. by exists s.
Qed.

Lemma tracker_ok_perm (t t' : LocationTracker) (called called' : list Resolver) :
  tracker_ok t called ->
  called' ++ all_waiting t' ≡ₚ called ++ all_waiting t ->
  (promises t <= promises t')%nat ->
  tracker_ok t' called'.
Proof.
  intros [Hnd Hlt] Hperm Hle. split.
  - by rewrite Hperm.
  - intros r Hr. rewrite Hperm in Hr. apply Hlt in Hr. lia.
Qed.

(** Every operation keeps [tracker_ok], and none throws. *)
Lemma step_ok_tracker (t : LocationTracker) (called : list Resolver) (op : Op) :
  tracker_ok t called ->
  exists t' called',
    step t op = Some (t', called') /\ tracker_ok t' (called ++ called').
Proof.
  intros Hok. destruct op as [status since inclusive|c prev|lifecycle|newStatus|n];
    cbn [step].
  - eexists _, []. split; [reflexivity|]. rewrite app_nil_r.
    destruct (waitFor_cases t status since inclusive) as [->|[s ->]]; [done|].
    cbn [fst]. destruct Hok as [Hnd Hlt]. unfold tracker_ok, all_waiting. cbn.
    pose proof (concat_map_push (waitForCbs t) LocationStatus_members s (promises t)
                  NoDup_LocationStatus_members (elem_of_LocationStatus_members s))
      as Hperm.
    split.
    + rewrite Hperm. rewrite <- Permutation_middle. apply NoDup_cons. split; [|done].
      intros Hin. apply Hlt in Hin. lia.
    + intros r Hr. rewrite Hperm, <- Permutation_middle in Hr.
      apply elem_of_cons in Hr as [->|Hr]; [lia|]. apply Hlt in Hr. lia.
  - eexists _, []. split; [reflexivity|]. rewrite app_nil_r.
    unfold willRunCommand. by destruct (fold_left _ _ _).
  - unfold onNavigation.
    destruct (String.eqb _ _); [eexists _, []; by rewrite app_nil_r|].
    destruct (getTriggerForNavigationReason _) as [g|];
      [|eexists _, []; by rewrite app_nil_r].
    rewrite runWaitForCbs_spec. eexists _, _. split; [reflexivity|].
    apply (tracker_ok_perm t _ called); [done| |done].
    unfold all_waiting at 1. cbn [set_waitForCbs waitForCbs].
    rewrite <- app_assoc. f_equiv. symmetry.
    apply concat_map_clear;
      [apply NoDup_LocationStatus_members | apply elem_of_LocationStatus_members].
  - destruct (onPipelineStatusChange_spec t newStatus)
      as (t' & Hrun & _ & _ & Hprom & Hcbs).
    eexists _, _. split; [exact Hrun|].
    apply (tracker_ok_perm t _ called); [done| |lia].
    rewrite <- app_assoc. f_equiv.
    set (b := notifies (currentStep t)
                (Nat.max (currentStep t) (getStepByStatus newStatus))) in *.
    change (all_waiting t')
      with (waitForCbs t' (Trigger reload) ++ waitForCbs t' (Trigger change)
            ++ concat (map (fun p => waitForCbs t' (Pipeline p)) PipelineStatus_keys)).
    change (all_waiting t)
      with (waitForCbs t (Trigger reload) ++ waitForCbs t (Trigger change)
            ++ concat (map (fun p => waitForCbs t (Pipeline p)) PipelineStatus_keys)).
    rewrite (Hcbs (Trigger reload)), (Hcbs (Trigger change)).
    assert (Hq : map (fun p => waitForCbs t' (Pipeline p)) PipelineStatus_keys
                 = map (fun p => if b p then [] else waitForCbs t (Pipeline p))
                     PipelineStatus_keys).
    { apply map_ext. intros p. apply (Hcbs (Pipeline p)). }
    rewrite Hq.
    pose proof (concat_map_split (fun p => waitForCbs t (Pipeline p)) b
                  PipelineStatus_keys) as Hall.
    rewrite Hall. unfold notified. fold b.
    rewrite !(app_assoc (waitForCbs t (Trigger reload))).
    apply Permutation_app_swap_app.
  - eexists _, []. split; [reflexivity|]. by rewrite app_nil_r.
Qed.

Lemma run_ok_tracker (ops : list Op) (t : LocationTracker) (called : list Resolver) :
  tracker_ok t called ->
  exists t' called',
    run t ops = Some (t', called') /\ tracker_ok t' (called ++ called').
Proof.
  revert t called. induction ops as [|op ops IH]; intros t called Hok.
  - exists t, []. by rewrite app_nil_r.
  - destruct (step_ok_tracker t called op Hok) as (t1 & called1 & Hstep & Hok1).
    destruct (IH t1 _ Hok1) as (t2 & called2 & Hrun & Hok2).
    cbn [run]. rewrite Hstep. cbn. rewrite Hrun. cbn.
    eexists _, _. split; [reflexivity|]. by rewrite app_assoc.
Qed.

(** X6.  From its construction on, whatever the calls of [waitFor] and
    [willRunCommand], the navigation requests, the status changes and the
    changes of the navigations, in any order and number: no handler throws,
    no resolver is called twice, a resolver that was called is not waiting
    any more, no resolver waits in two queues or twice in one, and every
    resolver called or waiting belongs to a promise [waitFor] has created. *)
Theorem no_resolver_called_twice (n : TabNavigations) (ops : list Op) :
  exists t called,
    run (LocationTracker.new n) ops = Some (t, called)
    /\ NoDup called
    /\ NoDup (all_waiting t)
    /\ (forall r, r ∈ called -> r ∉ all_waiting t)
    /\ (forall r, r ∈ called \/ r ∈ all_waiting t -> (r < promises t)%nat).
Proof.
  destruct (run_ok_tracker ops (LocationTracker.new n) [])
    as (t & called & Hrun & Hnd & Hlt).
  { split; [apply NoDup_nil_2|]. intros r Hr. by apply elem_of_nil in Hr. }
  cbn [app] in Hnd, Hlt. apply NoDup_app in Hnd as (Hc & Hdisj & Hw).
  exists t, called. split; [done|]. split; [done|]. split; [done|].
  split; [done|]. intros r Hr. apply Hlt, elem_of_app. done.
Qed.

End NoDoubleCall.

Section AnchorFacts.
Import LocationTracker TrackerSpec TrackerRun.

Lemma last_marker_elem (cmds : list ICommandMeta) (l : option ICommandMeta) (a : Z) :
  last_marker l cmds = Some a -> exists c, c ∈ cmds /\ a = id c.
Proof.
  revert l. induction cmds as [|c cmds IH]; intros l; cbn; [done|].
  destruct (last_marker (Some c) cmds) as [a'|] eqn:Hrest.
  - intros [= <-]. destruct (IH _ Hrest) as (c' & Hin & ->).
    exists c'. split; [by right|done].
  - destruct (is_marker l c); [|done]. intros [= <-]. exists c. split; [left|done].
Qed.

Lemma last_marker_goto (cmds : list ICommandMeta) (l : option ICommandMeta)
    (c : ICommandMeta) :
  last cmds = Some c -> name c = "goto" -> last_marker l cmds = Some (id c).
Proof.
  revert l. induction cmds as [|c' cmds IH]; intros l Hlast Hgoto; [done|].
  cbn [last_marker]. destruct cmds as [|c'' cmds].
  - injection Hlast as ->. cbn. unfold is_marker. by rewrite Hgoto.
  - change (last (c' :: c'' :: cmds)) with (last (c'' :: cmds)) in Hlast.
    by rewrite (IH _ Hlast Hgoto).
Qed.

(** X7.  The anchor [willRunCommand] leaves is never an id of its own
    making: it is the anchor it found, the id of one of the previous
    commands, or the id of the new command.  Without previous commands the
    anchor is kept.  When the last previous command is a 'goto', the anchor is
    the id of that 'goto', whatever the new command.  Running it again with
    the same arguments changes nothing more. *)
Theorem willRunCommand_anchor_provenance
    (t : LocationTracker) (newCommand : ICommandMeta)
    (previousCommands : list ICommandMeta) :
  let t' := willRunCommand t newCommand previousCommands in
  (defaultWaitForLocationCommandId t' = defaultWaitForLocationCommandId t
   \/ defaultWaitForLocationCommandId t' = id newCommand
   \/ exists c, c ∈ previousCommands /\ defaultWaitForLocationCommandId t' = id c)
  /\ (previousCommands = [] ->
      defaultWaitForLocationCommandId t' = defaultWaitForLocationCommandId t)
  /\ (forall c, last previousCommands = Some c -> name c = "goto" ->
                defaultWaitForLocationCommandId t' = id c)
  /\ defaultWaitForLocationCommandId (willRunCommand t' newCommand previousCommands)
     = defaultWaitForLocationCommandId t'.
Proof.
  unfold willRunCommand. rewrite willRunCommand_loop. cbn.
  rewrite willRunCommand_loop. cbn.
  set (override := String.eqb (name newCommand) "waitForLocation"
                   && match match last previousCommands with
                            | Some c => Some c | None => None end with
                      | Some l => startsWith (name l) "waitFor"
                      | None => false
                      end).
  split; [|split; [|split]].
  - destruct override; [by right; left|].
    destruct (last_marker None previousCommands) as [a|] eqn:Hm; cbn; [|by left].
    right. right. destruct (last_marker_elem _ _ _ Hm) as (c & Hin & ->). by exists c.
  - intros ->. subst override. cbn. by rewrite andb_false_r.
  - intros c Hlast Hgoto. subst override. rewrite Hlast.
    assert (Hw : startsWith (name c) "waitFor" = false) by by rewrite Hgoto.
    rewrite Hw, andb_false_r. by rewrite (last_marker_goto _ _ _ Hlast Hgoto).
  - destruct override; [done|].
    by destruct (last_marker None previousCommands).
Qed.

Lemma willRunCommand_anchor_provenance_witness :
  defaultWaitForLocationCommandId
    (willRunCommand tracker_after_reload
       {| id := 9; name := "waitForLocation"; startDate := None; endDate := None;
          result := None; resultType := None |}
       [ {| id := 7; name := "waitForElement"; startDate := None; endDate := None;
            result := None; resultType := None |};
         {| id := 8; name := "goto"; startDate := None; endDate := None;
            result := None; resultType := None |} ])
  = 8.
Proof.
  destruct (willRunCommand_anchor_provenance tracker_after_reload
       {| id := 9; name := "waitForLocation"; startDate := None; endDate := None;
          result := None; resultType := None |}
       [ {| id := 7; name := "waitForElement"; startDate := None; endDate := None;
            result := None; resultType := None |};
         {| id := 8; name := "goto"; startDate := None; endDate := None;
            result := None; resultType := None |} ])
    as (_ & _ & Hgoto & _).
  exact (Hgoto _ eq_refl eq_refl).
Defined.

End AnchorFacts.

(** ** More theorems: the session state recorder *)

Section LastSuccess.
Import SessionState SessionSpec SessionRun.

Lemma checkForResponsive_command_cases (acl : option Z) (x : Z) (c : ICommandMeta) :
  let y := checkForResponsive_command acl x c in
  x <= y
  /\ (is_Some acl -> forall e, completed_without_error c e -> e <= y)
  /\ (y = x \/ (is_Some acl /\ completed_without_error c y)).
Proof.
  unfold checkForResponsive_command, completed_without_error.
  destruct (endDate c) as [e|] eqn:Hend.
  2:{ cbn. split; [lia|]. split; [|by left]. by intros _ e [? _]. }
  destruct (bool_decide (is_Some acl)) eqn:Hacl; cbn [andb].
  2:{ cbn. split; [lia|]. split; [|by left].
      intros Hsome. by apply bool_decide_eq_false in Hacl. }
  apply bool_decide_eq_true in Hacl.
  destruct (resultType c) as [rt|] eqn:Hrt.
  - destruct (includes rt "Error") eqn:Hinc; cbn.
    + rewrite andb_false_r. split; [lia|]. split; [|by left].
      intros _ e' [_ Hno]. specialize (Hno rt eq_refl). congruence.
    + rewrite andb_true_r. destruct (Z.ltb_spec x e).
      * split; [lia|]. split; [by intros _ e' [[= <-] _]; lia|].
        right. split; [done|]. split; [done|]. by intros rt' [= <-].
      * split; [lia|]. split; [|by left]. by intros _ e' [[= <-] _].
  - cbn. rewrite andb_true_r. destruct (Z.ltb_spec x e).
    + split; [lia|]. split; [by intros _ e' [[= <-] _]; lia|].
      right. split; [done|]. split; [done|]. done.
    + split; [lia|]. split; [|by left]. by intros _ e' [[= <-] _].
Qed.

Lemma checkForResponsive_commands_cases (acl : option Z) (cmds : list ICommandMeta)
    (x : Z) :
  let y := fold_left (checkForResponsive_command acl) cmds x in
  x <= y
  /\ (is_Some acl ->
      forall c e, c ∈ cmds -> completed_without_error c e -> e <= y)
  /\ (y = x
      \/ (is_Some acl /\ exists c, c ∈ cmds /\ completed_without_error c y)).
Proof.
  revert x. induction cmds as [|c cmds IH]; intros x; cbn.
  - split; [lia|]. split; [|by left]. intros _ c e Hin. by apply elem_of_nil in Hin.
  - destruct (checkForResponsive_command_cases acl x c) as (H1 & H2 & H3).
    destruct (IH (checkForResponsive_command acl x c)) as (I1 & I2 & I3).
    cbn in *. split; [lia|]. split.
    + intros Hacl c' e [->|Hin]%elem_of_cons Hdone.
      * specialize (H2 Hacl e Hdone). lia.
      * by apply (I2 Hacl c').
    + destruct I3 as [->|(Hacl & c' & Hin & Hdone)].
      * destruct H3 as [->|[Hacl Hdone]]; [by left|].
        right. split; [done|]. exists c. split; [left|done].
      * right. split; [done|]. exists c'. split; [by right|done].
Qed.

Lemma checkForResponsive_navigation_cases (cmds : list ICommandMeta)
    (navigation : TabNavigations) (x : Z) :
  let y := checkForResponsive_navigation cmds x navigation in
  x <= y
  /\ (forall nav, top navigation = Some nav -> lastPageTime nav <= y)
  /\ (tab_loaded navigation ->
      forall c e, c ∈ cmds -> completed_without_error c e -> e <= y)
  /\ (y = x
      \/ (exists nav, top navigation = Some nav /\ y = lastPageTime nav)
      \/ (tab_loaded navigation
          /\ exists c, c ∈ cmds /\ completed_without_error c y)).
Proof.
  unfold checkForResponsive_navigation, tab_loaded, lastPageTime.
  set (acl := top navigation ≫= _).
  set (x1 := match match acl with Some t => Some t | None => _ end with
             | Some t => if x <? t then t else x | None => x end).
  destruct (checkForResponsive_commands_cases acl cmds x1) as (H1 & H2 & H3).
  cbn in H1, H2, H3.
  assert (Hx1 : x <= x1
                /\ (forall nav, top navigation = Some nav ->
                      match Map_get AllContentLoaded (stateChanges nav) with
                      | Some t => t | None => initiatedTime nav end <= x1)
                /\ (x1 = x
                    \/ exists nav, top navigation = Some nav
                         /\ x1 = match Map_get AllContentLoaded (stateChanges nav) with
                                 | Some t => t | None => initiatedTime nav end)).
  { subst x1 acl. destruct (top navigation) as [nav|]; cbn.
    - destruct (Map_get AllContentLoaded (stateChanges nav)) as [t|] eqn:Hget; cbn;
        (match goal with |- context [?a <? ?b] => destruct (Z.ltb_spec a b) end;
         (split; [lia|]); (split; [intros nav' [= <-]; rewrite Hget; lia|]);
         [right; exists nav; by rewrite Hget | by left]).
    - split; [lia|]. split; [done|]. by left. }
  destruct Hx1 as (Hx1a & Hx1b & Hx1c).
  assert (Hacl : is_Some acl
                 <-> exists nav t, top navigation = Some nav
                       /\ Map_get AllContentLoaded (stateChanges nav) = Some t).
  { subst acl. destruct (top navigation) as [nav|]; cbn.
    - split.
      + intros [t Ht]. by exists nav, t.
      + intros (nav' & t & [= <-] & Ht). by exists t.
    - split; [by intros [? ?]|]. by intros (? & ? & ? & _). }
  split; [lia|]. split; [intros nav Hn; specialize (Hx1b nav Hn); lia|]. split.
  - intros Hloaded. apply H2. by apply Hacl.
  - destruct H3 as [->|(Hsome & c & Hin & Hdone)].
    + destruct Hx1c as [->|Hpage]; [by left| right; by left].
    + right. right. split; [by apply Hacl|]. by exists c.
Qed.

Lemma lastSuccessDate_fold_cases (cmds : list ICommandMeta)
    (tabs : list (string * TabNavigations)) (x : Z) :
  let y := fold_left (checkForResponsive_navigation cmds) tabs.*2 x in
  x <= y
  /\ (forall tab navigation nav,
        (tab, navigation) ∈ tabs -> top navigation = Some nav ->
        lastPageTime nav <= y)
  /\ ((exists tab navigation, (tab, navigation) ∈ tabs /\ tab_loaded navigation) ->
      forall c e, c ∈ cmds -> completed_without_error c e -> e <= y)
  /\ (y = x
      \/ (exists tab navigation nav,
            (tab, navigation) ∈ tabs /\ top navigation = Some nav
            /\ y = lastPageTime nav)
      \/ ((exists tab navigation, (tab, navigation) ∈ tabs /\ tab_loaded navigation)
          /\ exists c, c ∈ cmds /\ completed_without_error c y)).
Proof.
  revert x. induction tabs as [|[tab0 n0] tabs IH]; intros x.
  - cbn. split; [lia|]. split; [by intros ??? ?%elem_of_nil|].
    split; [by intros (? & ? & ?%elem_of_nil & _)|]. by left.
  - rewrite fmap_cons. cbn [fold_left snd].
    destruct (checkForResponsive_navigation_cases cmds n0 x) as (H1 & H2 & H3 & H4).
    destruct (IH (checkForResponsive_navigation cmds x n0)) as (I1 & I2 & I3 & I4).
    cbn in *. split; [lia|]. split; [|split].
    + intros tab navigation nav [[= -> ->]|Hin]%elem_of_cons Htop.
      * specialize (H2 nav Htop). lia.
      * by apply (I2 tab navigation).
    + intros (tab & navigation & [[= -> ->]|Hin]%elem_of_cons & Hloaded) c e Hc Hdone.
      * specialize (H3 Hloaded c e Hc Hdone). lia.
      * apply (I3 ltac:(by exists tab, navigation) c e Hc Hdone).
    + destruct I4 as [->|[(tab & navigation & nav & Hin & Htop & ->)
                         |((tab & navigation & Hin & Hloaded) & c & Hc & Hdone)]].
      * destruct H4 as [->|[(nav & Htop & ->)|(Hloaded & c & Hc & Hdone)]].
        -- by left.
        -- right. left. exists tab0, n0, nav. split; [left|done].
        -- right. right. split; [exists tab0, n0; split; [left|done]|].
           by exists c.
      * right. left. exists tab, navigation, nav. split; [by right|done].
      * right. right. split; [exists tab, navigation; split; [by right|done]|].
        by exists c.
Qed.

(** X8.  The last success [checkForResponsive] computes is the greatest of
    these times: the creation of the session; for every tab with a
    navigation, the AllContentLoaded of its current navigation or, without
    one, the time it was initiated; and, when the current navigation of some
    tab has reached AllContentLoaded, the end of every command that completed
    without error.  It is one of them and none is later.  So it does not
    depend on the order in which the tabs are enumerated; and the last
    activity reported is never before it. *)
Theorem lastSuccessDate_is_greatest (s : SessionState) :
  success_time s (lastSuccessDate s)
  /\ (forall x, success_time s x -> x <= lastSuccessDate s)
  /\ (forall s',
        navigationsByTabId s' ≡ₚ navigationsByTabId s ->
        createDate s' = createDate s ->
        command_objects s' = command_objects s ->
        lastSuccessDate s' = lastSuccessDate s)
  /\ lastSuccessDate s <= lastActivityDate (checkForResponsive s).
Proof.
  assert (Hg : forall s0, success_time s0 (lastSuccessDate s0)
                 /\ forall x, success_time s0 x -> x <= lastSuccessDate s0).
  { intros s0.
    destruct (lastSuccessDate_fold_cases (command_objects s0) (navigationsByTabId s0)
                (createDate s0)) as (H1 & H2 & H3 & H4).
    fold (lastSuccessDate s0) in H1, H2, H3, H4. split.
    - unfold success_time, some_tab_loaded.
      destruct H4 as [?|[?|?]]; [by left|right; by left|right; by right].
    - intros x [->|[(tab & navigation & nav & Hin & Htop & ->)
                   |(Hloaded & c & Hc & Hdone)]].
      + done.
      + by apply (H2 tab navigation).
      + by apply (H3 Hloaded c). }
  destruct (Hg s) as [Hin Hmax]. split; [done|]. split; [done|]. split.
  - intros s' Hperm Hcreate Hcmds. destruct (Hg s') as [Hin' Hmax'].
    assert (Hsame : forall x, success_time s' x <-> success_time s x).
    { intros x. unfold success_time, some_tab_loaded. rewrite Hcreate, Hcmds.
      by setoid_rewrite Hperm. }
    apply Z.le_antisymm.
    + apply Hmax. by apply Hsame.
    + apply Hmax'. by apply Hsame.
  - unfold checkForResponsive. cbn.
    destruct (lastCommand s) as [c|]; [|lia].
    destruct (match endDate c with Some e => Some e | None => startDate c end);
      [|lia].
    match goal with |- context [?a <? ?b] => destruct (Z.ltb_spec a b) end; lia.
Qed.

End LastSuccess.

Section LogEvents.
Import SessionState SessionSpec SessionRun.

Lemma onLogEvent_spec (s : SessionState) (entry : ILogEntry) :
  let s1 := onLogEvent s entry in
  sessionId s1 = sessionId s
  /\ db_sessionLogs (db s1)
     = db_sessionLogs (db s) ++ (if taken s entry then [entry] else [])
  /\ lastErrorTime s1
     = (if taken s entry && String.eqb (level entry) "error"
        then Some (timestamp entry) else lastErrorTime s)
  /\ lastSuccessDate s1 = lastSuccessDate s
  /\ websocketMessages s1 = websocketMessages s
  /\ db_commands (db s1) = db_commands (db s).
Proof.
  unfold onLogEvent, taken. destruct (_ || _ || _); cbn.
  - by destruct (String.eqb (level entry) "error").
  - by rewrite app_nil_r.
Qed.

(** X9.  Over any sequence of log events the session keeps exactly the
    entries of its own session and those of no session, in order, and drops
    the entries of other sessions.  The last error time afterwards is the
    timestamp of the last kept entry of level 'error', in the order the
    entries came, whatever the timestamps; without one it is as before.
    Logging moves neither the last success nor the commands table. *)
Theorem onLogEvent_keeps_own_entries (s : SessionState) (entries : list ILogEntry) :
  let s' := log_all s entries in
  db_sessionLogs (db s') = db_sessionLogs (db s) ++ List.filter (taken s) entries
  /\ lastErrorTime s'
     = match last (List.filter
                     (fun e => taken s e && String.eqb (level e) "error") entries) with
       | Some e => Some (timestamp e)
       | None => lastErrorTime s
       end
  /\ lastSuccessDate s' = lastSuccessDate s
  /\ db_commands (db s') = db_commands (db s).
Proof.
  unfold log_all. revert s. induction entries as [|e entries IH]; intros s.
  - cbn. by rewrite app_nil_r.
  - cbn [fold_left List.filter].
    destruct (onLogEvent_spec s e) as (Hid & Hlogs & Herr & Hlast & _ & Hdb).
    destruct (IH (onLogEvent s e)) as (I1 & I2 & I3 & I4).
    assert (Htaken : taken (onLogEvent s e) = taken s)
      by (unfold taken; by rewrite Hid).
    rewrite Htaken in I1, I2. cbn zeta in *.
    rewrite I1, I2, I3, I4, Hlogs, Herr, Hlast, Hdb.
    split; [|split; [|done]].
    + destruct (taken s e); cbn; by rewrite <- ?app_assoc, ?app_nil_r.
    + destruct (taken s e && String.eqb (level e) "error").
      * generalize (List.filter
                      (fun e0 => taken s e0 && String.eqb (level e0) "error") entries).
        intros [|e' l]; [done|].
        change (last (e :: e' :: l)) with (last (e' :: l)).
        destruct (last (e' :: l)) eqn:Hl; [done|]. by apply last_None in Hl.
      * reflexivity.
Qed.

End LogEvents.

Section WebsocketCapture.
Import SessionState SessionSpec SessionRun.



Lemma capture_keeps_messages_ok (s : SessionState) (event : WebsocketEvent) :
  messages_ok s ->
  let s' := (captureWebsocketMessage s event).1 in
  messages_ok s'
  /\ browserRequestIdToResources s' = browserRequestIdToResources s
  /\ (websocketMessageIdCounter s'
      = websocketMessageIdCounter s
        + length (registered_events s [event]))%nat
  /\ exists new,
       websocketMessages s' = websocketMessages s ++ new
       /\ length new = length (registered_events s [event])
       /\ forall m, m ∈ new -> (websocketMessageIdCounter s < messageId m)%nat.
Proof.
  intros (Hle & Hinc & Hdb). unfold registered_events, chain. cbn [List.filter].
  unfold captureWebsocketMessage, messages_ok.
  destruct (last _) as [finalRedirect|];
    cbn [fst websocketMessages websocketMessageIdCounter db db_websocketMessages
         browserRequestIdToResources db_websocketMessages_insert length].
  - split; [|split; [done|split; [lia|]]].
    + split; [|split].
      * intros m [Hm| ->%list_elem_of_singleton]%elem_of_app; cbn; [|lia].
        specialize (Hle m Hm). lia.
      * intros i j mi mj Hi Hj Hij.
        destruct (decide (j < length (websocketMessages s))%nat) as [Hj'|Hj'].
        -- rewrite lookup_app_l in Hi, Hj by lia. by eapply Hinc.
        -- rewrite lookup_app_r in Hj by lia.
           apply list_lookup_singleton_Some in Hj as [Hj0 <-]. cbn.
           assert (Hi' : (i < length (websocketMessages s))%nat) by lia.
           rewrite lookup_app_l in Hi by lia.
           assert (mi ∈ websocketMessages s) by by eapply list_elem_of_lookup_2.
           specialize (Hle mi ltac:(done)). lia.
      * by rewrite fmap_app, Hdb.
    + eexists [_]. split; [done|]. split; [done|].
      intros m ->%list_elem_of_singleton. cbn. lia.
  - logger_keeps. cbn [websocketMessages websocketMessageIdCounter
                        browserRequestIdToResources].
    split; [done|]. split; [done|]. split; [lia|]. exists [].
    split; [by rewrite app_nil_r|]. split; [done|]. by intros m ?%elem_of_nil.
Qed.

(** X11.  Over any sequence of captured websocket frames, from a session
    whose messages are numbered in increasing order, none above the counter,
    and mirrored by the table of messages: the same holds afterwards; the
    counter has advanced by the number of frames that belong to a browser
    request with a resource, which is the number of messages added; and every
    message added is numbered above the counter at the start, so no two
    messages of a session share a number. *)
Theorem captured_messages_are_numbered (s : SessionState) (events : list WebsocketEvent) :
  messages_ok s ->
  let s' := capture_all s events in
  messages_ok s'
  /\ (websocketMessageIdCounter s'
      = websocketMessageIdCounter s + length (registered_events s events))%nat
  /\ (exists new,
        websocketMessages s' = websocketMessages s ++ new
        /\ length new = length (registered_events s events)
        /\ forall m, m ∈ new -> (websocketMessageIdCounter s < messageId m)%nat)
  /\ NoDup (messageId <$> websocketMessages s').
Proof.
  intros Hok.
  assert (Hgen : let s' := capture_all s events in
            messages_ok s'
            /\ (websocketMessageIdCounter s'
                = websocketMessageIdCounter s + length (registered_events s events))%nat
            /\ exists new,
                 websocketMessages s' = websocketMessages s ++ new
                 /\ length new = length (registered_events s events)
                 /\ forall m, m ∈ new -> (websocketMessageIdCounter s < messageId m)%nat).
  { revert s Hok. unfold capture_all.
    induction events as [|e events IH]; intros s Hok.
    - cbn. split; [done|]. split; [lia|]. exists [].
      split; [by rewrite app_nil_r|]. split; [done|]. by intros m ?%elem_of_nil.
    - cbn [fold_left].
      destruct (capture_keeps_messages_ok s e Hok)
        as (Hok1 & Hmap & Hcount1 & new1 & Hm1 & Hlen1 & Hnew1).
      destruct (IH _ Hok1) as (Hok2 & Hcount2 & new2 & Hm2 & Hlen2 & Hnew2).
      cbn zeta in *.
      assert (Hreg : registered_events (captureWebsocketMessage s e).1 events
                     = registered_events s events).
      { unfold registered_events, chain. by rewrite Hmap. }
      rewrite Hreg in Hcount2, Hlen2.
      assert (Hsplit : length (registered_events s (e :: events))
                       = (length (registered_events s [e])
                          + length (registered_events s events))%nat).
      { unfold registered_events. cbn [List.filter].
        by destruct (last (chain s (browserRequestId e))). }
      split; [done|]. split; [lia|]. exists (new1 ++ new2).
      split; [by rewrite Hm2, Hm1, <- app_assoc|].
      split; [rewrite length_app; lia|].
      intros m [Hm|Hm]%elem_of_app; [by apply Hnew1|].
      specialize (Hnew2 m Hm). lia. }
  destruct Hgen as (Hok' & Hcount & Hnew). cbn zeta.
  split; [done|]. split; [done|]. split; [done|].
  destruct Hok' as (_ & Hinc & _).
  apply NoDup_alt. intros i j n Hi Hj.
  apply list_lookup_fmap_Some in Hi as (mi & -> & Hi).
  apply list_lookup_fmap_Some in Hj as (mj & Hid & Hj).
  destruct (Nat.lt_trichotomy i j) as [Hlt|[->|Hlt]]; [|done|].
  - specialize (Hinc i j mi mj Hi Hj Hlt). lia.
  - specialize (Hinc j i mj mi Hj Hi Hlt). lia.
Qed.

Lemma captured_messages_are_numbered_witness :
  websocketMessageIdCounter
    (capture_all session_new
       [ {| browserRequestId := "req-5"; isFromServer := true; event_message := "d"; event_time := 40 |};
         {| browserRequestId := "req-9"; isFromServer := true; event_message := "e"; event_time := 40 |};
         {| browserRequestId := "req-5"; isFromServer := false; event_message := "f"; event_time := 40 |} ])
  = 2%nat.
Proof.
  refine (proj1 (proj2 (captured_messages_are_numbered session_new _ _))).
  split; [|split].
  - intros m Hm. by apply elem_of_nil in Hm.
  - intros i j mi mj Hi. discriminate Hi.
  - reflexivity.
Defined.

End WebsocketCapture.

Section CommandAttribution.
Import SessionState SessionSpec SessionRun.

(** X12.  While the function wrapped by [runCommand] runs, the last command
    of the session is the command being run, started: a websocket message
    the function captures is persisted under that command's id.  And when
    the function has left the list of commands as it found it, the last
    command after [runCommand] is that command, ended, with its result. *)
Theorem runCommand_is_the_last_command
    (s : SessionState) (commandFn : SessionState -> SessionState * Settled)
    (commandMeta : Ref) (meta0 : ICommandMeta) (startTime endTime : Z) :
  heap s !! commandMeta = Some meta0 ->
  let s1 := runCommand_start s commandMeta startTime in
  lastCommand s1 = Some (set_startDate meta0 startTime)
  /\ (forall event msg,
        (captureWebsocketMessage s1 event).2 = Some msg ->
        last (db_websocketMessages (db (captureWebsocketMessage s1 event).1))
        = Some (Some (id meta0), msg))
  /\ (forall m,
        commands (commandFn s1).1 = commands s1 ->
        heap (commandFn s1).1 !! commandMeta = Some m ->
        lastCommand (runCommand s commandFn commandMeta startTime endTime).1
        = Some (set_endDate_result m endTime
                  (Some (match (commandFn s1).2 with
                         | Fulfilled value => value
                         | Rejected err => err
                         end)))).
Proof.
  intros Hobj s1.
  destruct (runCommand_start_spec s commandMeta meta0 startTime Hobj)
    as (Hcmds & Hheap & _). fold s1 in Hcmds, Hheap.
  assert (Hlast : lastCommand s1 = Some (set_startDate meta0 startTime)).
  { unfold lastCommand. rewrite Hcmds, last_snoc. cbn. exact Hheap. }
  split; [done|]. split.
  - intros event msg. unfold captureWebsocketMessage.
    destruct (last (default [] _)); [|done]. cbn. intros [= <-].
    by rewrite last_snoc, Hlast.
  - intros m Hsame Hm. unfold runCommand. fold s1.
    destruct (commandFn s1) as [s2 settled]. cbn in *.
    destruct (runCommand_finally_spec s2 commandMeta m endTime
                (match settled with
                 | Fulfilled value => Some value | Rejected err => Some err end) Hm)
      as (Hheap3 & _).
    unfold lastCommand.
    assert (Hc3 : commands (runCommand_finally s2 commandMeta endTime
                              (match settled with
                               | Fulfilled value => Some value
                               | Rejected err => Some err end))
                  = commands s2).
    { unfold runCommand_finally, insert_command_object. cbn.
      by destruct (alter _ _ _ !! _). }
    rewrite Hc3, Hsame, Hcmds, last_snoc. cbn. rewrite Hheap3. by destruct settled.
Qed.

Lemma runCommand_is_the_last_command_witness :
  exists msg,
    last (db_websocketMessages
            (db (captureWebsocketMessage (runCommand_start session_new 0%nat 100)
                   {| browserRequestId := "req-5"; isFromServer := true;
                      event_message := "hello"; event_time := 40 |}).1))
    = Some (Some 7, msg).
Proof.
  destruct (runCommand_is_the_last_command session_new
              (fun s => (s, Fulfilled "ok")) 0%nat
              {| id := 7; name := "goto"; startDate := None; endDate := None;
                 result := None; resultType := None |} 100 200 eq_refl)
    as (_ & Hcapture & _).
  eexists. apply Hcapture. reflexivity.
Defined.

End CommandAttribution.

Section StopListening.
Import SessionState SessionSpec SessionRun.

Lemma remove_first_snoc (l : Listener) (ls : list Listener) :
  l ∉ ls -> remove_first l (ls ++ [l]) = ls.
Proof.
  induction ls as [|x ls IH]; intros Hl; cbn.
  - by rewrite decide_True.
  - apply not_elem_of_cons in Hl as [Hx Hl].
    rewrite decide_False by congruence. by rewrite IH.
Qed.

Lemma delivered_to_others (listeners : gmap Z (list Listener)) (l : Listener)
    (new : list IWebsocketResourceMessage) :
  (forall r ls, listeners !! r = Some ls -> l ∉ ls) ->
  delivered_to l (concat (map (fan_out listeners) new)) = [].
Proof.
  intros Hfree. unfold delivered_to.
  induction new as [|m new IH]; [done|].
  cbn [map concat]. rewrite filter_app, fmap_app, IH, app_nil_r. clear IH.
  unfold fan_out. destruct (listeners !! resourceId m) as [ls|] eqn:Hls; [|done].
  cbn [from_option]. unfold Datatypes.id. specialize (Hfree _ _ Hls). clear Hls.
  induction ls as [|x ls IH]; [done|].
  apply not_elem_of_cons in Hfree as [Hx Hl]. cbn [map].
  rewrite filter_cons_False by (cbn; congruence). by apply IH.
Qed.

(** X13.  Unregistering a listener that was registered once, for resource
    [r] and for no other, puts the listeners of [r] back as they were before
    it was registered (an empty list where there was none), leaves the
    listeners of the other resources and the log of calls alone, and no frame
    captured afterwards is handed to it.  Unregistering from a resource that
    never had a listener does nothing at all. *)
Theorem stopWebsocketMessages_undoes_registration
    (s : SessionState) (r : Z) (l : Listener) (events : list WebsocketEvent) :
  (forall r' ls, websocketListeners s !! r' = Some ls -> l ∉ ls) ->
  let s1 := onWebsocketMessages s r l in
  let s2 := stopWebsocketMessages s1 r l in
  websocketListeners s2 !! r = Some (default [] (websocketListeners s !! r))
  /\ (forall r', r' ≠ r -> websocketListeners s2 !! r' = websocketListeners s !! r')
  /\ delivered s2 = delivered s1
  /\ websocketMessages s2 = websocketMessages s
  /\ delivered_to l (drop (length (delivered s2)) (delivered (capture_all s2 events)))
     = []
  /\ (websocketListeners s !! r = None -> stopWebsocketMessages s r l = s).
Proof.
  intros Hfree s1 s2.
  destruct (onWebsocketMessages_spec s r l) as (Hd1 & Hm1 & Hl1).
  fold s1 in Hd1, Hm1, Hl1.
  assert (Hold : l ∉ default [] (websocketListeners s !! r)).
  { destruct (websocketListeners s !! r) as [ls|] eqn:Hls; cbn.
    - by eapply Hfree.
    - apply not_elem_of_nil. }
  assert (Hl2 : websocketListeners s2
                = <[r := default [] (websocketListeners s !! r)]>
                    (websocketListeners s)).
  { subst s2. unfold stopWebsocketMessages. rewrite Hl1, lookup_insert_eq. cbn.
    rewrite insert_insert_eq. by rewrite remove_first_snoc. }
  assert (Hsame : delivered s2 = delivered s1 /\ websocketMessages s2 = websocketMessages s1).
  { subst s2. unfold stopWebsocketMessages. by destruct (websocketListeners s1 !! r). }
  destruct Hsame as [Hd2 Hm2].
  split; [by rewrite Hl2, lookup_insert_eq|].
  split; [intros r' Hne; by rewrite Hl2, lookup_insert_ne|].
  split; [done|]. split; [by rewrite Hm2|]. split.
  - destruct (capture_all_spec events s2) as (new & _ & _ & ->).
    rewrite drop_app_length. apply delivered_to_others.
    intros r' ls. rewrite Hl2. destruct (decide (r' = r)) as [->|Hne].
    + rewrite lookup_insert_eq. by intros [= <-].
    + rewrite lookup_insert_ne by done. apply Hfree.
  - intros Hnone. unfold stopWebsocketMessages. by rewrite Hnone.
Qed.

Lemma stopWebsocketMessages_undoes_registration_witness :
  delivered_to 1%nat
    (drop
       (length (delivered (stopWebsocketMessages
                             (onWebsocketMessages session_with_frames 5 1%nat) 5 1%nat)))
       (delivered
          (capture_all
             (stopWebsocketMessages
                (onWebsocketMessages session_with_frames 5 1%nat) 5 1%nat)
             [ {| browserRequestId := "req-5"; isFromServer := true;
                  event_message := "d"; event_time := 40 |} ])))
  = [].
Proof.
  refine (proj1 (proj2 (proj2 (proj2 (proj2
            (stopWebsocketMessages_undoes_registration session_with_frames 5 1%nat
               [ {| browserRequestId := "req-5"; isFromServer := true;
                    event_message := "d"; event_time := 40 |} ] _)))))).
  intros r' ls Hls. exfalso. exact (lookup_empty_Some _ _ Hls).
Defined.

End StopListening.

(** ** Theorems: resources and page events *)

Section ResourceMeta.
Import SessionState SessionSpec SessionRun Recorder.






End ResourceMeta.

Section ResourceCapture.
Import SessionState SessionSpec SessionRun Recorder.









End ResourceCapture.

Section LocationLoaded.
Import SessionState SessionSpec SessionRun Recorder.



End LocationLoaded.

Section PageEvents.
Import SessionState SessionSpec SessionRun Recorder.

Lemma find_rev_last {A} (f : A -> bool) (h1 : list A) (page : A) (h2 : list A) :
  f page = true ->
  (forall p, p ∈ h2 -> f p = false) ->
  List.find f (rev (h1 ++ page :: h2)) = Some page.
Proof.
  intros Hpage Hnone. rewrite rev_app_distr. cbn. rewrite <- app_assoc. cbn.
  assert (Hskip : forall l rest,
             (forall p, p ∈ l -> f p = false) ->
             List.find f (l ++ rest) = List.find f rest).
  { induction l as [|x l IH]; intros rest Hl; [done|]. cbn.
    rewrite (Hl x) by apply list_elem_of_here.
    apply IH. intros p Hp. apply Hl. by apply list_elem_of_further. }
  rewrite Hskip.
  - cbn. by rewrite Hpage.
  - intros p Hp. apply Hnone. apply list_elem_of_In. apply in_rev.
    by apply list_elem_of_In.
Qed.

Lemma find_rev_none {A} (f : A -> bool) (l : list A) :
  (forall p, p ∈ l -> f p = false) -> List.find f (rev l) = None.
Proof.
  intros Hnone. destruct (List.find f (rev l)) as [p|] eqn:Hfind; [|done].
  apply find_some in Hfind as [Hin Hp].
  apply in_rev, list_elem_of_In, Hnone in Hin. congruence.
Qed.

Lemma greatest_command (domChanges : list PageEvent) (start : Z) :
  let m := fold_left (fun max change => if change.1 <? max then max else change.1)
             domChanges start in
  start <= m
  /\ (forall e, e ∈ domChanges -> e.1 <= m)
  /\ (m = start \/ exists e, e ∈ domChanges /\ e.1 = m).
Proof.
  revert start. induction domChanges as [|c l IH]; intros start; cbn.
  - split; [lia|]. split; [|by left]. intros e He. by apply elem_of_nil in He.
  - destruct (IH (if c.1 <? start then start else c.1)) as (Hle & Hall & Hone).
    cbn zeta in *.
    destruct (Z.ltb_spec c.1 start) as [Hlt|Hge].
    + split; [done|]. split.
      * intros e [->|He]%elem_of_cons; [lia|by apply Hall].
      * destruct Hone as [->|(e & He & <-)]; [by left|].
        right. exists e. split; [by apply list_elem_of_further|done].
    + split; [lia|]. split.
      * intros e [->|He]%elem_of_cons; [lia|by apply Hall].
      * right. destruct Hone as [->|(e & He & <-)].
        -- exists c. split; [apply list_elem_of_here|done].
        -- exists e. split; [by apply list_elem_of_further|done].
Qed.

(** X18.  [onPageEvents] first logs the call, and the entry reaches the
    session's own [onLogEvent]: until the session is closed, the table of
    session logs gets one entry of level 'stats', also when the call then
    throws; the session is otherwise as it was, and so are the resources.
    Of a tab that is not registered the call throws and stores no page
    event.  Of a registered tab, it stores every event given, in order,
    behind the rows of its table.  The events without a command (-1) are all
    given the same one, the others keep theirs: the start command of the
    last page of the history that has responded, whatever the commands of
    the dom changes; and when no page has responded, the greatest command of
    the dom changes, or -1 when there is no dom change with a command, in
    which case the events stay without one. *)
Theorem page_events_get_the_last_loaded_command
    (r : Recorder) (tabId frameId : string)
    (domChanges mouseEvents focusEvents scrollEvents : list PageEvent) (now : Z) :
  let result :=
    onPageEvents r tabId frameId domChanges mouseEvents focusEvents scrollEvents now in
  let r' := result.1 in
  session r'
  = match closeDate (session r) with
    | None =>
        set_db (session r)
          (db_sessionLogs_insert (db (session r))
             {| entry_sessionId := Some (sessionId (session r));
                action := "State.onPageEvents";
                level := "stats";
                timestamp := now |})
    | Some _ => session r
    end
  /\ resources r' = resources r
  /\ db_resources r' = db_resources r
  /\ (tab_lookup (navigationsByTabId (session r)) tabId = None ->
      result.2 = ThrowsTypeError
      /\ db_domChanges r' = db_domChanges r
      /\ db_mouseEvents r' = db_mouseEvents r
      /\ db_focusEvents r' = db_focusEvents r
      /\ db_scrollEvents r' = db_scrollEvents r)
  /\ (forall navigations0,
        tab_lookup (navigationsByTabId (session r)) tabId = Some navigations0 ->
        exists start,
          result.2 = Returns
          /\ db_domChanges r'
             = db_domChanges r
               ++ map (fun e => (tabId, frameId,
                                 (if e.1 =? -1 then start else e.1, e.2))) domChanges
          /\ db_mouseEvents r'
             = db_mouseEvents r
               ++ map (fun e => (tabId, (if e.1 =? -1 then start else e.1, e.2)))
                    mouseEvents
          /\ db_focusEvents r'
             = db_focusEvents r
               ++ map (fun e => (tabId, (if e.1 =? -1 then start else e.1, e.2)))
                    focusEvents
          /\ db_scrollEvents r'
             = db_scrollEvents r
               ++ map (fun e => (tabId, (if e.1 =? -1 then start else e.1, e.2)))
                    scrollEvents
          /\ (forall h1 page h2,
                history navigations0 = h1 ++ page :: h2 ->
                has_HttpResponded page = true ->
                (forall p, p ∈ h2 -> has_HttpResponded p = false) ->
                start = startCommandId page)
          /\ ((forall p, p ∈ history navigations0 -> has_HttpResponded p = false) ->
              -1 <= start
              /\ (forall e, e ∈ domChanges -> e.1 <= start)
              /\ (start = -1 \/ exists e, e ∈ domChanges /\ e.1 = start))).
Proof.
  cbn zeta. unfold onPageEvents.
  assert (Htabs : navigationsByTabId
                    (logger_log (session r) "stats" "State.onPageEvents" now)
                  = navigationsByTabId (session r))
    by apply logger_log_keeps.
  rewrite Htabs.
  assert (Hlog : logger_log (session r) "stats" "State.onPageEvents" now
                 = match closeDate (session r) with
                   | None =>
                       set_db (session r)
                         (db_sessionLogs_insert (db (session r))
                            {| entry_sessionId := Some (sessionId (session r));
                               action := "State.onPageEvents";
                               level := "stats";
                               timestamp := now |})
                   | Some _ => session r
                   end).
  { unfold logger_log, onLogEvent. destruct (closeDate (session r)); [done|].
    cbn. by rewrite bool_decide_eq_true_2. }
  split; [by destruct (tab_lookup _ _)|].
  split; [by destruct (tab_lookup _ _)|].
  split; [by destruct (tab_lookup _ _)|].
  split.
  - by intros ->.
  - intros navigations0 ->. cbn [fst snd].
    exists (page_events_command navigations0 domChanges).
    split; [done|]. cbn.
    assert (Hfill : forall start (e : PageEvent),
               fill_command start e = (if e.1 =? -1 then start else e.1, e.2)).
    { intros start [c rest]. unfold fill_command. cbn. by destruct (c =? -1). }
    split; [f_equal; apply map_ext; intros e; by rewrite Hfill|].
    split; [f_equal; apply map_ext; intros e; by rewrite Hfill|].
    split; [f_equal; apply map_ext; intros e; by rewrite Hfill|].
    split; [f_equal; apply map_ext; intros e; by rewrite Hfill|].
    unfold page_events_command. split.
    + intros h1 page h2 -> Hpage Hnone.
      by rewrite (find_rev_last _ h1 page h2 Hpage Hnone).
    + intros Hnone. rewrite (find_rev_none _ _ Hnone).
      apply greatest_command.
Qed.

End PageEvents.

(** ** Theorems: the dispatch of requests, further *)

Section DispatchEdges.
Import CoreServerConnection DispatchSpec.

Variable World : Type.
Variable this_property : string -> option (Property World).
Variable Session_getTab : Connection World -> option ISessionMeta -> GetTab World.
Variable Session_lastCommandId : Connection World -> string -> option Z.

Local Abbreviation handle' :=
  (handleRequest World this_property Session_getTab Session_lastCommandId).

(** The command id of a response, read in the state [c1]. *)
Local Abbreviation command_id_at c1 payload :=
  (m ← meta payload; sid ← meta_sessionId m;
   if String.eqb sid "" then None else Session_lastCommandId c1 sid).

(** X19.  A command that is a property of the connection never reaches the
    tab: the answer is the same whatever [Session.getTab] would do.  When the
    property is a function that returns, the answer carries what it returned,
    without error, on the connection as the function left it.  When it is
    not a function (a field such as 'isClosing'), calling it throws, and the
    answer is an error with a message and a stack, the connection being
    otherwise untouched. *)
Theorem connection_properties_shadow_the_tab
    (c : Connection World) (payload : ICoreRequestPayload) (p : Property World) :
  this_property (command payload) = Some p ->
  (forall getTab',
      handleRequest World this_property getTab' Session_lastCommandId c payload
      = handle' c payload)
  /\ (forall f c1 d,
        p = Function World f ->
        f c (method_arguments payload) = (c1, Fulfilled d) ->
        handle' c payload
        = emit_message World c1
            {| responseId := messageId payload;
               commandId := command_id_at c1 payload;
               data := DataValue d;
               isError := false |})
  /\ (forall ty,
        p = NotFunction World ty ->
        exists message0 stack0,
          handle' c payload
          = emit_message World c
              {| responseId := messageId payload;
                 commandId := command_id_at c payload;
                 data := DataObject [("message", message0); ("stack", stack0)];
                 isError := true |}).
Proof.
  intros Hthis. split; [|split].
  - intros getTab'. unfold handleRequest, handleRequest_try. by rewrite Hthis.
  - intros f c1 d -> Hf. unfold handleRequest, handleRequest_try.
    rewrite Hthis. unfold method_arguments in Hf.
    destruct (meta payload) as [m|]; cbn [call]; by rewrite Hf.
  - intros ty ->. unfold handleRequest, handleRequest_try. rewrite Hthis.
    do 2 eexists. by destruct (meta payload) as [m|].
Qed.

(** X20.  A command that is no property of the connection goes to the tab
    of the request.  When [Session.getTab] throws, or returns no tab, the
    request is answered with an error, the one thrown in the first case, and
    the connection is otherwise untouched.  When the tab has the command as
    a function, the function is called with the arguments of the request
    alone, without the meta; when it returns, the answer carries what it
    returned, without error. *)
Theorem tab_lookup_failure_is_answered
    (c : Connection World) (payload : ICoreRequestPayload) :
  this_property (command payload) = None ->
  (forall thrown,
      Session_getTab c (meta payload) = GetTabThrew World thrown ->
      handle' c payload
      = emit_message World c
          {| responseId := messageId payload;
             commandId := command_id_at c payload;
             data := (handleRequest_catch thrown).1;
             isError := true |})
  /\ (Session_getTab c (meta payload) = GetTabReturned World None ->
      exists message0 stack0,
        handle' c payload
        = emit_message World c
            {| responseId := messageId payload;
               commandId := command_id_at c payload;
               data := DataObject [("message", message0); ("stack", stack0)];
               isError := true |})
  /\ (forall tab f c1 d,
        Session_getTab c (meta payload) = GetTabReturned World (Some tab) ->
        tab (command payload) = Some (Function World f) ->
        f c (map ArgValue (args payload)) = (c1, Fulfilled d) ->
        handle' c payload
        = emit_message World c1
            {| responseId := messageId payload;
               commandId := command_id_at c1 payload;
               data := DataValue d;
               isError := false |}).
Proof.
  intros Hthis. split; [|split].
  - intros thrown Htab. unfold handleRequest, handleRequest_try.
    rewrite Hthis, Htab. by destruct thrown.
  - intros Htab. unfold handleRequest, handleRequest_try.
    rewrite Hthis, Htab. by do 2 eexists.
  - intros tab f c1 d Htab Hf Hcall. unfold handleRequest, handleRequest_try.
    by rewrite Hthis, Htab, Hf, Hcall.
Qed.

(** X21.  The command id of an answer is the id of the last command of the
    session named by the meta of the request, read after the command has
    run, in the state it left, whether it returned or threw; the answer has
    no command id when the request has no meta, or a meta without session
    id, or with an empty one. *)
Theorem response_carries_the_last_command
    (c : Connection World) (payload : ICoreRequestPayload) :
  exists c1 response,
    handle' c payload = emit_message World c1 response
    /\ c1 = (handleRequest_try World this_property Session_getTab c payload).1
    /\ (forall f arguments outcome c',
          dispatched World this_property Session_getTab c payload f arguments ->
          f c arguments = (c', outcome) ->
          c1 = c')
    /\ (meta payload = None -> commandId response = None)
    /\ (forall m,
          meta payload = Some m ->
          (meta_sessionId m = None \/ meta_sessionId m = Some "") ->
          commandId response = None)
    /\ (forall m sid,
          meta payload = Some m ->
          meta_sessionId m = Some sid ->
          sid ≠ "" ->
          commandId response = Session_lastCommandId c1 sid).
Proof.
  unfold handleRequest.
  assert (Hstate : forall f arguments outcome c',
             dispatched World this_property Session_getTab c payload f arguments ->
             f c arguments = (c', outcome) ->
             (handleRequest_try World this_property Session_getTab c payload).1 = c').
  { intros f arguments outcome c' Hd Hf. unfold handleRequest_try.
    destruct Hd as [[Hthis ->]|(Hthis & tab & Htab & Hprop & ->)].
    - rewrite Hthis. unfold method_arguments in Hf.
      destruct (meta payload) as [m|]; cbn [call]; rewrite Hf;
        by destruct outcome.
    - rewrite Hthis, Htab, Hprop, Hf. by destruct outcome. }
  destruct (handleRequest_try _ _ _ c payload) as [c1 outcome]. cbn [fst] in *.
  destruct (match outcome with inl a => a | inr t => handleRequest_catch t end)
    as [data0 isError0].
  exists c1. eexists. split; [reflexivity|]. cbn.
  split; [done|]. split; [done|]. split; [|split].
  - by intros ->.
  - intros m -> [Hsid|Hsid]; cbn; by rewrite Hsid.
  - intros m sid -> Hsid Hne. cbn. rewrite Hsid. cbn.
    apply String.eqb_neq in Hne. by rewrite Hne.
Qed.

End DispatchEdges.

Section DispatchEdgesExample.
Import CoreServerConnection DispatchSpec.

Lemma connection_properties_shadow_the_tab_witness :
  handleRequest unit example_property (fun _ _ => GetTabReturned unit None)
    example_lastCommandId open_connection throwing_request
  = handleRequest unit example_property example_getTab example_lastCommandId
      open_connection throwing_request.
Proof.
  refine (proj1 (connection_properties_shadow_the_tab unit example_property
                   example_getTab example_lastCommandId open_connection
                   throwing_request _ _)
            (fun _ _ => GetTabReturned unit None)).
  reflexivity.
Defined.

Lemma tab_lookup_failure_is_answered_witness :
  exists message0 stack0,
    handleRequest unit example_property (fun _ _ => GetTabReturned unit None)
      example_lastCommandId open_connection unknown_request
    = emit_message unit open_connection
        {| responseId := "m1";
           commandId := Some 4;
           data := DataObject [("message", message0); ("stack", stack0)];
           isError := true |}.
Proof.
  refine (proj1 (proj2 (tab_lookup_failure_is_answered unit example_property
                          (fun _ _ => GetTabReturned unit None)
                          example_lastCommandId open_connection
                          unknown_request _)) _);
    reflexivity.
Defined.

End DispatchEdgesExample.

(** ** Theorems: the first status of the pipeline *)

Section NavigationRequestedWaits.
Import LocationTracker TrackerSpec TrackerRun.

Local Abbreviation requested t := (waitForCbs t (Pipeline NavigationRequested)).

(** No operation takes a resolver out of the queue of NavigationRequested. *)
Lemma step_keeps_requested (t t' : LocationTracker) (op : Op)
    (called : list Resolver) :
  step t op = Some (t', called) ->
  exists more, requested t' = requested t ++ more.
Proof.
  destruct op as [status since inclusive|c prev|lifecycle|newStatus|n];
    cbn [step].
  - intros [= <- <-].
    destruct (waitFor_cases t status since inclusive) as [->|[s ->]];
      [exists []; by rewrite app_nil_r|].
    cbn. case_decide as Hs.
    + subst s. by eexists.
    + exists []. by rewrite app_nil_r.
  - intros [= <- <-]. exists []. rewrite app_nil_r.
    unfold willRunCommand. by destruct (fold_left _ _ _).
  - unfold onNavigation. destruct (String.eqb _ _).
    { intros [= <- <-]. exists []. by rewrite app_nil_r. }
    destruct (getTriggerForNavigationReason _) as [g|].
    + rewrite runWaitForCbs_spec. intros [= <- <-]. exists [].
      rewrite app_nil_r. cbn. by rewrite decide_False.
    + intros [= <- <-]. exists []. by rewrite app_nil_r.
  - destruct (onPipelineStatusChange_spec t newStatus) as (t1 & Hrun & _ & _ & _ & Hq).
    cbn zeta in *. rewrite Hrun. intros [= <- <-]. exists []. rewrite app_nil_r.
    rewrite Hq. unfold notifies. by cbn.
  - intros [= <- <-]. exists []. by rewrite app_nil_r.
Qed.

Lemma run_keeps_requested (ops : list Op) (t t' : LocationTracker)
    (called : list Resolver) :
  run t ops = Some (t', called) ->
  exists more, requested t' = requested t ++ more.
Proof.
  revert t called. induction ops as [|op ops IH]; intros t called; cbn [run].
  - intros [= <- <-]. exists []. by rewrite app_nil_r.
  - destruct (step t op) as [[t1 called1]|] eqn:Hstep; [|done]. cbn.
    destruct (run t1 ops) as [[t2 called2]|] eqn:Hrun; [|done]. cbn.
    intros [= <- <-].
    destruct (step_keeps_requested _ _ _ _ Hstep) as [more1 H1].
    destruct (IH _ _ Hrun) as [more2 H2].
    exists (more1 ++ more2). by rewrite H2, H1, app_assoc.
Qed.

(** X22.  A wait for NavigationRequested, the first status of the pipeline,
    is never satisfied.  [waitFor] never returns at once for it, whatever the
    step of the current navigation: it queues a resolver.  And over any
    sequence of calls, navigation requests and status changes, the resolvers
    waiting for NavigationRequested stay in their queue, in order, and none
    of them is called. *)
Theorem navigation_requested_is_never_notified
    (t : LocationTracker) (called0 : list Resolver)
    (since : option Z) (inclusive : option bool) (ops : list Op) :
  tracker_ok t called0 ->
  let t1 := (waitFor t "NavigationRequested" since inclusive).1 in
  (waitFor t "NavigationRequested" since inclusive).2 = Pending (promises t)
  /\ requested t1 = requested t ++ [promises t]
  /\ exists t2 called more,
       run t1 ops = Some (t2, called)
       /\ requested t2 = requested t1 ++ more
       /\ forall r, r ∈ requested t1 -> r ∉ called.
Proof.
  intros Hok. cbn zeta.
  assert (Hwait : waitFor t "NavigationRequested" since inclusive
                  = (set_waitForCbs
                       {| defaultWaitForLocationCommandId :=
                            defaultWaitForLocationCommandId t;
                          navigations := navigations t;
                          waitForCbs := waitForCbs t;
                          promises := S (promises t) |}
                       (Pipeline NavigationRequested)
                       (requested t ++ [promises t]),
                     Pending (promises t)))
    by apply (waitFor_pipeline t NavigationRequested).
  rewrite Hwait. cbn [fst snd].
  split; [done|]. split; [cbn; by rewrite decide_True|].
  pose proof (step_ok_tracker t called0 (OpWaitFor "NavigationRequested" since inclusive) Hok)
    as (t1 & called1 & Hstep & Hok1).
  cbn [step] in Hstep. rewrite Hwait in Hstep. cbn [fst] in Hstep.
  injection Hstep as <- <-. rewrite app_nil_r in Hok1.
  destruct (run_ok_tracker ops _ _ Hok1) as (t2 & called & Hrun & Hok2).
  destruct (run_keeps_requested _ _ _ _ Hrun) as [more Hmore].
  exists t2, called, more. split; [done|]. split; [done|].
  intros r Hr Hcalled. destruct Hok2 as [Hnd _].
  rewrite <- app_assoc in Hnd. apply NoDup_app in Hnd as (_ & _ & Hnd).
  apply NoDup_app in Hnd as (_ & Hdisj & _).
  apply (Hdisj r Hcalled). unfold all_waiting.
  apply list_elem_of_In, in_concat.
  exists (requested t2). split.
  - apply in_map, list_elem_of_In, elem_of_LocationStatus_members.
  - apply list_elem_of_In. rewrite Hmore. apply elem_of_app. by left.
Qed.

Lemma navigation_requested_is_never_notified_witness :
  exists t2 called more,
    run (waitFor tracker_at_HttpRequested
           "NavigationRequested" None None).1
      [OpStatusChange HttpResponded; OpStatusChange AllContentLoaded]
    = Some (t2, called)
    /\ requested t2 = [0%nat] ++ more
    /\ forall r, r ∈ [0%nat] -> r ∉ called.
Proof.
  refine (proj2 (proj2 (navigation_requested_is_never_notified
                          tracker_at_HttpRequested
                          [] None None
                          [OpStatusChange HttpResponded; OpStatusChange AllContentLoaded]
                          _))).
  split.
  - apply NoDup_nil_2.
  - intros r Hr. by apply elem_of_nil in Hr.
Defined.

End NavigationRequestedWaits.
